(** * Exchange-rate service: TTL cache and refresh orchestrator

    A shallow embedding of the Go packages [cache] (MemoryCache),
    [external] (ExchangeRateClient), [models], [utils] (the validators)
    and [services] (RateFetcher, ExchangeService), followed by the
    properties of the specification checked against it and by further
    properties of the code.

    Modelling conventions.
    - Go [string] is [string]; [fmt.Sprintf] with [%s] verbs is
      concatenation.
    - Go [float64] is the kernel's binary64 [float]; rates are stored and
      returned, and the one computation with them is the multiplication
      of [ConvertCurrency].
    - Go [int] is a 64-bit two's complement integer: a [Z] with the
      wrap-around written out ([wrap64]).
    - [time.Time] is an instant in nanoseconds on one clock, a [Z];
      [time.Duration] is a number of nanoseconds.  Every [time.Now()] of the
      source is an explicit argument [now] of the embedded function.
      Dates are read and written in UTC, the zone of [time.Parse] and of
      the service.
    - A [map[string]T] is a [gmap string T]; a [range] over a map visits
      its entries in an unspecified order, which the functions below take
      as the list they iterate over.
    - A method that works on a receiver under its mutex is one atomic
      state transformer in the monad [State]; the mutex itself is not
      represented.  [log.Printf] output is not represented.
    - A refresh pass runs one goroutine per base currency, all sending on
      one channel that a single loop receives from.  Its nondeterminism is
      an explicit [Schedule]: the order of every map range, the order in
      which the channel takes the pending sends, and the instants of the
      writes.  The properties of a pass quantify over all schedules; the
      pass is taken alone, without writes of other callers in between. *)

From Stdlib Require Import ZArith Lia Ascii PrimFloat Uint63 DecimalString.
From stdpp Require Import gmap strings list fin_maps.

Open Scope Z_scope.

(** ** Go base types *)

Definition float64 : Type := float.
Definition int : Type := Z.

Definition wrap64 (z : Z) : int := (z + 2 ^ 63) mod 2 ^ 64 - 2 ^ 63.

(** [x++] on an [int]. *)
Definition int_incr (x : int) : int := wrap64 (x + 1).

(** [x + y] on two [int]s. *)
Definition int_add (x y : int) : int := wrap64 (x + y).

(** [len(m)] of a map, as the [int] Go returns. *)
Definition len {V} (m : gmap string V) : int := wrap64 (Z.of_nat (size m)).

(** [float64(x)] for an [int] [x]. *)
Definition float64_of_int (x : int) : float64 :=
  if x <? 0 then PrimFloat.opp (PrimFloat.of_uint63 (Uint63.of_Z (- x)))
  else PrimFloat.of_uint63 (Uint63.of_Z x).

Module time.
Definition Time : Type := Z.
Definition Duration : Type := Z.

Definition Millisecond : Duration := 1000000.
Definition Second : Duration := 1000000000.
Definition Minute : Duration := 60 * Second.
Definition Hour : Duration := 60 * Minute.

(** [t.After(u)]: t is strictly later than u. *)
Definition After (t u : Time) : bool := u <? t.

(** [t.Add(d)]. *)
Definition Add (t : Time) (d : Duration) : Time := t + d.

(** [d.Seconds()]: whole seconds plus the fractional rest. *)
Definition Seconds (d : Duration) : float64 :=
  let sec := Z.quot d Second in
  let nsec := Z.rem d Second in
  PrimFloat.add (float64_of_int sec)
                (PrimFloat.div (float64_of_int nsec) 1e9%float).
End time.

(** ** Go errors

    [errorString] is an error made by [fmt.Errorf] without [%w];
    [wrapError] is one made with [%w]: it keeps the wrapped error next to
    the formatted message. *)
Inductive error : Type :=
  | errorString (msg : string)
  | wrapError (msg : string) (wrapped : error).

(** [err.Error()]. *)
Definition Error (e : error) : string :=
  match e with
  | errorString msg => msg
  | wrapError msg _ => msg
  end.

(** [fmt.Errorf(prefix + "%w", err)]. *)
Definition Errorf_w (prefix : string) (err : error) : error :=
  wrapError (prefix +:+ Error err) err.

(** The [%d] verb. *)
Definition Sprint_d (z : Z) : string := NilZero.string_of_int (Z.to_int z).

(** ** State monad for receivers that are mutated in place *)

Definition State (S A : Type) : Type := S → A * S.

Definition ret {S A} (a : A) : State S A := λ s, (a, s).
Definition bind {S A B} (m : State S A) (k : A → State S B) : State S B :=
  λ s, let '(a, s') := m s in k a s'.
Definition get {S} : State S S := λ s, (s, s).
Definition put {S} (s : S) : State S unit := λ _, (tt, s).

Notation "x <~ m ;; k" := (bind m (λ x, k))
  (at level 100, m at next level, right associativity, only parsing).
Notation "m ;;; k" := (bind m (λ _, k))
  (at level 100, right associativity, only parsing).

(** ** Notions about strings used in the statements *)

(** [s] has no underscore in it. *)
Fixpoint underscore_free (s : string) : bool :=
  match s with
  | EmptyString => true
  | String a s' => negb (Ascii.eqb a "_"%char) && underscore_free s'
  end.

(** The last component of a key: the date, or the word used for none. *)
Definition dateTag (date : string) : string :=
  if decide (date = "") then "latest" else date.

(** * Package cache *)

Module cache.

Record CacheItem : Type := {
  Rate : float64;
  ExpiresAt : time.Time;
}.

Record MemoryCache : Type := {
  data : gmap string CacheItem;
  ttl : time.Duration;
}.

(** The background goroutine started here is [cleanupExpired], whose
    loop body is [cleanupTick] below. *)
Definition NewMemoryCache (ttl : time.Duration) : MemoryCache :=
  {| data := ∅; ttl := ttl |}.

Definition generateKey (from to date : string) : string :=
  if decide (date = "") then from +:+ "_" +:+ to +:+ "_latest"
  else from +:+ "_" +:+ to +:+ "_" +:+ date.

Definition Get (from to date : string) (now : time.Time)
  : State MemoryCache (float64 * bool) :=
  c <~ get ;;
  let key := generateKey from to date in
  match data c !! key with
  | None => ret (0%float, false)
  | Some item =>
      if time.After now (ExpiresAt item) then ret (0%float, false)
      else ret (Rate item, true)
  end.

Definition Set_ (from to date : string) (rate : float64) (now : time.Time)
  : State MemoryCache unit :=
  c <~ get ;;
  let key := generateKey from to date in
  put {| data := <[key := {| Rate := rate;
                             ExpiresAt := time.Add now (ttl c) |}]> (data c);
         ttl := ttl c |}.

Definition Delete (from to date : string) : State MemoryCache unit :=
  c <~ get ;;
  let key := generateKey from to date in
  put {| data := delete key (data c); ttl := ttl c |}.

Definition Clear : State MemoryCache unit :=
  c <~ get ;;
  put {| data := ∅; ttl := ttl c |}.

Definition Size : State MemoryCache int :=
  c <~ get ;;
  ret (len (data c)).

Record Stats : Type := {
  total_items : int;
  valid_items : int;
  expired_items : int;
  ttl_seconds : float64;
}.

(** The counting loop of [GetStats] over the entries in the order
    [items] in which [range] visits them; the accumulator is
    [(validItems, expiredItems)]. *)
Fixpoint countItems (now : time.Time) (items : list (string * CacheItem))
    (acc : int * int) : int * int :=
  match items with
  | [] => acc
  | (_, item) :: rest =>
      let '(validItems, expiredItems) := acc in
      if time.After now (ExpiresAt item)
      then countItems now rest (validItems, int_incr expiredItems)
      else countItems now rest (int_incr validItems, expiredItems)
  end.

Definition GetStats_in (items : list (string * CacheItem)) (now : time.Time)
  : State MemoryCache Stats :=
  c <~ get ;;
  let '(validItems, expiredItems) := countItems now items (0, 0) in
  ret {| total_items := len (data c);
         valid_items := validItems;
         expired_items := expiredItems;
         ttl_seconds := time.Seconds (ttl c) |}.

(** [GetStats] with the entries visited in the map's canonical order. *)
Definition GetStats (now : time.Time) : State MemoryCache Stats :=
  λ c, GetStats_in (map_to_list (data c)) now c.

(** One firing of the ticker in [cleanupExpired]: the deleting loop over
    the entries in the order [items], then the whole body. *)
Fixpoint sweepItems (now : time.Time) (items : list (string * CacheItem))
    (d : gmap string CacheItem) : gmap string CacheItem :=
  match items with
  | [] => d
  | (key, item) :: rest =>
      if time.After now (ExpiresAt item)
      then sweepItems now rest (delete key d)
      else sweepItems now rest d
  end.

Definition cleanupTick_in (items : list (string * CacheItem))
    (now : time.Time) : State MemoryCache unit :=
  c <~ get ;;
  put {| data := sweepItems now items (data c); ttl := ttl c |}.

Definition cleanupTick (now : time.Time) : State MemoryCache unit :=
  λ c, cleanupTick_in (map_to_list (data c)) now c.

End cache.

(** * Package models *)

Module models.

(** [ExternalAPIResponse]: of its five fields the code reads one, the
    mapping from currency to rate, which [GetLatestRates] and its callers
    compare with [nil], index and range over; [Provider], [Base], [Date]
    and [TimeLastUpdated] are decoded and never read, and are left out.
    [None] is the nil map. *)
Record ExternalAPIResponse : Type := {
  Rates : option (gmap string float64);
}.

(** [m[key]] on a possibly nil map, with the comma-ok flag as [option]. *)
Definition index (m : option (gmap string float64)) (key : string)
  : option float64 :=
  match m with
  | None => None
  | Some m => m !! key
  end.

(** [SupportedCurrencies]: the supported codes, each mapped to [true]. *)
Definition SupportedCurrencies : gmap string bool :=
  list_to_map [("USD", true); ("INR", true); ("EUR", true);
               ("JPY", true); ("GBP", true)].

Record ConversionRequest : Type := {
  From : string;
  To : string;
  Amount : float64;
  Date : string;
}.

(** [ConversionResponse]; the fields are prefixed, the names being those
    of the request. *)
Record ConversionResponse : Type := {
  resp_From : string;
  resp_To : string;
  resp_Amount : float64;
  resp_ConvertedAmount : float64;
  resp_Rate : float64;
  resp_Date : time.Time;
}.

Record HistoricalRateRequest : Type := {
  hist_From : string;
  hist_To : string;
  StartDate : string;
  EndDate : string;
}.

Record HistoricalRate : Type := {
  rate_Rate : float64;
  rate_Date : time.Time;
}.

Record HistoricalRateResponse : Type := {
  hresp_From : string;
  hresp_To : string;
  hresp_Rates : gmap string HistoricalRate;
}.

End models.

(** * Package external *)

Module external.

Definition BaseURL : string := "https://api.exchangerate-api.com/v4".
Definition LatestEndpoint : string := "/latest".
Definition HistoryEndpoint : string := "/history".
Definition RequestTimeout : time.Duration := 10 * time.Second.

(** What [json.NewDecoder(resp.Body).Decode(&apiResponse)] makes of a
    response body: an error, or the decoded value. *)
Inductive Body : Type :=
  | BodyInvalid (err : error)
  | BodyJSON (apiResponse : models.ExternalAPIResponse).

Record Response : Type := {
  StatusCode : int;
  body : Body;
}.

(** The remote side: what a GET of a URL yields, a response or a
    transport error. *)
Record HttpClient : Type := {
  Timeout : time.Duration;
  RoundTrip : string → Response + error;
}.

(** The requests sent over the network so far, oldest first. *)
Definition Net : Type := list string.

Definition http_Get (h : HttpClient) (url : string)
  : State Net (Response + error) :=
  sent <~ get ;;
  put (sent ++ [url]) ;;;
  ret (RoundTrip h url).

Definition StatusOK : int := 200.

Record ExchangeRateClient : Type := {
  httpClient : HttpClient;
  baseURL : string;
}.

Definition NewExchangeRateClient (remote : string → Response + error)
  : ExchangeRateClient :=
  {| httpClient := {| Timeout := RequestTimeout; RoundTrip := remote |};
     baseURL := BaseURL |}.

(** A Go result made of a pointer and an error, of which exactly one is
    non-nil, is a sum: [inl] the value, [inr] the error. *)
Definition GetLatestRates (c : ExchangeRateClient) (baseCurrency : string)
  : State Net (models.ExternalAPIResponse + error) :=
  let url := baseURL c +:+ LatestEndpoint +:+ "/" +:+ baseCurrency in
  r <~ http_Get (httpClient c) url ;;
  match r with
  | inr err => ret (inr (Errorf_w "failed to fetch latest rates: " err))
  | inl resp =>
      if decide (StatusCode resp ≠ StatusOK)
      then ret (inr (errorString ("API returned status code: "
                                  +:+ Sprint_d (StatusCode resp))))
      else
        match body resp with
        | BodyInvalid err =>
            ret (inr (Errorf_w "failed to decode response: " err))
        | BodyJSON apiResponse =>
            match models.Rates apiResponse with
            | None =>
                ret (inr (errorString
                  "API request was not successful - no rates received"))
            | Some _ => ret (inl apiResponse)
            end
        end
  end.

Definition GetHistoricalRates (c : ExchangeRateClient)
    (baseCurrency date : string)
  : State Net (models.ExternalAPIResponse + error) :=
  ret (inr (errorString
    "historical data not available with current API - upgrade to paid tier for historical data")).

(** A Go result [(float64, error)] is the pair of both values; [None]
    is the nil error. *)
Definition GetRateForPair (c : ExchangeRateClient) (from to : string)
  : State Net (float64 * option error) :=
  if decide (from = to) then ret (1.0%float, None)
  else
    r <~ GetLatestRates c from ;;
    match r with
    | inr err => ret (0%float, Some err)
    | inl apiResponse =>
        match models.index (models.Rates apiResponse) to with
        | None =>
            ret (0%float,
                 Some (errorString ("rate not found for currency pair "
                                    +:+ from +:+ "/" +:+ to)))
        | Some rate => ret (rate, None)
        end
    end.

Definition GetHistoricalRateForPair (c : ExchangeRateClient)
    (from to date : string) : State Net (float64 * option error) :=
  if decide (from = to) then ret (1.0%float, None)
  else
    r <~ GetHistoricalRates c from date ;;
    match r with
    | inr err => ret (0%float, Some err)
    | inl apiResponse =>
        match models.index (models.Rates apiResponse) to with
        | None =>
            ret (0%float,
                 Some (errorString
                   ("historical rate not found for currency pair "
                    +:+ from +:+ "/" +:+ to +:+ " on " +:+ date)))
        | Some rate => ret (rate, None)
        end
    end.

(** What [GetLatestRates] returns for a base currency: it depends on the
    remote alone, not on the requests sent before. *)
Definition latestOutcome (c : ExchangeRateClient) (baseCurrency : string)
  : models.ExternalAPIResponse + error :=
  (GetLatestRates c baseCurrency []).1.

(** The error of [GetHistoricalRates]. *)
Definition historicalUnavailable : error :=
  errorString
    "historical data not available with current API - upgrade to paid tier for historical data".

(** The URL [GetLatestRates] requests. *)
Definition latestURL (c : ExchangeRateClient) (baseCurrency : string)
  : string :=
  baseURL c +:+ LatestEndpoint +:+ "/" +:+ baseCurrency.

End external.

(** * Package services *)

Module services.

(** What the fetcher and the service share and mutate: the cache they
    both point to, and the network behind the client. *)
Record World : Type := {
  wcache : cache.MemoryCache;
  wnet : external.Net;
}.

Definition onCache {A} (m : State cache.MemoryCache A) : State World A :=
  λ w, let '(a, c) := m (wcache w) in (a, {| wcache := c; wnet := wnet w |}).

Definition onNet {A} (m : State external.Net A) : State World A :=
  λ w, let '(a, n) := m (wnet w) in (a, {| wcache := wcache w; wnet := n |}).

Record rateResult : Type := {
  from : string;
  to : string;
  rate : float64;
  err : option error;
}.

(** The fields of [RateFetcher] that never change after construction;
    [cache] is [wcache] of the world, and [isRunning], [ctx] and [cancel]
    are the [Lifecycle] below. *)
Record RateFetcher : Type := {
  client : external.ExchangeRateClient;
  currencies : list string;
  fetchInterval : time.Duration;
}.

Inductive goroutine : Type :=
  | go_fetchAllRates
  | go_periodicFetch.

#[export] Instance goroutine_eq_dec : EqDecision goroutine.
Proof. solve_decision. Defined.

(** The fields guarded by [rf.mu], the state of [rf.ctx], and the
    goroutines the fetcher has launched that have not returned. *)
Record Lifecycle : Type := {
  isRunning : bool;
  ctxDone : bool;
  goroutines : list goroutine;
}.

(** A goroutine that returns leaves the list. *)
Fixpoint returned (g : goroutine) (gs : list goroutine) : list goroutine :=
  match gs with
  | [] => []
  | g' :: rest => if decide (g' = g) then rest else g' :: returned g rest
  end.

(** The order in which a [range] visits the entries of the rates of a
    response, per base currency. *)
Definition RangeOrder : Type :=
  string → gmap string float64 → list (string * float64).

Definition range_valid (visit : RangeOrder) : Prop :=
  ∀ base m, visit base m ≡ₚ map_to_list m.

(** One scheduling of a refresh pass: the range orders, which goroutine's
    pending send the channel takes next ([picks]), and the time of the
    [n]-th cache write ([clock]). *)
Record Schedule : Type := {
  visit : RangeOrder;
  picks : list nat;
  clock : nat → time.Time;
}.

(** The channel: [queues] are the sends each goroutine still has to do,
    in its program order; pick [i] delivers the next send of goroutine
    [i]; a pick of a goroutine with nothing left is skipped; when the
    picks run out the rest is delivered goroutine by goroutine. *)
Fixpoint merge {A} (picks : list nat) (queues : list (list A)) : list A :=
  match picks with
  | [] => concat queues
  | i :: picks' =>
      match queues !! i with
      | Some (x :: q) => x :: merge picks' (<[i := q]> queues)
      | _ => merge picks' queues
      end
  end.

(** The orders in which a channel can deliver the sends of goroutines
    that each send their queue in program order: at every step some
    goroutine with a pending send has its next one delivered. *)
Inductive interleaving {A} : list (list A) → list A → Prop :=
  | interleaving_done queues :
      Forall (λ q, q = []) queues → interleaving queues []
  | interleaving_send queues i x q out :
      queues !! i = Some (x :: q) →
      interleaving (<[i := q]> queues) out →
      interleaving queues (x :: out).

Section Supported.

(** The [map[string]bool] that the fetcher reads as
    [models.SupportedCurrencies]; the functions below are generic in it,
    and the program's own map is [models.SupportedCurrencies]. *)
Variable SupportedCurrencies : gmap string bool.

(** [models.SupportedCurrencies[c]]: false for an absent key. *)
Definition supported (c : string) : bool :=
  default false (SupportedCurrencies !! c).

(** [NewRateFetcher], with the order [keys] in which the range over
    [models.SupportedCurrencies] visits its entries. *)
Definition NewRateFetcher_in (keys : list (string * bool))
    (client : external.ExchangeRateClient) : RateFetcher * Lifecycle :=
  ({| client := client;
      currencies := keys.*1;
      fetchInterval := 1 * time.Hour |},
   {| isRunning := false; ctxDone := false; goroutines := [] |}).

Definition NewRateFetcher (client : external.ExchangeRateClient)
  : RateFetcher * Lifecycle :=
  NewRateFetcher_in (map_to_list SupportedCurrencies) client.

Definition Start : State Lifecycle unit :=
  s <~ get ;;
  if isRunning s then ret tt
  else
    put {| isRunning := true;
           ctxDone := ctxDone s;
           goroutines :=
             goroutines s ++ [go_fetchAllRates; go_periodicFetch] |}.

Definition Stop : State Lifecycle unit :=
  s <~ get ;;
  if negb (isRunning s) then ret tt
  else
    put {| isRunning := false;
           ctxDone := true;
           goroutines := goroutines s |}.


(** The sends of the failure branch of [fetchRatesForBase]: the loop
    over [rf.currencies]. *)
Fixpoint sendErrors (baseCurrency : string) (e : error)
    (cs : list string) : list rateResult :=
  match cs with
  | [] => []
  | toCurrency :: rest =>
      if decide (toCurrency ≠ baseCurrency)
      then {| from := baseCurrency; to := toCurrency;
              rate := 0%float; err := Some e |}
           :: sendErrors baseCurrency e rest
      else sendErrors baseCurrency e rest
  end.

(** The sends of the loop over [apiResponse.Rates], visited in the
    order [visited]. *)
Fixpoint sendRates (baseCurrency : string)
    (visited : list (string * float64)) : list rateResult :=
  match visited with
  | [] => []
  | (toCurrency, r) :: rest =>
      if supported toCurrency && bool_decide (toCurrency ≠ baseCurrency)
      then {| from := baseCurrency; to := toCurrency;
              rate := r; err := None |}
           :: sendRates baseCurrency rest
      else sendRates baseCurrency rest
  end.

(** [range m] on a possibly nil map. *)
Definition ranged (order : gmap string float64 → list (string * float64))
    (m : option (gmap string float64)) : list (string * float64) :=
  match m with
  | None => []
  | Some m => order m
  end.

(** [fetchRatesForBase]: the result is what it sends on [resultChan],
    in order. *)
Definition fetchRatesForBase (rf : RateFetcher) (baseCurrency : string)
    (order : gmap string float64 → list (string * float64))
  : State external.Net (list rateResult) :=
  r <~ external.GetLatestRates (client rf) baseCurrency ;;
  match r with
  | inr e => ret (sendErrors baseCurrency e (currencies rf))
  | inl apiResponse =>
      ret (sendRates baseCurrency
             (ranged order (models.Rates apiResponse))
           ++ [{| from := baseCurrency; to := baseCurrency;
                  rate := 1.0%float; err := None |}])
  end.

(** The goroutines [fetchAllRates] launches, one per base currency;
    the result is the queue of sends of each. *)
Fixpoint launch (rf : RateFetcher) (order : RangeOrder)
    (bases : list string) : State external.Net (list (list rateResult)) :=
  match bases with
  | [] => ret []
  | baseCurrency :: rest =>
      q <~ fetchRatesForBase rf baseCurrency (order baseCurrency) ;;
      qs <~ launch rf order rest ;;
      ret (q :: qs)
  end.

(** The receiving loop of [fetchAllRates] over what the channel
    delivers; [n] counts the writes done so far and the accumulator is
    [(successCount, errorCount)]. *)
Fixpoint drain (clock : nat → time.Time) (n : nat)
    (delivered : list rateResult) (acc : int * int)
  : State cache.MemoryCache (int * int) :=
  match delivered with
  | [] => ret acc
  | result :: rest =>
      let '(successCount, errorCount) := acc in
      match err result with
      | Some _ => drain clock n rest (successCount, int_incr errorCount)
      | None =>
          cache.Set_ (from result) (to result) "" (rate result) (clock n) ;;;
          drain clock (S n) rest (int_incr successCount, errorCount)
      end
  end.

(** [fetchAllRates] under one scheduling; the result is
    [(successCount, errorCount)], which the source logs. *)
Definition fetchAllRates (rf : RateFetcher) (σ : Schedule)
  : State World (int * int) :=
  queues <~ onNet (launch rf (visit σ) (currencies rf)) ;;
  onCache (drain (clock σ) 0 (merge (picks σ) queues) (0, 0)).



Definition FetchRateOnDemand (rf : RateFetcher) (from to : string)
    (now : time.Time) : State World (float64 * option error) :=
  r <~ onNet (external.GetRateForPair (client rf) from to) ;;
  let '(rate, err) := r in
  match err with
  | Some e => ret (0%float, Some e)
  | None =>
      onCache (cache.Set_ from to "" rate now) ;;;
      ret (rate, None)
  end.

Definition FetchHistoricalRateOnDemand (rf : RateFetcher)
    (from to date : string) (now : time.Time)
  : State World (float64 * option error) :=
  r <~ onNet (external.GetHistoricalRateForPair (client rf) from to date) ;;
  let '(rate, err) := r in
  match err with
  | Some e => ret (0%float, Some e)
  | None =>
      onCache (cache.Set_ from to date rate now) ;;;
      ret (rate, None)
  end.

Definition GetCacheStats (now : time.Time) : State World cache.Stats :=
  onCache (cache.GetStats now).

(** [ExchangeService.getLatestRate]; [now] is the time of the cache
    lookup and [now'] that of the write of a fetched rate. *)
Definition getLatestRate (rf : RateFetcher) (from to : string)
    (now now' : time.Time) : State World (float64 * option error) :=
  if decide (from = to) then ret (1.0%float, None)
  else
    hit <~ onCache (cache.Get from to "" now) ;;
    let '(rate, found) := hit in
    if found then ret (rate, None)
    else
      r <~ FetchRateOnDemand rf from to now' ;;
      let '(rate, err) := r in
      match err with
      | Some e =>
          ret (0%float, Some (Errorf_w "failed to fetch rate from API: " e))
      | None => ret (rate, None)
      end.

Definition getHistoricalRate (rf : RateFetcher) (from to date : string)
    (now now' : time.Time) : State World (float64 * option error) :=
  if decide (from = to) then ret (1.0%float, None)
  else
    hit <~ onCache (cache.Get from to date now) ;;
    let '(rate, found) := hit in
    if found then ret (rate, None)
    else
      r <~ FetchHistoricalRateOnDemand rf from to date now' ;;
      let '(rate, err) := r in
      match err with
      | Some e =>
          ret (0%float,
               Some (Errorf_w "failed to fetch historical rate from API: " e))
      | None => ret (rate, None)
      end.

(** The sends of the goroutine of one base currency, in order. *)
Definition baseQueue (rf : RateFetcher) (order : RangeOrder)
    (baseCurrency : string) : list rateResult :=
  (fetchRatesForBase rf baseCurrency (order baseCurrency) []).1.

(** What the channel of a refresh pass delivers to the receiving loop
    under a scheduling, in order. *)
Definition delivered (rf : RateFetcher) (σ : Schedule) : list rateResult :=
  merge (picks σ) (launch rf (visit σ) (currencies rf) []).1.

(** An entry with rate [v] whose expiry is a write instant of the
    clock plus the TTL. *)
Definition writtenBy (clock : nat → time.Time) (ttl0 : time.Duration)
    (v : float64) (item : cache.CacheItem) : Prop :=
  cache.Rate item = v
  ∧ ∃ m : nat, cache.ExpiresAt item = time.Add (clock m) ttl0.

(** The write of the rate of a base currency against itself. *)
Definition selfRate (baseCurrency : string) : rateResult :=
  {| from := baseCurrency; to := baseCurrency;
     rate := 1.0%float; err := None |}.

(** The failure reported for one quote currency of a base. *)
Definition failure (baseCurrency : string) (e : error) (toCurrency : string)
  : rateResult :=
  {| from := baseCurrency; to := toCurrency;
     rate := 0%float; err := Some e |}.

(** The call for the latest rates of a base currency fails. *)
Definition callFailed (rf : RateFetcher) (baseCurrency : string) : bool :=
  match external.latestOutcome (client rf) baseCurrency with
  | inr _ => true
  | inl _ => false
  end.

(** No currency code of the fetcher and no supported code has an
    underscore in it. *)
Definition plainCodes (rf : RateFetcher) : Prop :=
  (∀ b, b ∈ currencies rf → underscore_free b = true)
  ∧ (∀ q, supported q = true → underscore_free q = true).

(** The key a delivered result is written under. *)
Definition keyOf (r : rateResult) : string :=
  cache.generateKey (from r) (to r) "".

(** The periodic loops that are running. *)
Definition periodicLoops (s : Lifecycle) : nat :=
  length (filter (λ g, g = go_periodicFetch) (goroutines s)).

(** A result for which the receiving loop calls [Set]. *)
Definition isWrite (r : rateResult) : bool :=
  match err r with
  | None => true
  | Some _ => false
  end.

End Supported.

End services.

(** * Sample data *)

Module sample.

(** The five supported codes, as in [models.SupportedCurrencies]. *)
Definition SupportedCurrencies : gmap string bool :=
  list_to_map [("USD", true); ("INR", true); ("EUR", true);
               ("JPY", true); ("GBP", true)].

Definition usdRates : gmap string float64 :=
  list_to_map [("USD", 1.0%float); ("INR", 83.5%float);
               ("EUR", 0.5%float); ("XAU", 0.25%float)].

Definition transportDown : error := errorString "dial tcp: connection refused".

(** A remote that answers for USD, fails at transport level for INR and
    answers 503 for every other URL. *)
Definition remote (url : string) : external.Response + error :=
  if decide (url = "https://api.exchangerate-api.com/v4/latest/USD")
  then inl {| external.StatusCode := 200;
              external.body :=
                external.BodyJSON {| models.Rates := Some usdRates |} |}
  else if decide (url = "https://api.exchangerate-api.com/v4/latest/INR")
  then inr transportDown
  else inl {| external.StatusCode := 503;
              external.body := external.BodyInvalid (errorString "EOF") |}.

Definition apiClient : external.ExchangeRateClient :=
  external.NewExchangeRateClient remote.

Definition rateFetcher (cs : list string) : services.RateFetcher :=
  {| services.client := apiClient;
     services.currencies := cs;
     services.fetchInterval := 1 * time.Hour |}.

Definition emptyWorld (ttl : time.Duration) : services.World :=
  {| services.wcache := cache.NewMemoryCache ttl; services.wnet := [] |}.

(** A cache with a TTL of 100ms holding one rate written at instant 0. *)
Definition shortLived : cache.MemoryCache :=
  (cache.Set_ "USD" "INR" "" 83.5%float 0
     (cache.NewMemoryCache (100 * time.Millisecond))).2.

Definition shortLivedItem : cache.CacheItem :=
  {| cache.Rate := 83.5%float;
     cache.ExpiresAt := 100 * time.Millisecond |}.

(** The fetcher [NewRateFetcher] builds over the five codes. *)
Definition fetcher : services.RateFetcher :=
  (services.NewRateFetcher SupportedCurrencies apiClient).1.

(** Range in the map's canonical order, the sends of the goroutines
    interleaved by the picks, the [n]-th write at instant [n]. *)
Definition schedule : services.Schedule :=
  {| services.visit := λ _ m, map_to_list m;
     services.picks := [1; 3; 0; 1; 7; 4; 1; 2]%nat;
     services.clock := λ n, Z.of_nat n |}.

(** The error [GetLatestRates] makes of the transport error. *)
Definition fetchDown : error :=
  Errorf_w "failed to fetch latest rates: " transportDown.

End sample.

(** * More of package time: the UTC calendar and the layout 2006-01-02

    The functions of Go's package [time] that package [utils] calls, for
    times in UTC (the zone the service runs in and [time.Parse] returns):
    an instant is its number of nanoseconds since 1970-01-01T00:00:00Z.
    Days are counted from 0001-01-01; the 400-, 100- and 4-year cycles are
    cut off as the library does. *)

Module calendar.

Definition Day : time.Duration := 24 * time.Hour.

(** The days from 0001-01-01 to 1970-01-01. *)
Definition unixEpochDays : Z := 719162.

(** The zero [time.Time]: 0001-01-01T00:00:00Z. *)
Definition zeroTime : time.Time := - unixEpochDays * Day.

Definition isLeap (year : Z) : bool :=
  (Z.rem year 4 =? 0)
  && (negb (Z.rem year 100 =? 0) || (Z.rem year 400 =? 0)).

(** The table [daysBefore]: the days of a non-leap year before the end of
    month [m], for [m] from 0 to 12. *)
Definition daysBefore (m : Z) : Z :=
  match m with
  | 1 => 31
  | 2 => 59
  | 3 => 90
  | 4 => 120
  | 5 => 151
  | 6 => 181
  | 7 => 212
  | 8 => 243
  | 9 => 273
  | 10 => 304
  | 11 => 334
  | 12 => 365
  | _ => 0
  end.

Definition daysIn (month year : Z) : Z :=
  if (month =? 2) && isLeap year then 29
  else daysBefore month - daysBefore (month - 1).

(** [daysSinceEpoch], counted from year 1: the days before January 1 of
    [year]. *)
Definition daysSinceEpoch (year : Z) : Z :=
  let y := year - 1 in
  let n := y / 400 in
  let y := y - 400 * n in
  let d := 146097 * n in
  let n := y / 100 in
  let y := y - 100 * n in
  let d := d + 36524 * n in
  let n := y / 4 in
  let y := y - 4 * n in
  let d := d + 1461 * n in
  d + 365 * y.

(** [time.Date(year, month, day, 0, 0, 0, 0, time.UTC)] plus [clock], the
    time elapsed within the day; a day beyond the month's end runs on into
    the next months. *)
Definition Date (year month day : Z) (clock : time.Duration) : time.Time :=
  let d := daysSinceEpoch year + daysBefore (month - 1) in
  let d := if isLeap year && (3 <=? month) then d + 1 else d in
  let d := d + (day - 1) in
  (d - unixEpochDays) * Day + clock.

(** The month and the day of the month of day [yday] of a year, counted
    from 0. *)
Definition monthDay (leap : bool) (yday : Z) : Z * Z :=
  if leap && (yday =? 31 + 29 - 1) then (2, 29)
  else
    let day := if leap && (31 + 29 - 1 <? yday) then yday - 1 else yday in
    let month := day / 31 in
    let end_ := daysBefore (month + 1) in
    if end_ <=? day then (month + 2, day - end_ + 1)
    else (month + 1, day - daysBefore month + 1).

(** The first half of [absDate]: the year of the day numbered [d] from
    0001-01-01, and the day within that year, counted from 0. *)
Definition yearDay (d : Z) : Z * Z :=
  let n := d / 146097 in
  let y := 400 * n in
  let d := d - 146097 * n in
  let n := d / 36524 in
  let n := n - n / 4 in
  let y := y + 100 * n in
  let d := d - 36524 * n in
  let n := d / 1461 in
  let y := y + 4 * n in
  let d := d - 1461 * n in
  let n := d / 365 in
  let n := n - n / 4 in
  let y := y + n in
  let d := d - 365 * n in
  (y + 1, d).

(** [absDate]: year, month and day of the day numbered [d] from
    0001-01-01. *)
Definition absDate (d : Z) : Z * Z * Z :=
  let '(year, yday) := yearDay d in
  let '(month, day) := monthDay (isLeap year) yday in
  (year, month, day).

(** [t.Date()]: the calendar date of an instant. *)
Definition civil (t : time.Time) : Z * Z * Z :=
  absDate (t / Day + unixEpochDays).

(** [t.AddDate(0, 0, days)]. *)
Definition AddDate_days (t : time.Time) (days : Z) : time.Time :=
  let '(year, month, day) := civil t in
  Date year month (day + days) (t mod Day).

(** [t.Before(u)]. *)
Definition Before (t u : time.Time) : bool := t <? u.

(** [t.Sub(u)], which saturates at the ends of [int64]. *)
Definition Sub (t u : time.Time) : time.Duration :=
  let d := t - u in
  if 2 ^ 63 - 1 <? d then 2 ^ 63 - 1
  else if d <? - 2 ^ 63 then - 2 ^ 63
  else d.

Fixpoint zeros (n : nat) : string :=
  match n with
  | O => ""
  | S n => String "0" (zeros n)
  end.

(** [appendInt]: the decimal digits of [x], with a sign when negative,
    zero-padded to [width] digits. *)
Definition appendInt (x : Z) (width : nat) : string :=
  let digits := Sprint_d (Z.abs x) in
  let padded := zeros (width - String.length digits) +:+ digits in
  if x <? 0 then "-" +:+ padded else padded.

(** [t.Format("2006-01-02")]. *)
Definition Format (t : time.Time) : string :=
  let '(year, month, day) := civil t in
  appendInt year 4 +:+ "-" +:+ appendInt month 2 +:+ "-" +:+ appendInt day 2.

Definition digit (a : ascii) : option Z :=
  let n := Z.of_nat (nat_of_ascii a) in
  if (48 <=? n) && (n <=? 57) then Some (n - 48) else None.

(** [time.Parse("2006-01-02", value)]: four digits, two digits and two
    digits separated by hyphens and nothing else, a month from 1 to 12 and
    a day of that month; the result is midnight UTC of the date.  The
    error is [None]: no caller looks at it. *)
Definition Parse (value : string) : option time.Time :=
  match value with
  | String y1 (String y2 (String y3 (String y4 (String "-"
      (String m1 (String m2 (String "-"
        (String d1 (String d2 EmptyString))))))))) =>
      match digit y1, digit y2, digit y3, digit y4,
            digit m1, digit m2, digit d1, digit d2 with
      | Some y1, Some y2, Some y3, Some y4,
        Some m1, Some m2, Some d1, Some d2 =>
          let year := 1000 * y1 + 100 * y2 + 10 * y3 + y4 in
          let month := 10 * m1 + m2 in
          let day := 10 * d1 + d2 in
          if (month <=? 0) || (12 <? month) then None
          else if (day <? 1) || (daysIn month year <? day) then None
          else Some (Date year month day 0)
      | _, _, _, _, _, _, _, _ => None
      end
  | _ => None
  end.

End calendar.

(** * Package utils *)

Module utils.

(** The layout of [calendar.Parse] and [calendar.Format]. *)
Definition DateFormat : string := "2006-01-02".

Definition MaxLookbackDays : int := 90.

Definition ValidateCurrency (currency : string) : option error :=
  if negb (services.supported models.SupportedCurrencies currency)
  then Some (errorString
         ("unsupported currency: " +:+ currency
          +:+ ". Supported currencies: USD, INR, EUR, JPY, GBP"))
  else None.

Definition ValidateCurrencyPair (from to : string) : option error :=
  match ValidateCurrency from with
  | Some err => Some (Errorf_w "invalid 'from' currency: " err)
  | None =>
      match ValidateCurrency to with
      | Some err => Some (Errorf_w "invalid 'to' currency: " err)
      | None => None
      end
  end.

(** [ValidateDate]; [now] is the one reading of the clock it does. *)
Definition ValidateDate (dateStr : string) (now : time.Time)
  : time.Time * option error :=
  if decide (dateStr = "") then (now, None)
  else
    match calendar.Parse dateStr with
    | None =>
        (calendar.zeroTime,
         Some (errorString
           ("invalid date format. Expected YYYY-MM-DD, got: " +:+ dateStr)))
    | Some parsedDate =>
        if time.After parsedDate now
        then (calendar.zeroTime,
              Some (errorString
                ("date cannot be in the future: " +:+ dateStr)))
        else
          let maxLookbackDate :=
            calendar.AddDate_days now (- MaxLookbackDays) in
          if calendar.Before parsedDate maxLookbackDate
          then (calendar.zeroTime,
                Some (errorString
                  ("date is beyond the maximum lookback period of "
                   +:+ Sprint_d MaxLookbackDays
                   +:+ " days. Earliest allowed date: "
                   +:+ calendar.Format maxLookbackDate)))
          else (parsedDate, None)
    end.

(** [ValidateDateRange]; [now] and [now'] are the readings of the clock
    for the start and for the end date. *)
Definition ValidateDateRange (startDateStr endDateStr : string)
    (now now' : time.Time) : time.Time * time.Time * option error :=
  let '(startDate, err) := ValidateDate startDateStr now in
  match err with
  | Some err =>
      (calendar.zeroTime, calendar.zeroTime,
       Some (Errorf_w "invalid start date: " err))
  | None =>
      let '(endDate, err) := ValidateDate endDateStr now' in
      match err with
      | Some err =>
          (calendar.zeroTime, calendar.zeroTime,
           Some (Errorf_w "invalid end date: " err))
      | None =>
          if time.After startDate endDate
          then (calendar.zeroTime, calendar.zeroTime,
                Some (errorString
                  ("start date (" +:+ startDateStr
                   +:+ ") cannot be after end date ("
                   +:+ endDateStr +:+ ")")))
          else if MaxLookbackDays * 24 * time.Hour
                  <? calendar.Sub endDate startDate
          then (calendar.zeroTime, calendar.zeroTime,
                Some (errorString
                  ("date range cannot exceed " +:+ Sprint_d MaxLookbackDays
                   +:+ " days")))
          else (startDate, endDate, None)
      end
  end.

Definition FormatDate (t : time.Time) : string := calendar.Format t.

Definition IsValidDateString (dateStr : string) : bool :=
  if decide (dateStr = "") then true
  else
    match calendar.Parse dateStr with
    | Some _ => true
    | None => false
    end.

(** The loop of [GetDateRangeList], run for at most [fuel] rounds. *)
Fixpoint rangeLoop (fuel : nat) (current endDate : time.Time)
  : list string :=
  match fuel with
  | O => []
  | S fuel =>
      if negb (time.After current endDate)
      then FormatDate current
           :: rangeLoop fuel (calendar.AddDate_days current 1) endDate
      else []
  end.

(** [GetDateRangeList]: the loop with as many rounds as there are days
    from the start to the end, which is when its condition fails. *)
Definition GetDateRangeList (startDate endDate : time.Time) : list string :=
  rangeLoop (Z.to_nat ((endDate - startDate) / calendar.Day + 1))
    startDate endDate.

Section verb_f.

(** The [%f] verb of [fmt] on a [float64]. *)
Variable Sprint_f : float64 → string.

Definition ValidateAmount (amount : float64) : option error :=
  if PrimFloat.leb amount 0%float
  then Some (errorString
         ("amount must be greater than 0, got: " +:+ Sprint_f amount))
  else if PrimFloat.ltb 1e15%float amount
  then Some (errorString ("amount too large: " +:+ Sprint_f amount))
  else None.

(** [ValidateConversionRequest]; [now] is the reading of the clock of the
    date's validation. *)
Definition ValidateConversionRequest (req : models.ConversionRequest)
    (now : time.Time) : option error :=
  match ValidateCurrencyPair (models.From req) (models.To req) with
  | Some err => Some err
  | None =>
      match ValidateAmount (models.Amount req) with
      | Some err => Some err
      | None =>
          if decide (models.Date req ≠ "")
          then (ValidateDate (models.Date req) now).2
          else None
      end
  end.

End verb_f.

Definition ValidateHistoricalRequest (req : models.HistoricalRateRequest)
    (now now' : time.Time) : option error :=
  match ValidateCurrencyPair (models.hist_From req) (models.hist_To req) with
  | Some err => Some err
  | None =>
      (ValidateDateRange (models.StartDate req) (models.EndDate req)
         now now').2
  end.

End utils.

(** * Package services: ExchangeService *)

Module exchange.

(** [ExchangeService]; its [cache] is [wcache] of the world, the one the
    fetcher writes to. *)
Record ExchangeService : Type := {
  rateFetcher : services.RateFetcher;
  client : external.ExchangeRateClient;
}.

Definition NewExchangeService (rateFetcher : services.RateFetcher)
    (client : external.ExchangeRateClient) : ExchangeService :=
  {| rateFetcher := rateFetcher; client := client |}.

(** [GetLatestRate]; [now] is the time of the cache lookup and [now'] that
    of the write of a fetched rate. *)
Definition GetLatestRate (s : ExchangeService) (from to : string)
    (now now' : time.Time) : State services.World (float64 * option error) :=
  match utils.ValidateCurrencyPair from to with
  | Some err => ret (0%float, Some err)
  | None => services.getLatestRate (rateFetcher s) from to now now'
  end.

(** The readings of the clock of one [ConvertCurrency]: by the
    validation of the request, by the second validation of the date or for
    the date of a conversion at the latest rate, by the cache lookup and by
    the write of a fetched rate. *)
Record ConvertClock : Type := {
  atValidate : time.Time;
  atDate : time.Time;
  atLookup : time.Time;
  atWrite : time.Time;
}.

Section verb_f.

Variable Sprint_f : float64 → string.

Definition ConvertCurrency (s : ExchangeService)
    (req : models.ConversionRequest) (t : ConvertClock)
  : State services.World (models.ConversionResponse + error) :=
  match utils.ValidateConversionRequest Sprint_f req (atValidate t) with
  | Some err => ret (inr err)
  | None =>
      let '(conversionDate, err) :=
        if decide (models.Date req ≠ "")
        then utils.ValidateDate (models.Date req) (atDate t)
        else (atDate t, None) in
      match err with
      | Some err => ret (inr err)
      | None =>
          r <~ (if decide (models.Date req ≠ "")
                then services.getHistoricalRate (rateFetcher s)
                       (models.From req) (models.To req) (models.Date req)
                       (atLookup t) (atWrite t)
                else services.getLatestRate (rateFetcher s)
                       (models.From req) (models.To req)
                       (atLookup t) (atWrite t)) ;;
          let '(rate, err) := r in
          match err with
          | Some err =>
              ret (inr (Errorf_w "failed to get exchange rate: " err))
          | None =>
              let convertedAmount := PrimFloat.mul (models.Amount req) rate in
              ret (inl {| models.resp_From := models.From req;
                          models.resp_To := models.To req;
                          models.resp_Amount := models.Amount req;
                          models.resp_ConvertedAmount := convertedAmount;
                          models.resp_Rate := rate;
                          models.resp_Date := conversionDate |})
          end
      end
  end.

End verb_f.

(** The loop of [GetHistoricalRates] over the dates; the lookup of the
    [n]-th date reads the clock at [clock (2 * n)] and a write for it at
    [clock (2 * n + 1)]. *)
Fixpoint historicalLoop (s : ExchangeService) (from to : string)
    (dates : list string) (clock : nat → time.Time) (n : nat)
    (rates : gmap string models.HistoricalRate)
  : State services.World (gmap string models.HistoricalRate) :=
  match dates with
  | [] => ret rates
  | dateStr :: rest =>
      r <~ services.getHistoricalRate (rateFetcher s) from to dateStr
             (clock (2 * n)%nat) (clock (2 * n + 1)%nat) ;;
      let '(rate, err) := r in
      match err with
      | Some _ => historicalLoop s from to rest clock (S n) rates
      | None =>
          let parsedDate :=
            default calendar.zeroTime (calendar.Parse dateStr) in
          historicalLoop s from to rest clock (S n)
            (<[dateStr := {| models.rate_Rate := rate;
                             models.rate_Date := parsedDate |}]> rates)
      end
  end.

(** The readings of the clock of one [GetHistoricalRates]: two by each of
    the two validations of the date range, then those of the loop. *)
Record HistoricalClock : Type := {
  atValidateStart : time.Time;
  atValidateEnd : time.Time;
  atRangeStart : time.Time;
  atRangeEnd : time.Time;
  atDates : nat → time.Time;
}.

Definition GetHistoricalRates (s : ExchangeService)
    (req : models.HistoricalRateRequest) (t : HistoricalClock)
  : State services.World (models.HistoricalRateResponse + error) :=
  match utils.ValidateHistoricalRequest req
          (atValidateStart t) (atValidateEnd t) with
  | Some err => ret (inr err)
  | None =>
      let '(startDate, endDate, err) :=
        utils.ValidateDateRange (models.StartDate req) (models.EndDate req)
          (atRangeStart t) (atRangeEnd t) in
      match err with
      | Some err => ret (inr err)
      | None =>
          let dates := utils.GetDateRangeList startDate endDate in
          rates <~ historicalLoop s (models.hist_From req)
                     (models.hist_To req) dates (atDates t) 0 ∅ ;;
          ret (inl {| models.hresp_From := models.hist_From req;
                      models.hresp_To := models.hist_To req;
                      models.hresp_Rates := rates |})
      end
  end.

(** [GetSupportedCurrencies], with the order [keys] in which the range
    over [models.SupportedCurrencies] visits its entries. *)
Definition GetSupportedCurrencies_in (keys : list (string * bool))
  : list string := keys.*1.

Definition GetSupportedCurrencies : list string :=
  GetSupportedCurrencies_in (map_to_list models.SupportedCurrencies).

Definition GetCacheStats (s : ExchangeService) (now : time.Time)
  : State services.World cache.Stats :=
  services.GetCacheStats now.

End exchange.

(** * The program: what [main] wires together, and the calls into it *)

Module program.

Section verb_f.

Variable Sprint_f : float64 → string.

(** The order in which [NewRateFetcher] ranges over the supported
    currencies. *)
Variable keys : list (string * bool).

(** The service [main] builds, talking to [remote]. *)
Definition service (remote : string → external.Response + error)
  : exchange.ExchangeService :=
  let apiClient := external.NewExchangeRateClient remote in
  exchange.NewExchangeService
    (services.NewRateFetcher_in keys apiClient).1 apiClient.

(** The cache [main] builds (TTL one hour) and a network on which nothing
    was sent yet. *)
Definition initial : services.World :=
  {| services.wcache := cache.NewMemoryCache (1 * time.Hour);
     services.wnet := [] |}.

(** What works on the shared world while the program runs: a refresh pass
    (at start, or on a tick of the periodic loop), a call of one of the
    three service methods that the handlers call with a request, and a
    firing of the cache's sweep.  Each comes with the remote as it answers
    during the call and with its readings of the clock. *)
Inductive call : Type :=
  | Refresh (remote : string → external.Response + error)
      (σ : services.Schedule)
  | LatestRate (remote : string → external.Response + error)
      (from to : string) (now now' : time.Time)
  | Convert (remote : string → external.Response + error)
      (req : models.ConversionRequest) (t : exchange.ConvertClock)
  | Historical (remote : string → external.Response + error)
      (req : models.HistoricalRateRequest) (t : exchange.HistoricalClock)
  | Sweep (now : time.Time).

Definition run (c : call) (w : services.World) : services.World :=
  match c with
  | Refresh remote σ =>
      (services.fetchAllRates models.SupportedCurrencies
         (exchange.rateFetcher (service remote)) σ w).2
  | LatestRate remote from to now now' =>
      (exchange.GetLatestRate (service remote) from to now now' w).2
  | Convert remote req t =>
      (exchange.ConvertCurrency Sprint_f (service remote) req t w).2
  | Historical remote req t =>
      (exchange.GetHistoricalRates (service remote) req t w).2
  | Sweep now =>
      (services.onCache (cache.cleanupTick now) w).2
  end.

(** The worlds the program can be in: [initial] after some calls. *)
Definition reachable (w : services.World) : Prop :=
  ∃ calls : list call, w = foldl (λ w c, run c w) initial calls.

End verb_f.

(** What happens to the lifecycle of a fetcher: the two methods, and a
    periodic loop that finds the context cancelled and returns. *)
Inductive event : Type :=
  | DoStart
  | DoStop
  | LoopReturns.

Definition after (e : event) (s : services.Lifecycle) : services.Lifecycle :=
  match e with
  | DoStart => (services.Start s).2
  | DoStop => (services.Stop s).2
  | LoopReturns =>
      if services.ctxDone s
      then {| services.isRunning := services.isRunning s;
              services.ctxDone := services.ctxDone s;
              services.goroutines :=
                services.returned services.go_periodicFetch
                  (services.goroutines s) |}
      else s
  end.

(** A new fetcher's lifecycle. *)
Definition fresh : services.Lifecycle :=
  {| services.isRunning := false; services.ctxDone := false;
     services.goroutines := [] |}.

End program.

(** A cache all of whose entries are under keys of latest rates of pairs
    of supported currencies. *)
Definition latestOnly (c : cache.MemoryCache) : Prop :=
  ∀ k, is_Some (cache.data c !! k) →
       ∃ from to,
         services.supported models.SupportedCurrencies from = true
         ∧ services.supported models.SupportedCurrencies to = true
         ∧ k = cache.generateKey from to "".

(** * Notions used in the statements about dates and about the program *)

(** The five supported codes. *)
Definition codes : list string := ["USD"; "INR"; "EUR"; "JPY"; "GBP"].

(** An instant of a year from 0 to 9999, the years [time.Parse] reads and
    [Format] writes with four digits. *)
Definition fourDigitYears (t : time.Time) : Prop :=
  calendar.Date 0 1 1 0 ≤ t < calendar.Date 10000 1 1 0.

(** The string [GetDateRangeList] makes of the instant [i] days of 24
    hours after [startDate]. *)
Definition dayOf (startDate : time.Time) (i : Z) : string :=
  utils.FormatDate (startDate + i * calendar.Day).


(** The lifecycle of a new fetcher after a run of events. *)
Definition lifecycle_after (events : list program.event)
  : services.Lifecycle :=
  foldl (λ s e, program.after e s) program.fresh events.

(** ** Checks over the finite tables of the calendar

    Each is a boolean that is evaluated over a whole finite range in the
    proofs of the calendar. *)

(** The month and day that [monthDay] gives for day [yday] of a year are
    a day of the calendar, and [yday] is its number within the year. *)
Definition monthDay_ok (leap : bool) (yday : Z) : bool :=
  let '(m, d) := calendar.monthDay leap yday in
  (1 <=? m) && (m <=? 12) && (1 <=? d)
  && (d <=? (if (m =? 2) && leap then 29
             else calendar.daysBefore m - calendar.daysBefore (m - 1)))
  && (calendar.daysBefore (m - 1)
      + (if leap && (3 <=? m) then 1 else 0) + (d - 1) =? yday).

(** Every day of [month] has a number within the year for which
    [monthDay] gives back the month and the day. *)
Definition monthDay_back (leap : bool) (month : Z) : bool :=
  forallb
    (λ day,
       let yday :=
         calendar.daysBefore (month - 1)
         + (if leap && (3 <=? month) then 1 else 0) + (day - 1) in
       bool_decide (calendar.monthDay leap yday = (month, day))
       && (0 <=? yday) && (yday <? 365 + (if leap then 1 else 0)))
    (seqZ 1 (if (month =? 2) && leap then 29
             else calendar.daysBefore month - calendar.daysBefore (month - 1))).

(** The character of a decimal digit. *)
Definition char (n : Z) : ascii := ascii_of_nat (Z.to_nat (48 + n)).

(** [appendInt] at width 4 writes the four decimal digits of [y]. *)
Definition appendInt4_ok (y : Z) : bool :=
  String.eqb (calendar.appendInt y 4)
    (String (char (y / 1000)) (String (char (y / 100 mod 10))
       (String (char (y / 10 mod 10)) (String (char (y mod 10)) "")))).

(** [appendInt] at width 2 writes the two decimal digits of [x]. *)
Definition appendInt2_ok (x : Z) : bool :=
  String.eqb (calendar.appendInt x 2)
    (String (char (x / 10)) (String (char (x mod 10)) "")).

(** * A scenario for the examples

    The program as [main] builds it, talking to the sample remote. *)

Module scenario.

(** The range over the supported currencies in the map's canonical
    order. *)
Definition keys : list (string * bool) :=
  map_to_list models.SupportedCurrencies.

(** A rendering of amounts for error messages. *)
Definition Sprint_f (amount : float64) : string := "<amount>".

Definition service : exchange.ExchangeService :=
  program.service keys sample.remote.

(** A service whose remote is down for every URL. *)
Definition offline : exchange.ExchangeService :=
  program.service keys (λ _, inr sample.transportDown).

(** 2023-02-01, 77ns after midnight. *)
Definition now : time.Time := calendar.Date 2023 2 1 77.

(** The world after one request for the latest rate of USD against INR
    at [now]. *)
Definition warm : services.World :=
  program.run Sprint_f keys
    (program.LatestRate sample.remote "USD" "INR" now now) program.initial.

Definition convertClock : exchange.ConvertClock :=
  {| exchange.atValidate := now; exchange.atDate := now;
     exchange.atLookup := now; exchange.atWrite := now |}.


Definition latest : models.ConversionRequest :=
  {| models.From := "USD"; models.To := "INR";
     models.Amount := 100%float; models.Date := "" |}.



(** A cache with a TTL of 100ms holding a rate written at instant 0 and
    one written 120ms later. *)
Definition mixed : cache.MemoryCache :=
  (cache.Set_ "USD" "EUR" "" 0.5%float (120 * time.Millisecond)
     sample.shortLived).2.

(** A world whose cache holds a rate for a date. *)
Definition archive : services.World :=
  {| services.wcache :=
       (cache.Set_ "USD" "INR" "2023-01-01" 82.0%float 0
          (cache.NewMemoryCache time.Hour)).2;
     services.wnet := [] |}.

End scenario.

(** * Properties of the cache *)

Section wrap64_facts.

Lemma wrap64_add_l (a b : Z) : wrap64 (wrap64 a + b) = wrap64 (a + b).
Proof.
  unfold wrap64.
  replace ((a + 2 ^ 63) mod 2 ^ 64 - 2 ^ 63 + b + 2 ^ 63)
    with ((a + 2 ^ 63) mod 2 ^ 64 + b) by lia.
  rewrite Zplus_mod_idemp_l. do 2 f_equal. lia.
Qed.

Lemma wrap64_add_r (a b : Z) : wrap64 (a + wrap64 b) = wrap64 (a + b).
Proof. rewrite (Z.add_comm a), wrap64_add_l. f_equal. lia. Qed.

Lemma wrap64_small (z : Z) : - 2 ^ 63 ≤ z < 2 ^ 63 → wrap64 z = z.
Proof. intros H. unfold wrap64. rewrite Z.mod_small; lia. Qed.

Lemma int_incr_wrap (a : Z) : int_incr (wrap64 a) = wrap64 (a + 1).
Proof. apply wrap64_add_l. Qed.

Lemma len_insert_fresh {V} (m : gmap string V) (k : string) (v : V) :
  m !! k = None → len (<[k := v]> m) = int_incr (len m).
Proof.
  intros H. unfold len. rewrite map_size_insert_None by done.
  rewrite int_incr_wrap. f_equal. lia.
Qed.

Lemma len_stored {V} (m : gmap string V) (k : string) (v : V) :
  m !! k = Some v → len m = int_incr (len (delete k m)).
Proof.
  intros H. rewrite <- (insert_delete_id m k v) at 1 by done.
  apply len_insert_fresh, lookup_delete_eq.
Qed.

End wrap64_facts.

Section key_facts.

Lemma underscore_split (a a' r r' : string) :
  underscore_free a = true → underscore_free a' = true →
  a +:+ String "_" r = a' +:+ String "_" r' → a = a' ∧ r = r'.
Proof.
  revert a'. induction a as [|x a IH]; intros [|x' a'] Ha Ha' E;
    simpl in *.
  - by inversion E.
  - inversion E; subst. by rewrite Ascii.eqb_refl in Ha'.
  - inversion E; subst. by rewrite Ascii.eqb_refl in Ha.
  - apply andb_prop in Ha as [_ Ha]. apply andb_prop in Ha' as [_ Ha'].
    inversion E; subst. destruct (IH a' Ha Ha') as [-> ->]; done.
Qed.

Lemma generateKey_tag (from to date : string) :
  cache.generateKey from to date
  = from +:+ String "_" (to +:+ String "_" (dateTag date)).
Proof. unfold cache.generateKey, dateTag. by case_decide. Qed.

Lemma generateKey_pair_inj (from to date from' to' date' : string) :
  underscore_free from = true → underscore_free to = true →
  underscore_free from' = true → underscore_free to' = true →
  cache.generateKey from to date = cache.generateKey from' to' date' →
  from = from' ∧ to = to' ∧ dateTag date = dateTag date'.
Proof.
  intros Hf Ht Hf' Ht'. rewrite !generateKey_tag. intros E.
  apply underscore_split in E as [-> E]; [|done..].
  apply underscore_split in E as [-> E]; done.
Qed.

Lemma generateKey_base_inj (from to date from' to' date' : string) :
  underscore_free from = true → underscore_free from' = true →
  cache.generateKey from to date = cache.generateKey from' to' date' →
  from = from'.
Proof.
  intros Hf Hf'. rewrite !generateKey_tag. intros E.
  by apply underscore_split in E as [-> _].
Qed.

Lemma dateTag_inj (date date' : string) :
  date ≠ "latest" → date' ≠ "latest" →
  dateTag date = dateTag date' → date = date'.
Proof. unfold dateTag. intros. repeat case_decide; congruence. Qed.

End key_facts.

Section cache_facts.

Implicit Types (c : cache.MemoryCache) (item : cache.CacheItem).

Lemma countItems_spec (now : time.Time)
    (items : list (string * cache.CacheItem)) (a b : Z) :
  cache.countItems now items (wrap64 a, wrap64 b)
  = (wrap64 (a + Z.of_nat (length
       (filter (λ kv, time.After now (cache.ExpiresAt kv.2) = false) items))),
     wrap64 (b + Z.of_nat (length
       (filter (λ kv, time.After now (cache.ExpiresAt kv.2) = true) items)))).
Proof.
  revert a b. induction items as [|[k item] rest IH]; intros a b; simpl.
  - by rewrite !Z.add_0_r.
  - rewrite !filter_cons; simpl.
    destruct (time.After now (cache.ExpiresAt item)) eqn:E.
    + rewrite int_incr_wrap, IH.
      rewrite decide_False by done. rewrite decide_True by done.
      simpl length. do 2 f_equal. lia.
    + rewrite int_incr_wrap, IH.
      rewrite decide_True by done. rewrite decide_False by done.
      simpl length. do 2 f_equal. lia.
Qed.

Lemma filter_split_length {A} (f : A → bool) (l : list A) :
  (length (filter (λ x, f x = false) l)
   + length (filter (λ x, f x = true) l))%nat = length l.
Proof.
  induction l as [|x l IH]; [done|]. rewrite !filter_cons.
  destruct (f x) eqn:E.
  - rewrite decide_False by done. rewrite decide_True by done.
    simpl. lia.
  - rewrite decide_True by done. rewrite decide_False by done.
    simpl. lia.
Qed.

Lemma sweepItems_absent (now : time.Time)
    (items : list (string * cache.CacheItem))
    (d : gmap string cache.CacheItem) (k : string) :
  d !! k = None → cache.sweepItems now items d !! k = None.
Proof.
  revert d. induction items as [|[k' item] rest IH]; intros d H; simpl.
  - done.
  - destruct (time.After now (cache.ExpiresAt item)); apply IH; [|done].
    rewrite lookup_delete. case_decide; done.
Qed.

Lemma sweepItems_expired (now : time.Time)
    (items : list (string * cache.CacheItem))
    (d : gmap string cache.CacheItem) (k : string) item :
  (k, item) ∈ items → time.After now (cache.ExpiresAt item) = true →
  cache.sweepItems now items d !! k = None.
Proof.
  revert d. induction items as [|[k' item'] rest IH]; intros d Hin Hexp.
  - by apply elem_of_nil in Hin.
  - apply elem_of_cons in Hin as [[= <- <-]|Hin]; simpl.
    + rewrite Hexp. apply sweepItems_absent, lookup_delete_eq.
    + destruct (time.After now (cache.ExpiresAt item')); by apply IH.
Qed.

Lemma sweepItems_kept (now : time.Time)
    (items : list (string * cache.CacheItem))
    (d : gmap string cache.CacheItem) (k : string) :
  (∀ item, (k, item) ∈ items →
           time.After now (cache.ExpiresAt item) = false) →
  cache.sweepItems now items d !! k = d !! k.
Proof.
  revert d. induction items as [|[k' item'] rest IH]; intros d H; simpl.
  - done.
  - destruct (time.After now (cache.ExpiresAt item')) eqn:E.
    + rewrite IH by (intros; apply H; by right).
      apply lookup_delete_ne. intros ->.
      specialize (H item' ltac:(by left)). congruence.
    + apply IH. intros; apply H; by right.
Qed.

End cache_facts.

Section cache_claims.

Implicit Types (c : cache.MemoryCache) (item : cache.CacheItem).

Lemma Set_lookup_same (from to date : string) (rate : float64)
    (now : time.Time) c :
  cache.data (cache.Set_ from to date rate now c).2
    !! cache.generateKey from to date
  = Some {| cache.Rate := rate;
            cache.ExpiresAt := time.Add now (cache.ttl c) |}.
Proof. simpl. apply lookup_insert_eq. Qed.

Lemma Set_lookup_other (from to date : string) (rate : float64)
    (now : time.Time) c (k : string) :
  k ≠ cache.generateKey from to date →
  cache.data (cache.Set_ from to date rate now c).2 !! k = cache.data c !! k.
Proof. intros H. simpl. by apply lookup_insert_ne. Qed.

Lemma Set_ttl (from to date : string) (rate : float64) (now : time.Time) c :
  cache.ttl (cache.Set_ from to date rate now c).2 = cache.ttl c.
Proof. done. Qed.

Lemma Get_stored_none (from to date : string) (now : time.Time) c :
  cache.data c !! cache.generateKey from to date = None →
  (cache.Get from to date now c).1 = (0%float, false).
Proof. intros H. unfold cache.Get, bind, get, ret. by rewrite H. Qed.

Lemma Get_stored (from to date : string) (now : time.Time) c item :
  cache.data c !! cache.generateKey from to date = Some item →
  now ≤ cache.ExpiresAt item →
  cache.Get from to date now c = ((cache.Rate item, true), c).
Proof.
  intros H Hnow. unfold cache.Get, bind, get, ret. rewrite H.
  unfold time.After. by rewrite (proj2 (Z.ltb_ge _ _) Hnow).
Qed.

(** C5. [Set] followed by a [Get] of the same triple, at any instant not
    after the expiry the [Set] fixed (the write's instant plus the TTL),
    returns exactly the stored rate with [found = true]. *)
Theorem Set_then_Get (from to date : string) (rate : float64)
    (now now' : time.Time) c :
  now' ≤ time.Add now (cache.ttl c) →
  let c' := (cache.Set_ from to date rate now c).2 in
  cache.Get from to date now' c' = ((rate, true), c').
Proof.
  intros Hnow c'.
  by rewrite (Get_stored from to date now' c' _
                (Set_lookup_same from to date rate now c) Hnow).
Qed.

Lemma Get_after_Set_fst (from to date : string) (rate : float64)
    (now now' : time.Time) c :
  now' ≤ time.Add now (cache.ttl c) →
  (cache.Get from to date now' (cache.Set_ from to date rate now c).2).1
  = (rate, true).
Proof.
  intros Hnow.
  by rewrite (Get_stored from to date now' _ _
                (Set_lookup_same from to date rate now c) Hnow).
Qed.

Lemma Set_then_Get_witness :
  100 ≤ time.Add 0 (cache.ttl (cache.NewMemoryCache time.Hour))
  ∧ cache.Get "USD" "INR" "" 100
      (cache.Set_ "USD" "INR" "" 83.5%float 0
         (cache.NewMemoryCache time.Hour)).2
    = ((83.5%float, true),
       (cache.Set_ "USD" "INR" "" 83.5%float 0
          (cache.NewMemoryCache time.Hour)).2).
Proof.
  split; [by vm_compute|].
  apply (Set_then_Get "USD" "INR" "" 83.5%float 0 100
           (cache.NewMemoryCache time.Hour)).
  by vm_compute.
Defined.

(** C6. When the stored entry of a triple has expired, [Get] returns
    [(0, false)] and leaves the cache as it was; the entry is still
    stored, so [Size] is one more than the number of the other entries;
    and a sweep at that instant or later, in whatever order it visits the
    entries, removes it. *)
Theorem Get_expired (from to date : string) (now : time.Time) c item :
  cache.data c !! cache.generateKey from to date = Some item →
  cache.ExpiresAt item < now →
  let key := cache.generateKey from to date in
  let c' := (cache.Get from to date now c).2 in
  (cache.Get from to date now c).1 = (0%float, false)
  ∧ c' = c
  ∧ cache.data c' !! key = Some item
  ∧ (cache.Size c').1 = int_incr (len (delete key (cache.data c')))
  ∧ ∀ (now' : time.Time) (items : list (string * cache.CacheItem)),
      now ≤ now' → items ≡ₚ map_to_list (cache.data c') →
      cache.data (cache.cleanupTick_in items now' c').2 !! key = None.
Proof.
  intros H Hexp key c'.
  assert (Hget : cache.Get from to date now c = ((0%float, false), c)).
  { unfold cache.Get, bind, get, ret. rewrite H. unfold time.After.
    by rewrite (proj2 (Z.ltb_lt _ _) Hexp). }
  subst c'. rewrite Hget. simpl.
  repeat split; [done|by apply len_stored with item|].
  intros now' items Hnow' Hperm.
  apply sweepItems_expired with item.
  - rewrite Hperm. by apply elem_of_map_to_list.
  - unfold time.After. apply Z.ltb_lt. lia.
Qed.

(** C4. Whatever the cache holds, at any instant and in whatever order the
    range visits the entries, the statistics satisfy
    [valid_items + expired_items == total_items] in Go's [int]
    arithmetic, [total_items] being [len] of the stored entries, expired
    or not. *)
Theorem GetStats_sum (now : time.Time) c
    (items : list (string * cache.CacheItem)) :
  items ≡ₚ map_to_list (cache.data c) →
  let s := (cache.GetStats_in items now c).1 in
  int_add (cache.valid_items s) (cache.expired_items s)
  = cache.total_items s
  ∧ cache.total_items s = len (cache.data c)
  ∧ (cache.GetStats_in items now c).2 = c.
Proof.
  intros Hperm. unfold cache.GetStats_in, bind, get, ret.
  change (0, 0) with (wrap64 0, wrap64 0).
  rewrite countItems_spec. simpl. repeat split.
  unfold int_add. rewrite wrap64_add_l, wrap64_add_r. unfold len.
  f_equal. rewrite !Z.add_0_l, <- Nat2Z.inj_add, filter_split_length.
  by rewrite Hperm, length_map_to_list.
Qed.

Lemma Get_expired_witness :
  cache.data sample.shortLived !! cache.generateKey "USD" "INR" ""
  = Some sample.shortLivedItem
  ∧ cache.ExpiresAt sample.shortLivedItem < 150 * time.Millisecond
  ∧ (cache.Get "USD" "INR" "" (150 * time.Millisecond) sample.shortLived).1
    = (0%float, false)
  ∧ (cache.Size
       (cache.Get "USD" "INR" "" (150 * time.Millisecond)
          sample.shortLived).2).1 = 1
  ∧ cache.data
      (cache.cleanupTick (5 * time.Minute)
         (cache.Get "USD" "INR" "" (150 * time.Millisecond)
            sample.shortLived).2).2
    !! cache.generateKey "USD" "INR" "" = None.
Proof.
  assert (H1 : cache.data sample.shortLived
                 !! cache.generateKey "USD" "INR" ""
               = Some sample.shortLivedItem) by (by vm_compute).
  assert (H2 : cache.ExpiresAt sample.shortLivedItem
               < 150 * time.Millisecond) by (by vm_compute).
  destruct (Get_expired "USD" "INR" "" (150 * time.Millisecond)
              sample.shortLived sample.shortLivedItem H1 H2)
    as (Hget & Hsame & Hstill & Hsize & Hsweep).
  split; [exact H1|]. split; [exact H2|]. split; [exact Hget|].
  split; [by rewrite Hsize|].
  apply Hsweep; [by vm_compute|done].
Defined.

Lemma GetStats_sum_witness :
  map_to_list (cache.data sample.shortLived)
    ≡ₚ map_to_list (cache.data sample.shortLived)
  ∧ cache.GetStats (150 * time.Millisecond) sample.shortLived
    = ({| cache.total_items := 1; cache.valid_items := 0;
          cache.expired_items := 1;
          cache.ttl_seconds := time.Seconds (100 * time.Millisecond) |},
       sample.shortLived)
  ∧ int_add 0 1 = 1.
Proof.
  split; [done|]. split; [by vm_compute|].
  destruct (GetStats_sum (150 * time.Millisecond) sample.shortLived
              (map_to_list (cache.data sample.shortLived))
              ltac:(done)) as (Hsum & _ & _).
  revert Hsum. by vm_compute.
Defined.

(** C3, as the code has it. The key function is injective on the triples
    whose base and quote have no underscore and whose date is not the
    word [latest]: two such triples with the same key are equal; and when
    they differ, a [Set] of each followed by a [Get] of each before either
    expires returns each one's own rate.  The empty date shares its keys
    with the explicit date [latest] and with no other. *)
Theorem generateKey_injective (from to date from' to' date' : string) :
  underscore_free from = true → underscore_free to = true →
  underscore_free from' = true → underscore_free to' = true →
  date ≠ "latest" → date' ≠ "latest" →
  (cache.generateKey from to date = cache.generateKey from' to' date' →
   (from, to, date) = (from', to', date'))
  ∧ ((from, to, date) ≠ (from', to', date') →
     ∀ c (rate rate' : float64) (t t' now : time.Time),
       now ≤ time.Add t (cache.ttl c) → now ≤ time.Add t' (cache.ttl c) →
       let c1 := (cache.Set_ from to date rate t c).2 in
       let c2 := (cache.Set_ from' to' date' rate' t' c1).2 in
       (cache.Get from to date now c2).1 = (rate, true)
       ∧ (cache.Get from' to' date' now c2).1 = (rate', true)).
Proof.
  intros Hf Ht Hf' Ht' Hd Hd'.
  assert (Hinj : cache.generateKey from to date
                 = cache.generateKey from' to' date' →
                 (from, to, date) = (from', to', date')).
  { intros E.
    destruct (generateKey_pair_inj _ _ _ _ _ _ Hf Ht Hf' Ht' E)
      as (-> & -> & Etag).
    by rewrite (dateTag_inj _ _ Hd Hd' Etag). }
  split; [done|].
  intros Hne c rate rate' t t' now Hnow Hnow' c1 c2. split.
  - assert (Hkept : cache.data c2 !! cache.generateKey from to date
                    = Some {| cache.Rate := rate;
                              cache.ExpiresAt := time.Add t (cache.ttl c) |}).
    { subst c2. rewrite Set_lookup_other by (intros E; by apply Hne, Hinj).
      apply Set_lookup_same. }
    by rewrite (Get_stored _ _ _ now c2 _ Hkept Hnow).
  - subst c2. by rewrite Get_after_Set_fst.
Qed.

Lemma generateKey_injective_witness :
  underscore_free "USD" = true ∧ underscore_free "INR" = true
  ∧ "" ≠ "latest" ∧ "2023-01-01" ≠ "latest"
  ∧ ("USD", "INR", "") ≠ ("USD", "INR", "2023-01-01")
  ∧ cache.generateKey "USD" "INR" ""
    ≠ cache.generateKey "USD" "INR" "2023-01-01"
  ∧ (cache.Get "USD" "INR" "" 2
       (cache.Set_ "USD" "INR" "2023-01-01" 82.0%float 1
          (cache.Set_ "USD" "INR" "" 83.5%float 0
             (cache.NewMemoryCache time.Hour)).2).2).1
    = (83.5%float, true)
  ∧ (cache.Get "USD" "INR" "2023-01-01" 2
       (cache.Set_ "USD" "INR" "2023-01-01" 82.0%float 1
          (cache.Set_ "USD" "INR" "" 83.5%float 0
             (cache.NewMemoryCache time.Hour)).2).2).1
    = (82.0%float, true).
Proof.
  assert (Hd : "" ≠ "latest") by discriminate.
  assert (Hd' : "2023-01-01" ≠ "latest") by discriminate.
  assert (Hne : ("USD", "INR", "") ≠ ("USD", "INR", "2023-01-01"))
    by discriminate.
  destruct (generateKey_injective "USD" "INR" "" "USD" "INR" "2023-01-01"
              eq_refl eq_refl eq_refl eq_refl Hd Hd') as [Hinj Hget].
  split; [reflexivity|]. split; [reflexivity|].
  split; [exact Hd|]. split; [exact Hd'|]. split; [exact Hne|].
  split; [intros E; exact (Hne (Hinj E))|].
  apply (Hget Hne (cache.NewMemoryCache time.Hour)); by vm_compute.
Defined.

(** C3 fails as stated: the triple with no date and the triple with the
    date [latest] are distinct and have the same key, so a [Set] of the
    second overwrites the first; and an underscore inside a currency code
    moves the boundary between base and quote. *)
Lemma generateKey_collision :
  ("USD", "INR", "") ≠ ("USD", "INR", "latest")
  ∧ cache.generateKey "USD" "INR" "" = cache.generateKey "USD" "INR" "latest"
  ∧ (cache.Get "USD" "INR" "" 2
       (cache.Set_ "USD" "INR" "latest" 82.0%float 1
          (cache.Set_ "USD" "INR" "" 83.5%float 0
             (cache.NewMemoryCache time.Hour)).2).2).1
    = (82.0%float, true)
  ∧ ("A_B", "C", "") ≠ ("A", "B_C", "")
  ∧ cache.generateKey "A_B" "C" "" = cache.generateKey "A" "B_C" "".
Proof.
  split; [discriminate|]. split; [reflexivity|].
  split; [by vm_compute|]. split; [discriminate|reflexivity].
Qed.

End cache_claims.

(** * Properties of the client and of the fetcher *)

Section channel_facts.

Context {A : Type}.
Implicit Types (queues : list (list A)) (picks : list nat).

Lemma concat_pop queues (i : nat) (x : A) (q : list A) :
  queues !! i = Some (x :: q) →
  concat queues ≡ₚ x :: concat (<[i := q]> queues).
Proof.
  revert i. induction queues as [|p queues IH]; intros [|i] H;
    simplify_eq/=.
  - done.
  - rewrite (IH i H). by rewrite Permutation_middle.
Qed.

(** Whatever the picks, the channel delivers every send of every
    goroutine, each once. *)
Lemma merge_perm picks queues :
  services.merge picks queues ≡ₚ concat queues.
Proof.
  revert queues. induction picks as [|i picks IH]; intros queues; simpl.
  - done.
  - destruct (queues !! i) as [[|x q]|] eqn:E; [apply IH| |apply IH].
    rewrite IH. symmetry. by apply concat_pop.
Qed.

Lemma merge_nil picks queues :
  Forall (λ q, q = []) queues → services.merge picks queues = [].
Proof.
  intros H. apply Permutation_nil_r. rewrite merge_perm.
  induction H as [|q queues -> _ IH]; [done|]. by rewrite concat_cons, IH.
Qed.

Lemma interleaving_idle queues (out : list A) :
  services.interleaving queues out → services.interleaving ([] :: queues) out.
Proof.
  induction 1 as [queues Hall|queues i x q out Hi _ IH].
  - apply services.interleaving_done. by constructor.
  - by apply (services.interleaving_send _ (S i) x q).
Qed.

Lemma interleaving_concat queues :
  services.interleaving queues (concat queues).
Proof.
  induction queues as [|p queues IH].
  - by apply services.interleaving_done.
  - induction p as [|x p IHp]; simpl.
    + by apply interleaving_idle.
    + by apply (services.interleaving_send _ 0%nat x p).
Qed.

(** Every choice of picks is one of the channel's delivery orders. *)
Lemma merge_interleaving picks queues :
  services.interleaving queues (services.merge picks queues).
Proof.
  revert queues. induction picks as [|i picks IH]; intros queues; simpl.
  - apply interleaving_concat.
  - destruct (queues !! i) as [[|x q]|] eqn:E; [apply IH| |apply IH].
    by apply (services.interleaving_send _ i x q).
Qed.

(** Every delivery order of the channel is reached by some picks. *)
Lemma interleaving_merge queues (out : list A) :
  services.interleaving queues out →
  ∃ picks, services.merge picks queues = out.
Proof.
  induction 1 as [queues Hall|queues i x q out Hi _ [picks IH]].
  - exists []. by apply merge_nil.
  - exists (i :: picks). simpl. by rewrite Hi, IH.
Qed.

End channel_facts.

Section client_facts.

Implicit Types (c : external.ExchangeRateClient) (n : external.Net).

Lemma GetLatestRates_run c (baseCurrency : string) n :
  external.GetLatestRates c baseCurrency n
  = (external.latestOutcome c baseCurrency,
     n ++ [external.latestURL c baseCurrency]).
Proof.
  unfold external.latestOutcome, external.GetLatestRates,
    external.http_Get, external.latestURL, bind, get, put, ret.
  destruct (external.RoundTrip _ _) as [resp|e]; [|done].
  case_decide; [done|].
  destruct (external.body resp) as [e|apiResponse]; [done|].
  by destruct (models.Rates apiResponse).
Qed.

(** A response that [GetLatestRates] returns without error has rates. *)
Lemma latestOutcome_rates c (baseCurrency : string)
    (apiResponse : models.ExternalAPIResponse) :
  external.latestOutcome c baseCurrency = inl apiResponse →
  is_Some (models.Rates apiResponse).
Proof.
  unfold external.latestOutcome, external.GetLatestRates,
    external.http_Get, bind, get, put, ret.
  destruct (external.RoundTrip _ _) as [resp|e]; [|done].
  case_decide; [done|].
  destruct (external.body resp) as [e|r]; [done|].
  destruct (models.Rates r) eqn:E; [|done].
  intros [= <-]. by rewrite E.
Qed.

Lemma GetRateForPair_same c (x : string) n :
  external.GetRateForPair c x x n = ((1.0%float, None), n).
Proof. unfold external.GetRateForPair. by rewrite decide_True. Qed.

Lemma GetHistoricalRateForPair_same c (x date : string) n :
  external.GetHistoricalRateForPair c x x date n = ((1.0%float, None), n).
Proof. unfold external.GetHistoricalRateForPair. by rewrite decide_True. Qed.

Lemma GetHistoricalRateForPair_fails c (from to date : string) n :
  from ≠ to →
  external.GetHistoricalRateForPair c from to date n
  = ((0%float, Some external.historicalUnavailable), n).
Proof.
  intros H. unfold external.GetHistoricalRateForPair.
  by rewrite decide_False.
Qed.

End client_facts.

Section on_demand_claims.

Implicit Types (rf : services.RateFetcher) (w : services.World).

Lemma FetchRateOnDemand_run rf (from to : string) (now : time.Time) w :
  services.FetchRateOnDemand rf from to now w
  = match external.GetRateForPair (services.client rf) from to
            (services.wnet w) with
    | ((_, Some e), n) =>
        ((0%float, Some e),
         {| services.wcache := services.wcache w; services.wnet := n |})
    | ((rate, None), n) =>
        ((rate, None),
         {| services.wcache :=
              (cache.Set_ from to "" rate now (services.wcache w)).2;
            services.wnet := n |})
    end.
Proof.
  unfold services.FetchRateOnDemand, services.onNet, services.onCache,
    bind, ret.
  by destruct (external.GetRateForPair _ _ _ _) as [[rate [e|]] n].
Qed.

Lemma FetchHistoricalRateOnDemand_run rf (from to date : string)
    (now : time.Time) w :
  services.FetchHistoricalRateOnDemand rf from to date now w
  = match external.GetHistoricalRateForPair (services.client rf)
            from to date (services.wnet w) with
    | ((_, Some e), n) =>
        ((0%float, Some e),
         {| services.wcache := services.wcache w; services.wnet := n |})
    | ((rate, None), n) =>
        ((rate, None),
         {| services.wcache :=
              (cache.Set_ from to date rate now (services.wcache w)).2;
            services.wnet := n |})
    end.
Proof.
  unfold services.FetchHistoricalRateOnDemand, services.onNet,
    services.onCache, bind, ret.
  by destruct (external.GetHistoricalRateForPair _ _ _ _ _)
    as [[rate [e|]] n].
Qed.

(** C2, as the code has it. Called with the same currency on both sides,
    the two on-demand fetches return [1.0] without error and send nothing
    over the network, and they do write: one [Set] of [(X, X, date)], the
    date empty for the latest rate, to [1.0].  The paths that return [1.0]
    and leave cache and network as they were are those of the service,
    [getLatestRate] and [getHistoricalRate]. *)
Theorem on_demand_same_currency rf (X date : string)
    (now now' : time.Time) w :
  services.FetchRateOnDemand rf X X now w
  = ((1.0%float, None),
     {| services.wcache :=
          (cache.Set_ X X "" 1.0%float now (services.wcache w)).2;
        services.wnet := services.wnet w |})
  ∧ services.FetchHistoricalRateOnDemand rf X X date now w
    = ((1.0%float, None),
       {| services.wcache :=
            (cache.Set_ X X date 1.0%float now (services.wcache w)).2;
          services.wnet := services.wnet w |})
  ∧ services.getLatestRate rf X X now now' w = ((1.0%float, None), w)
  ∧ services.getHistoricalRate rf X X date now now' w
    = ((1.0%float, None), w).
Proof.
  rewrite FetchRateOnDemand_run, FetchHistoricalRateOnDemand_run,
    GetRateForPair_same, GetHistoricalRateForPair_same.
  unfold services.getLatestRate, services.getHistoricalRate.
  by rewrite !decide_True.
Qed.

(** C2 fails as stated: an on-demand fetch of USD against USD leaves an
    entry in a cache that was empty. *)
Lemma on_demand_same_currency_writes :
  (services.FetchRateOnDemand (sample.rateFetcher ["USD"; "INR"])
     "USD" "USD" 0 (sample.emptyWorld time.Hour)).1 = (1.0%float, None)
  ∧ services.wcache
      (services.FetchRateOnDemand (sample.rateFetcher ["USD"; "INR"])
         "USD" "USD" 0 (sample.emptyWorld time.Hour)).2
    ≠ services.wcache (sample.emptyWorld time.Hour)
  ∧ (cache.Size (services.wcache (sample.emptyWorld time.Hour))).1 = 0
  ∧ (cache.Size
       (services.wcache
          (services.FetchRateOnDemand (sample.rateFetcher ["USD"; "INR"])
             "USD" "USD" 0 (sample.emptyWorld time.Hour)).2)).1 = 1.
Proof.
  split; [by vm_compute|]. split; [|by vm_compute].
  intros E. apply (f_equal (λ c, (cache.Size c).1)) in E.
  vm_compute in E. discriminate.
Qed.

(** C7. When the client's call inside an on-demand fetch returns an
    error, the fetch returns rate 0 with that same error, and the cache is
    exactly what it was. *)
Theorem on_demand_failure rf (from to date : string) (now : time.Time) w
    (r : float64) (e : error) (n' : external.Net) :
  (external.GetRateForPair (services.client rf) from to (services.wnet w)
   = ((r, Some e), n') →
   services.FetchRateOnDemand rf from to now w
   = ((0%float, Some e),
      {| services.wcache := services.wcache w; services.wnet := n' |}))
  ∧ (external.GetHistoricalRateForPair (services.client rf) from to date
       (services.wnet w) = ((r, Some e), n') →
     services.FetchHistoricalRateOnDemand rf from to date now w
     = ((0%float, Some e),
        {| services.wcache := services.wcache w; services.wnet := n' |})).
Proof.
  split; intros H.
  - by rewrite FetchRateOnDemand_run, H.
  - by rewrite FetchHistoricalRateOnDemand_run, H.
Qed.

Lemma on_demand_failure_witness :
  services.FetchRateOnDemand (sample.rateFetcher ["USD"; "INR"])
    "INR" "USD" 7 (sample.emptyWorld time.Hour)
  = ((0%float,
      Some (Errorf_w "failed to fetch latest rates: " sample.transportDown)),
     {| services.wcache := cache.NewMemoryCache time.Hour;
        services.wnet :=
          ["https://api.exchangerate-api.com/v4/latest/INR"] |})
  ∧ services.FetchHistoricalRateOnDemand (sample.rateFetcher ["USD"; "INR"])
      "USD" "INR" "2023-01-01" 7 (sample.emptyWorld time.Hour)
    = ((0%float, Some external.historicalUnavailable),
       {| services.wcache := cache.NewMemoryCache time.Hour;
          services.wnet := [] |}).
Proof.
  split.
  - apply (proj1 (on_demand_failure (sample.rateFetcher ["USD"; "INR"])
                    "INR" "USD" "" 7 (sample.emptyWorld time.Hour)
                    0%float _ _)).
    by vm_compute.
  - apply (proj2 (on_demand_failure (sample.rateFetcher ["USD"; "INR"])
                    "USD" "INR" "2023-01-01" 7
                    (sample.emptyWorld time.Hour) 0%float _ _)).
    by vm_compute.
Defined.

(** C10. The client's historical-rates call returns an error whatever its
    arguments and sends no request; so the historical on-demand fetch of
    two different currencies returns that error and leaves cache and
    network as they were, while the client's historical pair call on one
    currency against itself returns [1.0] without error. *)
Theorem historical_unavailable rf (from to date : string)
    (now : time.Time) w :
  from ≠ to →
  (∀ (baseCurrency d : string) (n : external.Net),
     external.GetHistoricalRates (services.client rf) baseCurrency d n
     = (inr external.historicalUnavailable, n))
  ∧ services.FetchHistoricalRateOnDemand rf from to date now w
    = ((0%float, Some external.historicalUnavailable), w)
  ∧ (∀ (X d : string) (n : external.Net),
       external.GetHistoricalRateForPair (services.client rf) X X d n
       = ((1.0%float, None), n)).
Proof.
  intros Hne. split; [done|]. split.
  - rewrite FetchHistoricalRateOnDemand_run,
      GetHistoricalRateForPair_fails by done.
    by destruct w.
  - intros. apply GetHistoricalRateForPair_same.
Qed.

Lemma historical_unavailable_witness :
  "USD" ≠ "INR"
  ∧ services.FetchHistoricalRateOnDemand (sample.rateFetcher ["USD"; "INR"])
      "USD" "INR" "2023-01-01" 7 (sample.emptyWorld time.Hour)
    = ((0%float, Some external.historicalUnavailable),
       sample.emptyWorld time.Hour)
  ∧ external.GetHistoricalRateForPair sample.apiClient
      "USD" "USD" "2023-01-01" []
    = ((1.0%float, None), []).
Proof.
  assert (Hne : "USD" ≠ "INR") by discriminate.
  destruct (historical_unavailable (sample.rateFetcher ["USD"; "INR"])
              "USD" "INR" "2023-01-01" 7 (sample.emptyWorld time.Hour) Hne)
    as (_ & Hfetch & Hsame).
  split; [exact Hne|]. split; [exact Hfetch|].
  apply (Hsame "USD" "2023-01-01" []).
Defined.

End on_demand_claims.

Section lifecycle_claims.

Variable SupportedCurrencies : gmap string bool.

Implicit Types (s : services.Lifecycle).






End lifecycle_claims.

Section drain_facts.

Variable clock : nat → time.Time.

Implicit Types (c : cache.MemoryCache) (ds : list services.rateResult).

Lemma drain_counts (n : nat) ds (a b : Z) c :
  (services.drain clock n ds (wrap64 a, wrap64 b) c).1
  = (wrap64 (a + Z.of_nat (length
       (filter (λ r, services.isWrite r = true) ds))),
     wrap64 (b + Z.of_nat (length
       (filter (λ r, services.isWrite r = false) ds)))).
Proof.
  revert n a b c. induction ds as [|r ds IH]; intros n a b c; simpl.
  - by rewrite !Z.add_0_r.
  - rewrite !filter_cons.
    pose proof (eq_refl : services.isWrite r
                          = match services.err r with
                            | None => true
                            | Some _ => false
                            end) as Hw.
    destruct (services.err r) as [e|]; simpl.
    + rewrite int_incr_wrap, IH. rewrite decide_False by congruence.
      rewrite decide_True by done. simpl length. do 2 f_equal. lia.
    + unfold bind. simpl. rewrite int_incr_wrap, IH.
      rewrite decide_True by done. rewrite decide_False by congruence.
      simpl length. do 2 f_equal. lia.
Qed.


(** A key that no delivered write is for keeps its entry, or its
    absence. *)
Lemma drain_untouched (k : string) (n : nat) ds (acc : int * int) c :
  (∀ r, r ∈ ds → services.isWrite r = true → services.keyOf r ≠ k) →
  cache.data (services.drain clock n ds acc c).2 !! k = cache.data c !! k.
Proof.
  revert n acc c. induction ds as [|r ds IH]; intros n [a b] c H; simpl.
  - done.
  - assert (Hds : ∀ r', r' ∈ ds → services.isWrite r' = true →
                        services.keyOf r' ≠ k)
      by (intros; apply H; [by right|done]).
    specialize (H r ltac:(by left)). unfold services.isWrite in H.
    destruct (services.err r); [by apply IH|].
    unfold bind. simpl. rewrite IH by done. simpl.
    apply lookup_insert_ne. by apply H.
Qed.

(** The entry of a key after the loop, when every delivered write for
    that key carries the rate [v]: it has rate [v] and an expiry the loop
    set, provided the key had such an entry before the loop or some
    delivered write is for it. *)
Lemma drain_rate (k : string) (v : float64) (n : nat) ds
    (acc : int * int) c (item : cache.CacheItem) :
  (∀ r, r ∈ ds → services.isWrite r = true → services.keyOf r = k →
        services.rate r = v) →
  cache.data c !! k = Some item → services.writtenBy clock (cache.ttl c) v item →
  ∃ item', cache.data (services.drain clock n ds acc c).2 !! k = Some item'
           ∧ services.writtenBy clock (cache.ttl c) v item'.
Proof.
  revert n acc c item.
  induction ds as [|r ds IH]; intros n [a b] c item H Hk Hitem; simpl.
  - eauto.
  - assert (Hds : ∀ r', r' ∈ ds → services.isWrite r' = true →
                        services.keyOf r' = k → services.rate r' = v)
      by (intros; apply H; [by right|done..]).
    specialize (H r ltac:(by left)). unfold services.isWrite in H.
    destruct (services.err r); [by eapply IH|].
    unfold bind. simpl.
    destruct (decide (services.keyOf r = k)) as [Ek|Ek].
    + eapply (IH _ _ {| cache.data := _; cache.ttl := cache.ttl c |});
        [done| |].
      * simpl. fold (services.keyOf r). rewrite Ek. apply lookup_insert_eq.
      * split; simpl; [by apply H|by exists n].
    + eapply (IH _ _ {| cache.data := _; cache.ttl := cache.ttl c |});
        [done| |exact Hitem].
      simpl. fold (services.keyOf r). by rewrite lookup_insert_ne.
Qed.

Lemma drain_written (k : string) (v : float64) (n : nat) ds
    (acc : int * int) c (r0 : services.rateResult) :
  r0 ∈ ds → services.isWrite r0 = true → services.keyOf r0 = k →
  (∀ r, r ∈ ds → services.isWrite r = true → services.keyOf r = k →
        services.rate r = v) →
  ∃ item, cache.data (services.drain clock n ds acc c).2 !! k = Some item
          ∧ services.writtenBy clock (cache.ttl c) v item.
Proof.
  revert n acc c.
  induction ds as [|r ds IH]; intros n [a b] c Hin Hw Hk H.
  - by apply elem_of_nil in Hin.
  - assert (Hds : ∀ r', r' ∈ ds → services.isWrite r' = true →
                        services.keyOf r' = k → services.rate r' = v)
      by (intros; apply H; [by right|done..]).
    apply elem_of_cons in Hin as [<-|Hin]; simpl.
    + pose proof (H r0 ltac:(by left) Hw Hk) as Hv.
      unfold services.isWrite in Hw.
      destruct (services.err r0); [done|].
      unfold bind. simpl.
      eapply (drain_rate k v _ ds _
                {| cache.data := _; cache.ttl := cache.ttl c |});
        [done| |].
      * simpl. fold (services.keyOf r0). rewrite Hk. apply lookup_insert_eq.
      * split; simpl; [done|by exists n].
    + destruct (services.err r); [by apply IH|].
      unfold bind. simpl.
      by apply (IH _ _ {| cache.data := _; cache.ttl := cache.ttl c |}).
Qed.

End drain_facts.

Section refresh_facts.

Variable SupportedCurrencies : gmap string bool.

Implicit Types (rf : services.RateFetcher) (σ : services.Schedule)
  (r : services.rateResult) (order : services.RangeOrder).

Local Abbreviation baseQueue := (services.baseQueue SupportedCurrencies).
Local Abbreviation delivered := (services.delivered SupportedCurrencies).
Local Abbreviation supported := (services.supported SupportedCurrencies).

Lemma fetchRatesForBase_run rf (b : string)
    (visited : gmap string float64 → list (string * float64))
    (n : external.Net) :
  services.fetchRatesForBase SupportedCurrencies rf b visited n
  = ((services.fetchRatesForBase SupportedCurrencies rf b visited []).1,
     n ++ [external.latestURL (services.client rf) b]).
Proof.
  unfold services.fetchRatesForBase, bind. rewrite !GetLatestRates_run.
  by destruct (external.latestOutcome _ _).
Qed.

Lemma launch_run rf order (bases : list string) (n : external.Net) :
  services.launch SupportedCurrencies rf order bases n
  = (map (baseQueue rf order) bases,
     n ++ map (external.latestURL (services.client rf)) bases).
Proof.
  revert n. induction bases as [|b bases IH]; intros n; simpl.
  - by rewrite app_nil_r.
  - unfold bind. rewrite fetchRatesForBase_run, IH. simpl.
    by rewrite <- app_assoc.
Qed.

Lemma delivered_perm rf σ :
  delivered rf σ
  ≡ₚ concat (map (baseQueue rf (services.visit σ)) (services.currencies rf)).
Proof. unfold services.delivered. by rewrite merge_perm, launch_run. Qed.

Lemma fetchAllRates_run rf σ (w : services.World) :
  services.fetchAllRates SupportedCurrencies rf σ w
  = ((services.drain (services.clock σ) 0 (delivered rf σ) (0, 0)
        (services.wcache w)).1,
     {| services.wcache :=
          (services.drain (services.clock σ) 0 (delivered rf σ) (0, 0)
             (services.wcache w)).2;
        services.wnet :=
          services.wnet w
          ++ map (external.latestURL (services.client rf))
               (services.currencies rf) |}).
Proof.
  unfold services.fetchAllRates, services.delivered, services.onNet,
    services.onCache, bind.
  rewrite !launch_run. simpl.
  by destruct (services.drain _ _ _ _ _).
Qed.

Lemma baseQueue_failed rf order (b : string) (e : error) :
  external.latestOutcome (services.client rf) b = inr e →
  baseQueue rf order b = services.sendErrors b e (services.currencies rf).
Proof.
  intros H. unfold services.baseQueue, services.fetchRatesForBase, bind.
  by rewrite GetLatestRates_run, H.
Qed.

Lemma baseQueue_ok rf order (b : string)
    (apiResponse : models.ExternalAPIResponse) :
  external.latestOutcome (services.client rf) b = inl apiResponse →
  baseQueue rf order b
  = services.sendRates SupportedCurrencies b
      (services.ranged (order b) (models.Rates apiResponse))
    ++ [{| services.from := b; services.to := b;
           services.rate := 1.0%float; services.err := None |}].
Proof.
  intros H. unfold services.baseQueue, services.fetchRatesForBase, bind.
  by rewrite GetLatestRates_run, H.
Qed.

Lemma sendErrors_map (b : string) (e : error) (cs : list string) :
  services.sendErrors b e cs
  = map (λ q, {| services.from := b; services.to := q;
                 services.rate := 0%float; services.err := Some e |})
      (filter (λ q, q ≠ b) cs).
Proof.
  induction cs as [|q cs IH]; [done|]. simpl. rewrite filter_cons.
  case_decide; simpl; by rewrite IH.
Qed.

Lemma elem_of_sendRates (b : string) (visited : list (string * float64)) r :
  r ∈ services.sendRates SupportedCurrencies b visited
  ↔ ∃ q v, (q, v) ∈ visited ∧ supported q = true ∧ q ≠ b
           ∧ r = {| services.from := b; services.to := q;
                    services.rate := v; services.err := None |}.
Proof.
  induction visited as [|[q v] visited IH]; simpl.
  - split; [by intros ?%elem_of_nil|].
    by intros (? & ? & ?%elem_of_nil & _).
  - destruct (supported q && bool_decide (q ≠ b)) eqn:E.
    + apply andb_prop in E as [Es Eb%bool_decide_eq_true].
      rewrite elem_of_cons, IH. split.
      * intros [->|(q' & v' & Hin & ?)].
        -- exists q, v. split; [by left|done].
        -- exists q', v'. split; [by right|done].
      * intros (q' & v' & [[= -> ->]|Hin]%elem_of_cons & Hrest).
        -- left. by destruct Hrest as (_ & _ & ->).
        -- right. by exists q', v'.
    + rewrite IH. split.
      * intros (q' & v' & Hin & ?). exists q', v'. split; [by right|done].
      * intros (q' & v' & [[= -> ->]|Hin]%elem_of_cons & Hs & Hb & ->).
        -- apply andb_false_iff in E as [E|E%bool_decide_eq_false];
             [congruence|done].
        -- by exists q', v'.
Qed.

Lemma elem_of_concat_map {A B} (f : A → list B) (l : list A) (y : B) :
  y ∈ concat (map f l) ↔ ∃ x, x ∈ l ∧ y ∈ f x.
Proof.
  induction l as [|x l IH]; simpl.
  - split; [by intros ?%elem_of_nil|by intros (? & ?%elem_of_nil & _)].
  - rewrite elem_of_app, IH. split.
    + intros [H|(x' & Hin & H)]; [exists x|exists x'];
        (split; [|done]); [by left|by right].
    + intros (x' & [->|Hin]%elem_of_cons & H); [by left|right; eauto].
Qed.

Lemma elem_of_delivered rf σ r :
  r ∈ delivered rf σ
  ↔ ∃ b, b ∈ services.currencies rf ∧ r ∈ baseQueue rf (services.visit σ) b.
Proof. by rewrite delivered_perm, elem_of_concat_map. Qed.

(** What a result in the queue of base [b] looks like. *)
Lemma elem_of_baseQueue rf order (b : string) r :
  r ∈ baseQueue rf order b →
  services.from r = b
  ∧ match external.latestOutcome (services.client rf) b with
    | inr e =>
        services.err r = Some e ∧ services.to r ≠ b
        ∧ services.to r ∈ services.currencies rf
    | inl apiResponse =>
        services.err r = None
        ∧ ((services.to r = b ∧ services.rate r = 1.0%float)
           ∨ (services.to r ≠ b ∧ supported (services.to r) = true
              ∧ (services.to r, services.rate r)
                ∈ services.ranged (order b) (models.Rates apiResponse)))
    end.
Proof.
  destruct (external.latestOutcome (services.client rf) b)
    as [apiResponse|e] eqn:E.
  - rewrite (baseQueue_ok _ _ _ _ E), elem_of_app, elem_of_sendRates.
    intros [(q & v & Hin & Hs & Hb & ->)|Hr%list_elem_of_singleton];
  [|subst r]; simpl.
    + split; [done|]. split; [done|]. by right.
    + split; [done|]. split; [done|]. by left.
  - rewrite (baseQueue_failed _ _ _ _ E), sendErrors_map, list_elem_of_fmap.
    intros (q & -> & [Hq Hin]%list_elem_of_filter). by simpl.
Qed.

End refresh_facts.

Section refresh_written.

Variable SupportedCurrencies : gmap string bool.

Implicit Types (rf : services.RateFetcher) (σ : services.Schedule)
  (r : services.rateResult) (w : services.World).

Local Abbreviation baseQueue := (services.baseQueue SupportedCurrencies).
Local Abbreviation delivered := (services.delivered SupportedCurrencies).
Local Abbreviation supported := (services.supported SupportedCurrencies).
Local Abbreviation plainCodes := (services.plainCodes SupportedCurrencies).
Local Abbreviation fetchAllRates :=
  (services.fetchAllRates SupportedCurrencies).

Lemma selfRate_delivered rf σ (X : string)
    (apiResponse : models.ExternalAPIResponse) :
  X ∈ services.currencies rf →
  external.latestOutcome (services.client rf) X = inl apiResponse →
  services.selfRate X ∈ delivered rf σ.
Proof.
  intros HX Hok. apply elem_of_delivered. exists X. split; [done|].
  rewrite (baseQueue_ok _ _ _ _ _ Hok), elem_of_app. right.
  by apply list_elem_of_singleton.
Qed.

Lemma rate_delivered rf σ (X q : string) (v : float64)
    (apiResponse : models.ExternalAPIResponse) (m : gmap string float64) :
  services.range_valid (services.visit σ) →
  X ∈ services.currencies rf →
  external.latestOutcome (services.client rf) X = inl apiResponse →
  models.Rates apiResponse = Some m → m !! q = Some v →
  supported q = true → q ≠ X →
  {| services.from := X; services.to := q;
     services.rate := v; services.err := None |} ∈ delivered rf σ.
Proof.
  intros Hvalid HX Hok Hm Hq Hs Hne. apply elem_of_delivered.
  exists X. split; [done|].
  rewrite (baseQueue_ok _ _ _ _ _ Hok), elem_of_app. left.
  apply elem_of_sendRates. exists q, v. repeat split; [|done..].
  rewrite Hm. simpl. rewrite (Hvalid X m). by apply elem_of_map_to_list.
Qed.

(** A delivered result for a base whose call failed is a failure. *)
Lemma failed_base_no_write rf σ (B : string) (e : error) r :
  external.latestOutcome (services.client rf) B = inr e →
  r ∈ delivered rf σ → services.from r = B → services.isWrite r = false.
Proof.
  intros Hfail (b & Hb & Hr)%elem_of_delivered HB.
  apply elem_of_baseQueue in Hr as [Hfrom Hr].
  assert (b = B) as -> by congruence. rewrite Hfail in Hr.
  unfold services.isWrite. by destruct Hr as (-> & _).
Qed.

(** The delivered results from a base to itself are its self rate. *)
Lemma self_pair_delivered rf σ (X : string) r :
  r ∈ delivered rf σ → services.from r = X → services.to r = X →
  r = services.selfRate X.
Proof.
  intros (b & Hb & Hr)%elem_of_delivered HX Hto.
  apply elem_of_baseQueue in Hr as [Hfrom Hr].
  assert (b = X) as -> by congruence.
  destruct (external.latestOutcome _ _).
  - destruct Hr as (He & [[_ Hrate]|[Hne _]]); [|done].
    destruct r; simpl in *. by subst.
  - by destruct Hr as (_ & Hne & _).
Qed.

Lemma delivered_codes rf σ r :
  plainCodes rf → r ∈ delivered rf σ → services.isWrite r = true →
  underscore_free (services.from r) = true
  ∧ underscore_free (services.to r) = true.
Proof.
  intros [Hcs Hsup] (b & Hb & Hr)%elem_of_delivered Hw.
  apply elem_of_baseQueue in Hr as [Hfrom Hr]. rewrite Hfrom.
  split; [by apply Hcs|]. unfold services.isWrite in Hw.
  destruct (external.latestOutcome _ _).
  - destruct Hr as (_ & [[-> _]|(_ & Hs & _)]); [by apply Hcs|by apply Hsup].
  - destruct Hr as (He & _). by rewrite He in Hw.
Qed.

(** With plain codes, a failed base leaves every key of its pairs alone. *)
Lemma failed_base_untouched rf σ w (B : string) (e : error)
    (q date : string) :
  plainCodes rf → B ∈ services.currencies rf →
  external.latestOutcome (services.client rf) B = inr e →
  cache.data (services.wcache (fetchAllRates rf σ w).2)
    !! cache.generateKey B q date
  = cache.data (services.wcache w) !! cache.generateKey B q date.
Proof.
  intros Hplain HB Hfail. rewrite fetchAllRates_run. simpl.
  apply drain_untouched. intros r Hr Hw Hk.
  destruct (delivered_codes _ _ _ Hplain Hr Hw) as [Hf _].
  unfold services.keyOf in Hk.
  apply generateKey_base_inj in Hk; [|done|by apply (proj1 Hplain)].
  rewrite (failed_base_no_write _ _ _ _ _ Hfail Hr Hk) in Hw. done.
Qed.

(** With plain codes, the self rate of a base whose call succeeded is in
    the cache after the pass. *)
Lemma selfRate_written rf σ w (X : string)
    (apiResponse : models.ExternalAPIResponse) :
  plainCodes rf → X ∈ services.currencies rf →
  external.latestOutcome (services.client rf) X = inl apiResponse →
  ∃ item,
    cache.data (services.wcache (fetchAllRates rf σ w).2)
      !! cache.generateKey X X "" = Some item
    ∧ services.writtenBy (services.clock σ) (cache.ttl (services.wcache w))
        1.0%float item.
Proof.
  intros Hplain HX Hok. rewrite fetchAllRates_run. simpl.
  apply drain_written with (services.selfRate X);
    [by eapply selfRate_delivered|done|done|].
  intros r Hr Hw Hk.
  destruct (delivered_codes _ _ _ Hplain Hr Hw) as [Hf Ht].
  unfold services.keyOf in Hk.
  apply generateKey_pair_inj in Hk as (Hfrom & Hto & _);
    [|done|done|by apply (proj1 Hplain)..].
  by rewrite (self_pair_delivered _ _ _ _ Hr Hfrom Hto).
Qed.

(** With plain codes, each supported rate of a successful response, other
    than the base's own, is in the cache after the pass. *)
Lemma rate_written rf σ w (X q : string) (v : float64)
    (apiResponse : models.ExternalAPIResponse) (m : gmap string float64) :
  plainCodes rf → services.range_valid (services.visit σ) →
  X ∈ services.currencies rf →
  external.latestOutcome (services.client rf) X = inl apiResponse →
  models.Rates apiResponse = Some m → m !! q = Some v →
  supported q = true → q ≠ X →
  ∃ item,
    cache.data (services.wcache (fetchAllRates rf σ w).2)
      !! cache.generateKey X q "" = Some item
    ∧ services.writtenBy (services.clock σ) (cache.ttl (services.wcache w))
        v item.
Proof.
  intros Hplain Hvalid HX Hok Hm Hq Hs Hne. rewrite fetchAllRates_run. simpl.
  eapply drain_written; [by eapply rate_delivered|done|done|].
  intros r Hr Hw Hk.
  destruct (delivered_codes _ _ _ Hplain Hr Hw) as [Hf Ht].
  unfold services.keyOf in Hk.
  apply generateKey_pair_inj in Hk as (Hfrom & Hto & _);
    [|done|done|by apply (proj1 Hplain)|by apply (proj2 Hplain)].
  apply elem_of_delivered in Hr as (b & Hb & Hr).
  apply elem_of_baseQueue in Hr as [Hfrom' Hr].
  assert (b = X) as -> by congruence. rewrite Hok, Hm in Hr. simpl in Hr.
  destruct Hr as (_ & [[Hself _]|(_ & _ & Hin)]); [congruence|].
  rewrite (Hvalid X m), Hto in Hin.
  apply elem_of_map_to_list in Hin. congruence.
Qed.

End refresh_written.

Section refresh_counts.

Variable SupportedCurrencies : gmap string bool.

Implicit Types (rf : services.RateFetcher) (σ : services.Schedule)
  (r : services.rateResult) (order : services.RangeOrder).

Local Abbreviation baseQueue := (services.baseQueue SupportedCurrencies).
Local Abbreviation delivered := (services.delivered SupportedCurrencies).

Lemma filter_keep_all {A} (P : A → Prop) `{!∀ x, Decision (P x)}
    (l : list A) :
  (∀ x, x ∈ l → P x) → filter P l = l.
Proof.
  induction l as [|x l IH]; intros Hall; [done|]. rewrite filter_cons.
  rewrite decide_True by (apply Hall; by left).
  f_equal. apply IH. intros; apply Hall; by right.
Qed.

Lemma filter_drop_all {A} (P : A → Prop) `{!∀ x, Decision (P x)}
    (l : list A) :
  (∀ x, x ∈ l → ¬ P x) → filter P l = [].
Proof.
  induction l as [|x l IH]; intros Hall; [done|]. rewrite filter_cons.
  rewrite decide_False by (apply Hall; by left).
  apply IH. intros; apply Hall; by right.
Qed.

Lemma filter_from_queues rf order (B : string) (cs : list string) :
  NoDup cs →
  filter (λ r, services.from r = B) (concat (map (baseQueue rf order) cs))
  = if decide (B ∈ cs) then baseQueue rf order B else [].
Proof.
  induction 1 as [|b cs Hb Hnd IH].
  - by rewrite decide_False by apply not_elem_of_nil.
  - change (concat (map (baseQueue rf order) (b :: cs)))
      with (baseQueue rf order b ++ concat (map (baseQueue rf order) cs)).
    rewrite filter_app, IH. destruct (decide (b = B)) as [->|Hne].
    + rewrite (decide_False (P := B ∈ cs)) by done.
      rewrite (decide_True (P := B ∈ B :: cs)) by (by left).
      rewrite app_nil_r. apply filter_keep_all.
      by intros r [? _]%elem_of_baseQueue.
    + rewrite filter_drop_all, app_nil_l.
      * destruct (decide (B ∈ cs)).
        -- rewrite decide_True by (by right). done.
        -- rewrite decide_False; [done|]. by intros [->|?]%elem_of_cons.
      * intros r [? _]%elem_of_baseQueue. congruence.
Qed.

Lemma length_filter_others (cs : list string) (b : string) :
  NoDup cs → b ∈ cs →
  length (filter (λ q, q ≠ b) cs) = pred (length cs).
Proof.
  induction 1 as [|c cs Hc Hnd IH]; intros Hb.
  - by apply elem_of_nil in Hb.
  - rewrite filter_cons. apply elem_of_cons in Hb as [<-|Hb].
    + rewrite decide_False by (by intros ?). simpl.
      f_equal. apply filter_keep_all. by intros q Hq ->.
    + rewrite decide_True by (by intros ->). simpl. rewrite IH by done.
      destruct cs; [by apply elem_of_nil in Hb|done].
Qed.

Lemma failures_count rf order (bases : list string) :
  NoDup (services.currencies rf) →
  (∀ b, b ∈ bases → b ∈ services.currencies rf) →
  length (filter (λ r, services.isWrite r = false)
            (concat (map (baseQueue rf order) bases)))
  = (length (filter (λ b, services.callFailed rf b = true) bases)
     * pred (length (services.currencies rf)))%nat.
Proof.
  intros Hnd. induction bases as [|b bases IH]; intros Hsub; [done|].
  simpl. rewrite filter_app, length_app, IH, filter_cons
    by (intros; apply Hsub; by right).
  pose proof (eq_refl : services.callFailed rf b
                        = match external.latestOutcome
                                  (services.client rf) b with
                          | inr _ => true
                          | inl _ => false
                          end) as Hcf.
  destruct (external.latestOutcome (services.client rf) b)
    as [apiResponse|e] eqn:E.
  - rewrite decide_False by congruence. rewrite filter_drop_all; [done|].
    intros r [_ Hr]%elem_of_baseQueue. rewrite E in Hr.
    unfold services.isWrite. by destruct Hr as (-> & _).
  - rewrite decide_True by done. rewrite filter_keep_all.
    + rewrite (baseQueue_failed _ _ _ _ _ E), sendErrors_map, length_map.
      rewrite length_filter_others by (try apply Hsub; by try left).
      simpl. done.
    + intros r [_ Hr]%elem_of_baseQueue. rewrite E in Hr.
      unfold services.isWrite. by destruct Hr as (-> & _).
Qed.

Lemma failures_delivered rf σ (B : string) (e : error) :
  NoDup (services.currencies rf) → B ∈ services.currencies rf →
  external.latestOutcome (services.client rf) B = inr e →
  filter (λ r, services.from r = B) (delivered rf σ)
  ≡ₚ map (services.failure B e)
       (filter (λ q, q ≠ B) (services.currencies rf)).
Proof.
  intros Hnd HB Hfail.
  rewrite delivered_perm, filter_from_queues by done.
  rewrite decide_True by done.
  by rewrite (baseQueue_failed _ _ _ _ _ Hfail), sendErrors_map.
Qed.

Lemma errorCount_delivered rf σ (w : services.World) :
  NoDup (services.currencies rf) →
  (services.fetchAllRates SupportedCurrencies rf σ w).1.2
  = wrap64 (Z.of_nat
      (length (filter (λ b, services.callFailed rf b = true)
                 (services.currencies rf))
       * pred (length (services.currencies rf)))).
Proof.
  intros Hnd. rewrite fetchAllRates_run. simpl.
  change (0, 0) with (wrap64 0, wrap64 0). rewrite drain_counts. simpl.
  rewrite Z.add_0_l. do 2 f_equal.
  by rewrite delivered_perm, failures_count.
Qed.

End refresh_counts.

Section refresh_claims.

Variable SupportedCurrencies : gmap string bool.

Implicit Types (rf : services.RateFetcher) (σ : services.Schedule)
  (r : services.rateResult) (w : services.World).

Local Abbreviation delivered := (services.delivered SupportedCurrencies).
Local Abbreviation supported := (services.supported SupportedCurrencies).
Local Abbreviation plainCodes := (services.plainCodes SupportedCurrencies).
Local Abbreviation fetchAllRates :=
  (services.fetchAllRates SupportedCurrencies).

Lemma NewRateFetcher_NoDup (apiClient : external.ExchangeRateClient) :
  NoDup (services.currencies
           (services.NewRateFetcher SupportedCurrencies apiClient).1).
Proof. apply NoDup_fst_map_to_list. Qed.

Lemma NewRateFetcher_plainCodes (apiClient : external.ExchangeRateClient) :
  Forall (λ kv, underscore_free kv.1 = true)
    (map_to_list SupportedCurrencies) →
  plainCodes (services.NewRateFetcher SupportedCurrencies apiClient).1.
Proof.
  intros Hall. rewrite Forall_forall in Hall. split.
  - intros b ([q v] & -> & Hin)%list_elem_of_fmap. by apply (Hall (q, v)).
  - intros q Hq. unfold services.supported in Hq.
    destruct (SupportedCurrencies !! q) as [v|] eqn:E; [|done].
    apply elem_of_map_to_list in E. by apply (Hall (q, v)).
Qed.

(** C1, as the code has it. For a base currency [X] of the fetcher, a full
    refresh pass is the receiving loop run over what the channel delivers,
    and under every scheduling: when the call for the rates of [X]
    succeeds, the write of [(X, X)] with rate [1.0] is delivered and it is
    the only result delivered for that pair, whatever the response holds,
    and with plain codes the cache afterwards holds [1.0] under the key of
    [(X, X, "")]; when the call fails, no write with base [X] is delivered,
    and with plain codes the entry under that key is what it was. *)
Theorem refresh_writes_self rf σ w (X : string) :
  X ∈ services.currencies rf →
  fetchAllRates rf σ w
  = ((services.drain (services.clock σ) 0 (delivered rf σ) (0, 0)
        (services.wcache w)).1,
     {| services.wcache :=
          (services.drain (services.clock σ) 0 (delivered rf σ) (0, 0)
             (services.wcache w)).2;
        services.wnet :=
          services.wnet w
          ++ map (external.latestURL (services.client rf))
               (services.currencies rf) |})
  ∧ match external.latestOutcome (services.client rf) X with
    | inl _ =>
        services.selfRate X ∈ delivered rf σ
        ∧ (∀ r, r ∈ delivered rf σ →
                services.from r = X → services.to r = X →
                r = services.selfRate X)
        ∧ (plainCodes rf →
           ∃ item,
             cache.data (services.wcache (fetchAllRates rf σ w).2)
               !! cache.generateKey X X "" = Some item
             ∧ services.writtenBy (services.clock σ)
                 (cache.ttl (services.wcache w)) 1.0%float item)
    | inr _ =>
        (∀ r, r ∈ delivered rf σ →
              services.from r = X → services.isWrite r = false)
        ∧ (plainCodes rf →
           cache.data (services.wcache (fetchAllRates rf σ w).2)
             !! cache.generateKey X X ""
           = cache.data (services.wcache w) !! cache.generateKey X X "")
    end.
Proof.
  intros HX. split; [apply fetchAllRates_run|].
  destruct (external.latestOutcome (services.client rf) X)
    as [apiResponse|e] eqn:E.
  - split; [by eapply selfRate_delivered|].
    split; [intros r; apply self_pair_delivered|].
    intros Hplain. by eapply selfRate_written.
  - split; [intros r; by eapply failed_base_no_write|].
    intros Hplain. by eapply failed_base_untouched.
Qed.

(** C8. When the call for the rates of a base [B] of the fetcher fails with
    [e], under every scheduling of a full refresh pass: the results
    delivered with base [B] are the failure [e] once for each other currency
    of the fetcher; the error counter ends at the number of failed bases
    times the number of other currencies, in Go's [int]; no result with
    base [B] is a write, and with plain codes every key of a pair of base
    [B] keeps its entry or its absence; and for every base whose call
    succeeds, each supported rate of its response and its self rate are
    delivered as writes, and with plain codes the cache afterwards holds
    them. *)
Theorem refresh_isolates_failure rf σ w (B : string) (e : error) :
  NoDup (services.currencies rf) → B ∈ services.currencies rf →
  services.range_valid (services.visit σ) →
  external.latestOutcome (services.client rf) B = inr e →
  let ds := delivered rf σ in
  let w' := (fetchAllRates rf σ w).2 in
  filter (λ r, services.from r = B) ds
  ≡ₚ map (services.failure B e)
       (filter (λ q, q ≠ B) (services.currencies rf))
  ∧ (fetchAllRates rf σ w).1.2
    = wrap64 (Z.of_nat
        (length (filter (λ b, services.callFailed rf b = true)
                   (services.currencies rf))
         * pred (length (services.currencies rf))))
  ∧ (∀ r, r ∈ ds → services.from r = B → services.isWrite r = false)
  ∧ (plainCodes rf → ∀ q date : string,
       cache.data (services.wcache w') !! cache.generateKey B q date
       = cache.data (services.wcache w) !! cache.generateKey B q date)
  ∧ (∀ (X : string) (apiResponse : models.ExternalAPIResponse),
       X ∈ services.currencies rf →
       external.latestOutcome (services.client rf) X = inl apiResponse →
       (services.selfRate X ∈ ds
        ∧ (plainCodes rf →
           ∃ item,
             cache.data (services.wcache w') !! cache.generateKey X X ""
             = Some item
             ∧ services.writtenBy (services.clock σ)
                 (cache.ttl (services.wcache w)) 1.0%float item))
       ∧ ∀ (m : gmap string float64) (q : string) (v : float64),
           models.Rates apiResponse = Some m → m !! q = Some v →
           supported q = true → q ≠ X →
           {| services.from := X; services.to := q;
              services.rate := v; services.err := None |} ∈ ds
           ∧ (plainCodes rf →
              ∃ item,
                cache.data (services.wcache w') !! cache.generateKey X q ""
                = Some item
                ∧ services.writtenBy (services.clock σ)
                    (cache.ttl (services.wcache w)) v item)).
Proof.
  intros Hnd HB Hvalid Hfail ds w'.
  split; [by apply failures_delivered|].
  split; [by apply errorCount_delivered|].
  split; [intros r; by eapply failed_base_no_write|].
  split; [intros Hplain q date; by eapply failed_base_untouched|].
  intros X apiResponse HX Hok. split.
  - split; [by eapply selfRate_delivered|].
    intros Hplain. by eapply selfRate_written.
  - intros m q v Hm Hq Hs Hne. split; [by eapply rate_delivered|].
    intros Hplain. by eapply rate_written.
Qed.

End refresh_claims.

Section refresh_samples.

Lemma sample_plainCodes :
  services.plainCodes sample.SupportedCurrencies sample.fetcher.
Proof.
  apply NewRateFetcher_plainCodes. apply (bool_decide_unpack _).
  vm_compute. exact I.
Qed.

Lemma refresh_writes_self_witness :
  "USD" ∈ services.currencies sample.fetcher
  ∧ services.selfRate "USD"
    ∈ services.delivered sample.SupportedCurrencies sample.fetcher
        sample.schedule
  ∧ ∃ item,
      cache.data
        (services.wcache
           (services.fetchAllRates sample.SupportedCurrencies sample.fetcher
              sample.schedule (sample.emptyWorld time.Hour)).2)
        !! cache.generateKey "USD" "USD" "" = Some item
      ∧ cache.Rate item = 1.0%float.
Proof.
  assert (Hin : "USD" ∈ services.currencies sample.fetcher)
    by (apply (bool_decide_unpack _); vm_compute; exact I).
  destruct (refresh_writes_self sample.SupportedCurrencies sample.fetcher
              sample.schedule (sample.emptyWorld time.Hour) "USD" Hin)
    as [_ Hmatch].
  assert (Hok : external.latestOutcome (services.client sample.fetcher) "USD"
                = inl {| models.Rates := Some sample.usdRates |})
    by (vm_compute; reflexivity).
  rewrite Hok in Hmatch. destruct Hmatch as (Hself & _ & Hstate).
  destruct (Hstate sample_plainCodes) as (item & Hitem & Hrate & _).
  split; [exact Hin|]. split; [exact Hself|].
  exists item. split; [exact Hitem|exact Hrate].
Defined.

(** C1 fails as stated: the call for INR fails, and after the pass the
    cache has nothing under the key of (INR, INR), while it has [1.0] under
    that of (USD, USD), whose call succeeded. *)
Lemma refresh_skips_failed_base :
  "INR" ∈ services.currencies sample.fetcher
  ∧ external.latestOutcome (services.client sample.fetcher) "INR"
    = inr sample.fetchDown
  ∧ cache.data
      (services.wcache
         (services.fetchAllRates sample.SupportedCurrencies sample.fetcher
            sample.schedule (sample.emptyWorld time.Hour)).2)
      !! cache.generateKey "INR" "INR" "" = None
  ∧ (cache.Get "INR" "INR" "" 10
       (services.wcache
          (services.fetchAllRates sample.SupportedCurrencies sample.fetcher
             sample.schedule (sample.emptyWorld time.Hour)).2)).1
    = (0%float, false)
  ∧ (cache.Get "USD" "USD" "" 10
       (services.wcache
          (services.fetchAllRates sample.SupportedCurrencies sample.fetcher
             sample.schedule (sample.emptyWorld time.Hour)).2)).1
    = (1.0%float, true).
Proof.
  split; [apply (bool_decide_unpack _); vm_compute; exact I|].
  split; [vm_compute; reflexivity|]. split; [vm_compute; reflexivity|].
  split; vm_compute; reflexivity.
Qed.

Lemma refresh_isolates_failure_witness :
  NoDup (services.currencies sample.fetcher)
  ∧ "INR" ∈ services.currencies sample.fetcher
  ∧ services.range_valid (services.visit sample.schedule)
  ∧ external.latestOutcome (services.client sample.fetcher) "INR"
    = inr sample.fetchDown
  ∧ filter (λ r, services.from r = "INR")
      (services.delivered sample.SupportedCurrencies sample.fetcher
         sample.schedule)
    ≡ₚ map (services.failure "INR" sample.fetchDown)
         ["GBP"; "USD"; "EUR"; "JPY"]
  ∧ (services.fetchAllRates sample.SupportedCurrencies sample.fetcher
       sample.schedule (sample.emptyWorld time.Hour)).1.2 = 16
  ∧ ∃ item,
      cache.data
        (services.wcache
           (services.fetchAllRates sample.SupportedCurrencies sample.fetcher
              sample.schedule (sample.emptyWorld time.Hour)).2)
        !! cache.generateKey "USD" "INR" "" = Some item
      ∧ cache.Rate item = 83.5%float.
Proof.
  assert (Hnd : NoDup (services.currencies sample.fetcher))
    by apply NewRateFetcher_NoDup.
  assert (Hin : "INR" ∈ services.currencies sample.fetcher)
    by (apply (bool_decide_unpack _); vm_compute; exact I).
  assert (Hvalid : services.range_valid (services.visit sample.schedule))
    by (by intros base m).
  assert (Hfail : external.latestOutcome (services.client sample.fetcher)
                    "INR" = inr sample.fetchDown)
    by (vm_compute; reflexivity).
  destruct (refresh_isolates_failure sample.SupportedCurrencies
              sample.fetcher sample.schedule (sample.emptyWorld time.Hour)
              "INR" sample.fetchDown Hnd Hin Hvalid Hfail)
    as (Hfailures & Hcount & _ & _ & Hothers).
  split; [exact Hnd|]. split; [exact Hin|]. split; [exact Hvalid|].
  split; [exact Hfail|].
  split.
  { assert (Hl : filter (λ q, q ≠ "INR") (services.currencies sample.fetcher)
                 = ["GBP"; "USD"; "EUR"; "JPY"]) by (vm_compute; reflexivity).
    rewrite <- Hl. exact Hfailures. }
  split; [rewrite Hcount; vm_compute; reflexivity|].
  assert (Husd : "USD" ∈ services.currencies sample.fetcher)
    by (apply (bool_decide_unpack _); vm_compute; exact I).
  assert (Hok : external.latestOutcome (services.client sample.fetcher) "USD"
                = inl {| models.Rates := Some sample.usdRates |})
    by (vm_compute; reflexivity).
  destruct (Hothers "USD" _ Husd Hok) as [_ Hrates].
  assert (Hinr : sample.usdRates !! "INR" = Some 83.5%float)
    by (vm_compute; reflexivity).
  assert (Hsup : services.supported sample.SupportedCurrencies "INR" = true)
    by (vm_compute; reflexivity).
  assert (Hne : "INR" ≠ "USD") by discriminate.
  destruct (Hrates sample.usdRates "INR" 83.5%float eq_refl Hinr Hsup Hne)
    as [_ Hstate].
  destruct (Hstate sample_plainCodes) as (item & Hitem & Hrate & _).
  exists item. split; [exact Hitem|exact Hrate].
Defined.

End refresh_samples.

(** * Further properties of the cache and of the pull-through path *)

Section cache_more.

Implicit Types (c : cache.MemoryCache).

(** X1. [Get] of a triple under whose key nothing is stored returns
    [(0, false)] and leaves the cache as it was. *)
Theorem Get_absent (from to date : string) (now : time.Time) c :
  cache.data c !! cache.generateKey from to date = None →
  cache.Get from to date now c = ((0%float, false), c).
Proof. intros H. unfold cache.Get, bind, get, ret. by rewrite H. Qed.

Lemma Get_absent_witness :
  cache.data sample.shortLived !! cache.generateKey "EUR" "JPY" "" = None
  ∧ cache.Get "EUR" "JPY" "" 0 sample.shortLived
    = ((0%float, false), sample.shortLived).
Proof.
  assert (H : cache.data sample.shortLived
                !! cache.generateKey "EUR" "JPY" "" = None)
    by (vm_compute; reflexivity).
  split; [exact H|]. apply (Get_absent "EUR" "JPY" "" 0 sample.shortLived H).
Defined.

(** X2. [Delete] removes the entry under the key of its triple, so that a
    [Get] of the triple finds nothing, and it leaves the entry of every
    other key, and the TTL, as they were. *)
Theorem Delete_exact (from to date : string) (now : time.Time) c :
  let c' := (cache.Delete from to date c).2 in
  cache.data c' !! cache.generateKey from to date = None
  ∧ (cache.Get from to date now c').1 = (0%float, false)
  ∧ (∀ k, k ≠ cache.generateKey from to date →
          cache.data c' !! k = cache.data c !! k)
  ∧ cache.ttl c' = cache.ttl c.
Proof.
  intros c'.
  assert (H : cache.data c' !! cache.generateKey from to date = None)
    by apply lookup_delete_eq.
  split; [done|]. split; [by rewrite (Get_stored_none _ _ _ now c' H)|].
  split; [|done]. intros k Hk. by apply lookup_delete_ne.
Qed.

(** X3. After [Clear] the cache stores nothing: [Size] is 0 and [Get] of
    any triple finds nothing; the TTL is kept. *)
Theorem Clear_empty (from to date : string) (now : time.Time) c :
  let c' := (cache.Clear c).2 in
  (cache.Size c').1 = 0
  ∧ (cache.Get from to date now c').1 = (0%float, false)
  ∧ cache.ttl c' = cache.ttl c.
Proof. done. Qed.

(** X5. One firing of the sweep, in whatever order it visits the entries,
    removes exactly the entries whose expiry is before its instant: every
    other entry, and the TTL, stay as they were. *)
Theorem cleanupTick_exact (now : time.Time) c
    (items : list (string * cache.CacheItem)) (k : string) :
  items ≡ₚ map_to_list (cache.data c) →
  let c' := (cache.cleanupTick_in items now c).2 in
  cache.data c' !! k
  = match cache.data c !! k with
    | Some item =>
        if time.After now (cache.ExpiresAt item) then None else Some item
    | None => None
    end
  ∧ cache.ttl c' = cache.ttl c.
Proof.
  intros Hperm c'. split; [|done]. subst c'. simpl.
  destruct (cache.data c !! k) as [item|] eqn:E.
  - destruct (time.After now (cache.ExpiresAt item)) eqn:Hexp.
    + apply sweepItems_expired with item; [|done].
      rewrite Hperm. by apply elem_of_map_to_list.
    + rewrite sweepItems_kept; [done|]. intros item' Hin.
      rewrite Hperm in Hin. apply elem_of_map_to_list in Hin. congruence.
  - by apply sweepItems_absent.
Qed.

Lemma cleanupTick_exact_witness :
  map_to_list (cache.data sample.shortLived)
    ≡ₚ map_to_list (cache.data sample.shortLived)
  ∧ cache.data (cache.cleanupTick (50 * time.Millisecond)
                  sample.shortLived).2
      !! cache.generateKey "USD" "INR" "" = Some sample.shortLivedItem
  ∧ cache.data (cache.cleanupTick (5 * time.Minute) sample.shortLived).2
      !! cache.generateKey "USD" "INR" "" = None.
Proof.
  split; [reflexivity|]. split.
  - destruct (cleanupTick_exact (50 * time.Millisecond) sample.shortLived
                (map_to_list (cache.data sample.shortLived))
                (cache.generateKey "USD" "INR" "") ltac:(reflexivity))
      as [H _].
    unfold cache.cleanupTick. rewrite H. vm_compute. reflexivity.
  - destruct (cleanupTick_exact (5 * time.Minute) sample.shortLived
                (map_to_list (cache.data sample.shortLived))
                (cache.generateKey "USD" "INR" "") ltac:(reflexivity))
      as [H _].
    unfold cache.cleanupTick. rewrite H. vm_compute. reflexivity.
Defined.

(** For a map of fewer than 2^63 entries, [len] is the number of
    entries. *)
Lemma len_exact {V} (m : gmap string V) :
  Z.of_nat (size m) < 2 ^ 63 → len m = Z.of_nat (size m).
Proof. intros H. apply wrap64_small. lia. Qed.

End cache_more.

Section pull_through.

Implicit Types (rf : services.RateFetcher) (w : services.World).

(** X4. When the client's pair call succeeds with a rate, the on-demand
    fetch returns that rate without error and has written it under the
    triple with the empty date: a [Get] of it, at any instant not after
    the write's instant plus the TTL, finds that rate. *)
Theorem on_demand_success rf (from to : string) (now now' : time.Time) w
    (rate : float64) (n' : external.Net) :
  external.GetRateForPair (services.client rf) from to (services.wnet w)
  = ((rate, None), n') →
  now' ≤ time.Add now (cache.ttl (services.wcache w)) →
  let w' := (services.FetchRateOnDemand rf from to now w).2 in
  (services.FetchRateOnDemand rf from to now w).1 = (rate, None)
  ∧ services.wnet w' = n'
  ∧ (cache.Get from to "" now' (services.wcache w')).1 = (rate, true).
Proof.
  intros H Hnow w'. subst w'. rewrite FetchRateOnDemand_run, H. simpl.
  split; [done|]. split; [done|]. by apply Get_after_Set_fst.
Qed.

Lemma on_demand_success_witness :
  (services.FetchRateOnDemand (sample.rateFetcher ["USD"; "INR"])
     "USD" "INR" 0 (sample.emptyWorld time.Hour)).1 = (83.5%float, None)
  ∧ services.wnet
      (services.FetchRateOnDemand (sample.rateFetcher ["USD"; "INR"])
         "USD" "INR" 0 (sample.emptyWorld time.Hour)).2
    = ["https://api.exchangerate-api.com/v4/latest/USD"]
  ∧ (cache.Get "USD" "INR" "" 5
       (services.wcache
          (services.FetchRateOnDemand (sample.rateFetcher ["USD"; "INR"])
             "USD" "INR" 0 (sample.emptyWorld time.Hour)).2)).1
    = (83.5%float, true).
Proof.
  apply (on_demand_success (sample.rateFetcher ["USD"; "INR"])
           "USD" "INR" 0 5 (sample.emptyWorld time.Hour) 83.5%float
           ["https://api.exchangerate-api.com/v4/latest/USD"]).
  - vm_compute. reflexivity.
  - vm_compute. discriminate.
Defined.

End pull_through.

(** * The scenarios of the cache's unit tests, run on the model *)

Section cache_tests.

(** TestMemoryCache_BasicOperations. *)
Example test_BasicOperations :
  let c := (cache.Set_ "USD" "INR" "" 83.5%float 0
              (cache.NewMemoryCache (1 * time.Hour))).2 in
  (cache.Get "USD" "INR" "" 1 c).1 = (83.5%float, true)
  ∧ (cache.Get "EUR" "JPY" "" 1 c).1.2 = false.
Proof. split; vm_compute; reflexivity. Qed.

(** TestMemoryCache_Expiration. *)
Example test_Expiration :
  let c := (cache.Set_ "USD" "INR" "" 83.5%float 0
              (cache.NewMemoryCache (100 * time.Millisecond))).2 in
  (cache.Get "USD" "INR" "" 1 c).1.2 = true
  ∧ (cache.Get "USD" "INR" "" (150 * time.Millisecond) c).1.2 = false.
Proof. split; vm_compute; reflexivity. Qed.

(** TestMemoryCache_Size. *)
Example test_Size :
  let c0 := cache.NewMemoryCache (1 * time.Hour) in
  let c1 := (cache.Set_ "USD" "INR" "" 83.5%float 0 c0).2 in
  let c2 := (cache.Set_ "EUR" "USD" "" 1.5%float 1 c1).2 in
  let c3 := (cache.Delete "USD" "INR" "" c2).2 in
  (cache.Size c0).1 = 0 ∧ (cache.Size c1).1 = 1
  ∧ (cache.Size c2).1 = 2 ∧ (cache.Size c3).1 = 1.
Proof. repeat split; vm_compute; reflexivity. Qed.

(** TestMemoryCache_Stats. *)
#[warnings="-inexact-float"]
Example test_Stats :
  let c0 := cache.NewMemoryCache (100 * time.Millisecond) in
  let c1 := (cache.Set_ "USD" "INR" "" 83.5%float 0 c0).2 in
  let c2 := (cache.Set_ "EUR" "USD" "" 1.5%float 1 c1).2 in
  (cache.GetStats 2 c2).1
  = {| cache.total_items := 2; cache.valid_items := 2;
       cache.expired_items := 0; cache.ttl_seconds := 0.1%float |}
  ∧ (cache.GetStats (150 * time.Millisecond) c2).1
    = {| cache.total_items := 2; cache.valid_items := 0;
         cache.expired_items := 2; cache.ttl_seconds := 0.1%float |}.
Proof. split; vm_compute; reflexivity. Qed.

End cache_tests.


(** * More properties of the cache *)

Section cache_upsert.

Implicit Types (c : cache.MemoryCache).

(** X6. [Set] is an upsert: the entry under the key of its triple becomes
    the given rate with expiry the write's instant plus the TTL, the entry
    of every other key and the TTL stay as they were, and [Size] stays the
    same when the key had an entry, expired or not, and grows by one
    otherwise. *)
Theorem Set_upsert (from to date : string) (rate : float64)
    (now : time.Time) c :
  let key := cache.generateKey from to date in
  let c' := (cache.Set_ from to date rate now c).2 in
  cache.data c' !! key
  = Some {| cache.Rate := rate;
            cache.ExpiresAt := time.Add now (cache.ttl c) |}
  ∧ (∀ k, k ≠ key → cache.data c' !! k = cache.data c !! k)
  ∧ cache.ttl c' = cache.ttl c
  ∧ (cache.Size c').1
    = match cache.data c !! key with
      | Some _ => (cache.Size c).1
      | None => int_incr (cache.Size c).1
      end.
Proof.
  intros key c'. split; [apply lookup_insert_eq|].
  split; [intros k Hk; by apply lookup_insert_ne|]. split; [done|].
  subst c'. simpl. destruct (cache.data c !! key) as [old|] eqn:E.
  - unfold len. do 2 f_equal. apply map_size_insert_Some. by exists old.
  - by apply len_insert_fresh.
Qed.

(** X7. Right after a firing of the sweep, the statistics taken at the
    sweep's instant or earlier report no expired entry: [expired_items] is
    0 and [valid_items] equals [total_items], whatever the orders in which
    the sweep and the statistics range over the entries. *)
Theorem GetStats_after_sweep (now now' : time.Time) c
    (items items' : list (string * cache.CacheItem)) :
  items ≡ₚ map_to_list (cache.data c) →
  let c' := (cache.cleanupTick_in items now c).2 in
  items' ≡ₚ map_to_list (cache.data c') →
  now' ≤ now →
  let s := (cache.GetStats_in items' now' c').1 in
  cache.expired_items s = 0
  ∧ cache.valid_items s = cache.total_items s.
Proof.
  intros Hperm c' Hperm' Hnow. unfold cache.GetStats_in, bind, get, ret.
  change (0, 0) with (wrap64 0, wrap64 0). rewrite countItems_spec. simpl.
  assert (Hfresh : ∀ kv, kv ∈ items' →
            time.After now' (cache.ExpiresAt kv.2) = false).
  { intros [k item] Hin. rewrite Hperm' in Hin.
    apply elem_of_map_to_list in Hin. subst c'. simpl in Hin. simpl.
    destruct (cache.data c !! k) as [item0|] eqn:E0;
      [|by rewrite sweepItems_absent in Hin].
    assert (Hin0 : (k, item0) ∈ items)
      by (rewrite Hperm; by apply elem_of_map_to_list).
    destruct (time.After now (cache.ExpiresAt item0)) eqn:E1.
    - by rewrite (sweepItems_expired now items _ k item0 Hin0 E1) in Hin.
    - rewrite sweepItems_kept in Hin.
      + assert (item = item0) as -> by congruence.
        unfold time.After in *. apply Z.ltb_ge. apply Z.ltb_ge in E1. lia.
      + intros item1 Hin1. rewrite Hperm in Hin1.
        apply elem_of_map_to_list in Hin1. congruence. }
  rewrite (filter_drop_all _ items') by (intros kv Hkv; by rewrite Hfresh).
  rewrite (filter_keep_all _ items') by done.
  split; [done|]. unfold len. f_equal.
  by rewrite Z.add_0_l, Hperm', length_map_to_list.
Qed.

Lemma GetStats_after_sweep_witness :
  150 * time.Millisecond ≤ 150 * time.Millisecond
  ∧ (cache.Size scenario.mixed).1 = 2
  ∧ cache.total_items
      (cache.GetStats_in
         (map_to_list
            (cache.data
               (cache.cleanupTick_in
                  (map_to_list (cache.data scenario.mixed))
                  (150 * time.Millisecond) scenario.mixed).2))
         (150 * time.Millisecond)
         (cache.cleanupTick_in (map_to_list (cache.data scenario.mixed))
            (150 * time.Millisecond) scenario.mixed).2).1 = 1
  ∧ cache.expired_items
      (cache.GetStats_in
         (map_to_list
            (cache.data
               (cache.cleanupTick_in
                  (map_to_list (cache.data scenario.mixed))
                  (150 * time.Millisecond) scenario.mixed).2))
         (150 * time.Millisecond)
         (cache.cleanupTick_in (map_to_list (cache.data scenario.mixed))
            (150 * time.Millisecond) scenario.mixed).2).1 = 0.
Proof.
  assert (Hnow : 150 * time.Millisecond ≤ 150 * time.Millisecond)
    by reflexivity.
  split; [exact Hnow|]. split; [vm_compute; reflexivity|].
  split; [vm_compute; reflexivity|].
  destruct (GetStats_after_sweep (150 * time.Millisecond)
              (150 * time.Millisecond) scenario.mixed
              (map_to_list (cache.data scenario.mixed))
              (map_to_list
                 (cache.data
                    (cache.cleanupTick_in
                       (map_to_list (cache.data scenario.mixed))
                       (150 * time.Millisecond) scenario.mixed).2))
              (reflexivity _) (reflexivity _) Hnow) as [Hexpired _].
  exact Hexpired.
Defined.

End cache_upsert.


(** * Properties of the validation of currencies and of [GetLatestRate] *)

Section latest_rate.

Implicit Types (s : exchange.ExchangeService) (w : services.World).

Lemma supported_codes (c : string) :
  services.supported models.SupportedCurrencies c = true ↔ c ∈ codes.
Proof.
  unfold services.supported, models.SupportedCurrencies, codes.
  destruct (list_to_map _ !! c) as [v|] eqn:E; simpl.
  - apply elem_of_list_to_map in E;
      [|apply (bool_decide_unpack _); vm_compute; exact I].
    repeat (apply elem_of_cons in E as [[= -> ->]|E]);
      try (split; [intros _; set_solver|done]).
    by apply elem_of_nil in E.
  - apply not_elem_of_list_to_map in E. split; [done|].
    intros Hin. exfalso. apply E. simpl.
    repeat (apply elem_of_cons in Hin as [->|Hin]); [set_solver..|].
    by apply elem_of_nil in Hin.
Qed.

Lemma codes_USD : "USD" ∈ codes.
Proof. apply (bool_decide_unpack _). vm_compute. exact I. Qed.

Lemma codes_INR : "INR" ∈ codes.
Proof. apply (bool_decide_unpack _). vm_compute. exact I. Qed.

Lemma supported_plain (c : string) :
  services.supported models.SupportedCurrencies c = true →
  underscore_free c = true.
Proof.
  intros Hc%supported_codes. unfold codes in Hc.
  repeat (apply elem_of_cons in Hc as [->|Hc]); [done..|].
  by apply elem_of_nil in Hc.
Qed.

Lemma ValidateCurrency_None (c : string) :
  utils.ValidateCurrency c = None
  ↔ services.supported models.SupportedCurrencies c = true.
Proof.
  unfold utils.ValidateCurrency.
  by destruct (services.supported models.SupportedCurrencies c).
Qed.

Lemma ValidateCurrencyPair_None (from to : string) :
  utils.ValidateCurrencyPair from to = None
  ↔ services.supported models.SupportedCurrencies from = true
    ∧ services.supported models.SupportedCurrencies to = true.
Proof.
  unfold utils.ValidateCurrencyPair.
  rewrite <- !ValidateCurrency_None.
  destruct (utils.ValidateCurrency from), (utils.ValidateCurrency to);
    split; try done; intros [? ?]; done.
Qed.

(** X8. [ValidateCurrencyPair] accepts a pair exactly when both codes are
    among USD, INR, EUR, JPY and GBP, spelled so; it checks the first code
    first: when that one is not supported the error is the one of
    [ValidateCurrency] for it, wrapped as the invalid from currency,
    whatever the second code is. *)
Theorem ValidateCurrencyPair_accepts (from to : string) :
  (utils.ValidateCurrencyPair from to = None ↔ from ∈ codes ∧ to ∈ codes)
  ∧ (from ∉ codes →
     ∃ e, utils.ValidateCurrency from = Some e
          ∧ utils.ValidateCurrencyPair from to
            = Some (wrapError ("invalid 'from' currency: " +:+ Error e) e))
  ∧ (from ∈ codes → to ∉ codes →
     ∃ e, utils.ValidateCurrency to = Some e
          ∧ utils.ValidateCurrencyPair from to
            = Some (wrapError ("invalid 'to' currency: " +:+ Error e) e)).
Proof.
  split; [by rewrite ValidateCurrencyPair_None, !supported_codes|].
  unfold utils.ValidateCurrencyPair. split.
  - intros Hfrom. destruct (utils.ValidateCurrency from) as [e|] eqn:E.
    + by exists e.
    + by apply ValidateCurrency_None, supported_codes in E.
  - intros Hfrom Hto.
    apply supported_codes, ValidateCurrency_None in Hfrom. rewrite Hfrom.
    destruct (utils.ValidateCurrency to) as [e|] eqn:E.
    + by exists e.
    + by apply ValidateCurrency_None, supported_codes in E.
Qed.

Lemma GetRateForPair_run (c : external.ExchangeRateClient)
    (from to : string) (n : external.Net) :
  from ≠ to →
  external.GetRateForPair c from to n
  = (match external.latestOutcome c from with
     | inr e => (0%float, Some e)
     | inl apiResponse =>
         match models.index (models.Rates apiResponse) to with
         | None =>
             (0%float,
              Some (errorString ("rate not found for currency pair "
                                 +:+ from +:+ "/" +:+ to)))
         | Some rate => (rate, None)
         end
     end,
     n ++ [external.latestURL c from]).
Proof.
  intros Hne. unfold external.GetRateForPair. rewrite decide_False by done.
  unfold bind. rewrite GetLatestRates_run.
  destruct (external.latestOutcome c from) as [apiResponse|e]; [|done].
  by destruct (models.index _ _).
Qed.

Lemma getLatestRate_hit (rf : services.RateFetcher) (from to : string)
    (now now' : time.Time) w (item : cache.CacheItem) :
  from ≠ to →
  cache.data (services.wcache w) !! cache.generateKey from to "" = Some item →
  now ≤ cache.ExpiresAt item →
  services.getLatestRate rf from to now now' w
  = ((cache.Rate item, None), w).
Proof.
  intros Hne Hitem Hnow. unfold services.getLatestRate.
  rewrite decide_False by done. unfold bind, services.onCache.
  rewrite (Get_stored _ _ _ _ _ _ Hitem Hnow). simpl. by destruct w.
Qed.

Lemma getLatestRate_miss (rf : services.RateFetcher) (from to : string)
    (now now' : time.Time) w :
  from ≠ to →
  (cache.Get from to "" now (services.wcache w)).1.2 = false →
  services.getLatestRate rf from to now now' w
  = (let r := services.FetchRateOnDemand rf from to now' w in
     match r.1.2 with
     | Some e =>
         ((0%float, Some (Errorf_w "failed to fetch rate from API: " e)), r.2)
     | None => ((r.1.1, None), r.2)
     end).
Proof.
  intros Hne Hmiss. unfold services.getLatestRate.
  rewrite decide_False by done. unfold bind, services.onCache.
  assert (Hsame : (cache.Get from to "" now (services.wcache w)).2
                  = services.wcache w).
  { unfold cache.Get, bind, get, ret.
    destruct (cache.data _ !! _) as [item|]; [|done].
    by destruct (time.After _ _). }
  destruct (cache.Get from to "" now (services.wcache w))
    as [[rate found] c'] eqn:E. simpl in *. subst found c'.
  replace {| services.wcache := services.wcache w;
             services.wnet := services.wnet w |} with w by (by destruct w).
  destruct (services.FetchRateOnDemand rf from to now' w)
    as [[rate' [e|]] w']; done.
Qed.

(** X9. [GetLatestRate] of a pair with a code that is not supported
    returns rate 0 and the validation error, and neither looks into the
    cache nor sends a request: the world is as it was. *)
Theorem GetLatestRate_unsupported s (from to : string)
    (now now' : time.Time) w :
  from ∉ codes ∨ to ∉ codes →
  ∃ e, utils.ValidateCurrencyPair from to = Some e
       ∧ exchange.GetLatestRate s from to now now' w = ((0%float, Some e), w).
Proof.
  intros Hbad. unfold exchange.GetLatestRate.
  destruct (utils.ValidateCurrencyPair from to) as [e|] eqn:E.
  - by exists e.
  - apply ValidateCurrencyPair_None in E
      as [Hfrom%supported_codes Hto%supported_codes].
    by destruct Hbad.
Qed.

Lemma GetLatestRate_unsupported_witness :
  ("usd" ∉ codes ∨ "INR" ∉ codes)
  ∧ (exchange.GetLatestRate (program.service [] sample.remote)
       "usd" "INR" 0 0 program.initial).2 = program.initial.
Proof.
  assert (H : "usd" ∉ codes ∨ "INR" ∉ codes)
    by (left; apply (bool_decide_unpack _); vm_compute; exact I).
  split; [exact H|].
  destruct (GetLatestRate_unsupported (program.service [] sample.remote)
              "usd" "INR" 0 0 program.initial H) as (e & _ & Heq).
  by rewrite Heq.
Defined.


(** X10. [GetLatestRate] of two different supported currencies whose
    latest rate is in the cache and has not expired returns that rate
    without error and sends no request: the world is as it was. *)
Theorem GetLatestRate_hit s (from to : string) (now now' : time.Time) w
    (item : cache.CacheItem) :
  from ∈ codes → to ∈ codes → from ≠ to →
  cache.data (services.wcache w) !! cache.generateKey from to "" = Some item →
  now ≤ cache.ExpiresAt item →
  exchange.GetLatestRate s from to now now' w = ((cache.Rate item, None), w).
Proof.
  intros Hfrom Hto Hne Hitem Hnow. unfold exchange.GetLatestRate.
  rewrite (proj2 (ValidateCurrencyPair_None from to))
    by (by rewrite !supported_codes).
  by apply getLatestRate_hit.
Qed.

#[warnings="-inexact-float"]
Lemma GetLatestRate_hit_witness :
  cache.data (services.wcache scenario.warm)
    !! cache.generateKey "USD" "INR" ""
  = Some {| cache.Rate := 83.5%float;
            cache.ExpiresAt := scenario.now + 1 * time.Hour |}
  ∧ exchange.GetLatestRate scenario.offline "USD" "INR"
      (scenario.now + 1 * time.Hour) (scenario.now + 1 * time.Hour)
      scenario.warm
    = ((83.5%float, None), scenario.warm).
Proof.
  assert (Hitem : cache.data (services.wcache scenario.warm)
                    !! cache.generateKey "USD" "INR" ""
                  = Some {| cache.Rate := 83.5%float;
                            cache.ExpiresAt := scenario.now + 1 * time.Hour |})
    by (vm_compute; reflexivity).
  split; [exact Hitem|].
  exact (GetLatestRate_hit scenario.offline "USD" "INR"
           (scenario.now + 1 * time.Hour) (scenario.now + 1 * time.Hour)
           scenario.warm _ codes_USD codes_INR ltac:(discriminate) Hitem
           (Z.le_refl _)).
Defined.




(** X12. When [GetLatestRate] of two different supported currencies misses
    the cache and the client's call fails with [e], it returns rate 0 and
    [e] wrapped once, having sent the one request for the base; the cache
    is exactly what it was, so nothing about the failure is remembered. *)
Theorem GetLatestRate_failure s (from to : string) (now now' : time.Time) w
    (e : error) :
  from ∈ codes → to ∈ codes → from ≠ to →
  (cache.Get from to "" now (services.wcache w)).1.2 = false →
  external.latestOutcome (services.client (exchange.rateFetcher s)) from
  = inr e →
  exchange.GetLatestRate s from to now now' w
  = ((0%float,
      Some (wrapError ("failed to fetch rate from API: " +:+ Error e) e)),
     {| services.wcache := services.wcache w;
        services.wnet :=
          services.wnet w
          ++ [external.latestURL (services.client (exchange.rateFetcher s))
                from] |}).
Proof.
  intros Hfrom Hto Hne Hmiss Hfail. unfold exchange.GetLatestRate.
  rewrite (proj2 (ValidateCurrencyPair_None from to))
    by (by rewrite !supported_codes).
  rewrite getLatestRate_miss, FetchRateOnDemand_run, GetRateForPair_run
    by done.
  by rewrite Hfail.
Qed.

Lemma GetLatestRate_failure_witness :
  (cache.Get "INR" "USD" "" scenario.now
     (services.wcache program.initial)).1.2 = false
  ∧ external.latestOutcome
      (services.client (exchange.rateFetcher scenario.service)) "INR"
    = inr sample.fetchDown
  ∧ exchange.GetLatestRate scenario.service "INR" "USD" scenario.now
      scenario.now program.initial
    = ((0%float,
        Some (wrapError
                ("failed to fetch rate from API: " +:+ Error sample.fetchDown)
                sample.fetchDown)),
       {| services.wcache := services.wcache program.initial;
          services.wnet :=
            services.wnet program.initial
            ++ [external.latestURL
                  (services.client (exchange.rateFetcher scenario.service))
                  "INR"] |}).
Proof.
  assert (Hmiss : (cache.Get "INR" "USD" "" scenario.now
                     (services.wcache program.initial)).1.2 = false)
    by (vm_compute; reflexivity).
  assert (Hfail : external.latestOutcome
                    (services.client (exchange.rateFetcher scenario.service))
                    "INR" = inr sample.fetchDown)
    by (vm_compute; reflexivity).
  split; [exact Hmiss|]. split; [exact Hfail|].
  exact (GetLatestRate_failure scenario.service "INR" "USD" scenario.now
           scenario.now program.initial sample.fetchDown codes_INR codes_USD
           ltac:(discriminate) Hmiss Hfail).
Defined.

End latest_rate.


(** * Properties of the lifecycle over whole runs *)

Section lifecycle_runs.

Implicit Types (s : services.Lifecycle) (events : list program.event).

Local Existing Instance services.goroutine_eq_dec.

Lemma periodicLoops_launch s :
  services.periodicLoops
    {| services.isRunning := true;
       services.ctxDone := services.ctxDone s;
       services.goroutines :=
         services.goroutines s
         ++ [services.go_fetchAllRates; services.go_periodicFetch] |}
  = S (services.periodicLoops s).
Proof.
  unfold services.periodicLoops. simpl.
  rewrite filter_app, length_app. simpl. lia.
Qed.


Lemma after_ctxDone (e : program.event) s :
  services.ctxDone s = true → services.ctxDone (program.after e s) = true.
Proof.
  intros H. destruct e; simpl.
  - unfold services.Start, bind, get, put, ret.
    by destruct (services.isRunning s).
  - unfold services.Stop, bind, get, put, ret.
    by destruct (services.isRunning s).
  - by rewrite H.
Qed.

Lemma lifecycle_after_snoc events (e : program.event) :
  lifecycle_after (events ++ [e]) = program.after e (lifecycle_after events).
Proof. unfold lifecycle_after. by rewrite foldl_app. Qed.

(** X13. Over every run of [Start]s, [Stop]s and returns of periodic
    loops on a new fetcher: as long as the context is not cancelled there
    is exactly one periodic loop when the fetcher is running and none when
    it is not, however often [Start] was called; and once the context is
    cancelled it stays cancelled, whatever is called afterwards. *)
Theorem lifecycle_invariant events :
  let s := lifecycle_after events in
  (services.ctxDone s = false →
   services.periodicLoops s
   = (if services.isRunning s then 1 else 0)%nat)
  ∧ (services.ctxDone s = true →
     ∀ events', services.ctxDone (lifecycle_after (events ++ events')) = true).
Proof.
  split.
  - induction events as [|e events IH] using rev_ind; [done|].
    rewrite lifecycle_after_snoc.
    set (s := lifecycle_after events) in *. destruct e; simpl.
    + unfold services.Start, bind, get, put, ret.
      destruct (services.isRunning s) eqn:R; simpl.
      * by rewrite R.
      * intros D. by rewrite periodicLoops_launch, (IH D).
    + unfold services.Stop, bind, get, put, ret.
      destruct (services.isRunning s) eqn:R; simpl; [done|].
      by rewrite R.
    + destruct (services.ctxDone s) eqn:D; [done|]. by rewrite D.
  - intros D events'.
    induction events' as [|e events' IH] using rev_ind.
    + by rewrite app_nil_r.
    + rewrite app_assoc, lifecycle_after_snoc. by apply after_ctxDone.
Qed.



End lifecycle_runs.


(** * More properties of a refresh pass *)

Section refresh_more.

Variable SupportedCurrencies : gmap string bool.

Implicit Types (rf : services.RateFetcher) (σ : services.Schedule)
  (r : services.rateResult) (w : services.World).

Local Abbreviation baseQueue := (services.baseQueue SupportedCurrencies).
Local Abbreviation delivered := (services.delivered SupportedCurrencies).
Local Abbreviation supported := (services.supported SupportedCurrencies).
Local Abbreviation plainCodes := (services.plainCodes SupportedCurrencies).
Local Abbreviation fetchAllRates :=
  (services.fetchAllRates SupportedCurrencies).

Lemma sendRates_to (b : string) (visited : list (string * float64)) :
  map services.to (services.sendRates SupportedCurrencies b visited)
  = filter (λ q, supported q = true ∧ q ≠ b) visited.*1.
Proof.
  induction visited as [|[q v] visited IH]; [done|].
  change (((q, v) :: visited).*1) with (q :: visited.*1).
  rewrite filter_cons. cbn [services.sendRates].
  destruct (decide (supported q = true ∧ q ≠ b)) as [[Hs Hq]|Hno].
  - rewrite Hs, bool_decide_eq_true_2 by done. simpl. by rewrite IH.
  - destruct (supported q) eqn:Es; simpl; [|done].
    rewrite bool_decide_eq_false_2; [done|]. intros Hq. by apply Hno.
Qed.

Lemma length_baseQueue rf σ (b : string) :
  NoDup (services.currencies rf) → b ∈ services.currencies rf →
  (∀ q, supported q = true → q ∈ services.currencies rf) →
  services.range_valid (services.visit σ) →
  (length (baseQueue rf (services.visit σ) b)
   ≤ length (services.currencies rf))%nat.
Proof.
  intros Hnd Hb Hsup Hvalid.
  pose proof (length_filter_others _ b Hnd Hb) as Hothers.
  assert (Hpos : (0 < length (services.currencies rf))%nat)
    by (destruct (services.currencies rf); [by apply elem_of_nil in Hb|
        simpl; lia]).
  destruct (external.latestOutcome (services.client rf) b)
    as [apiResponse|e] eqn:E.
  - rewrite (baseQueue_ok _ _ _ _ _ E), length_app. simpl.
    rewrite <- (length_map services.to), sendRates_to.
    assert (Hle : (length
                     (filter (λ q, supported q = true ∧ q ≠ b)
                        (services.ranged (services.visit σ b)
                           (models.Rates apiResponse)).*1)
                   ≤ length (filter (λ q, q ≠ b) (services.currencies rf)))%nat).
    { apply submseteq_length, NoDup_submseteq.
      - apply NoDup_filter.
        destruct (models.Rates apiResponse) as [m|]; simpl;
          [|by apply NoDup_nil].
        rewrite (Hvalid b m). apply NoDup_fst_map_to_list.
      - intros q [[Hs Hq] _]%list_elem_of_filter.
        apply list_elem_of_filter. split; [done|by apply Hsup]. }
    lia.
  - rewrite (baseQueue_failed _ _ _ _ _ E), sendErrors_map, length_map. lia.
Qed.

Lemma length_concat_le {A B} (f : A → list B) (l : list A) (n : nat) :
  (∀ x, x ∈ l → (length (f x) ≤ n)%nat) →
  (length (concat (map f l)) ≤ length l * n)%nat.
Proof.
  induction l as [|x l IH]; intros H; [done|]. simpl.
  rewrite length_app.
  specialize (H x ltac:(by left)) as Hx.
  specialize (IH ltac:(intros; apply H; by right)). lia.
Qed.

(** X15. The channel of a refresh pass never holds more than its buffer:
    with a fetcher whose currency list has no repeats and holds every
    supported code, as [NewRateFetcher] builds it, under every scheduling
    each goroutine sends at most as many results as there are currencies,
    so that at most the square of that number is ever delivered, which is
    the capacity the channel is made with; and the two counters of the
    pass add up to the number of results delivered. *)
Theorem refresh_within_buffer rf σ w :
  NoDup (services.currencies rf) →
  (∀ q, supported q = true → q ∈ services.currencies rf) →
  services.range_valid (services.visit σ) →
  (∀ b, b ∈ services.currencies rf →
        (length (baseQueue rf (services.visit σ) b)
         ≤ length (services.currencies rf))%nat)
  ∧ (length (delivered rf σ)
     ≤ length (services.currencies rf) * length (services.currencies rf))%nat
  ∧ int_add (fetchAllRates rf σ w).1.1 (fetchAllRates rf σ w).1.2
    = wrap64 (Z.of_nat (length (delivered rf σ))).
Proof.
  intros Hnd Hsup Hvalid.
  assert (Hq : ∀ b, b ∈ services.currencies rf →
                    (length (baseQueue rf (services.visit σ) b)
                     ≤ length (services.currencies rf))%nat)
    by (intros b Hb; by apply length_baseQueue).
  split; [done|]. split.
  - rewrite delivered_perm. by apply length_concat_le.
  - rewrite fetchAllRates_run. simpl.
    change (0, 0) with (wrap64 0, wrap64 0). rewrite drain_counts. simpl.
    unfold int_add. rewrite wrap64_add_l, wrap64_add_r. f_equal.
    rewrite !Z.add_0_l, <- Nat2Z.inj_add. f_equal.
    rewrite Nat.add_comm.
    apply (filter_split_length services.isWrite).
Qed.


(** X17. A refresh pass writes latest rates only: with plain codes, the
    entry under the key of any triple whose date is neither empty nor the
    word [latest], and whose codes have no underscore, is after the pass
    what it was before, under every scheduling. *)
Theorem refresh_keeps_dated rf σ w (from to date : string) :
  plainCodes rf →
  underscore_free from = true → underscore_free to = true →
  date ≠ "" → date ≠ "latest" →
  cache.data (services.wcache (fetchAllRates rf σ w).2)
    !! cache.generateKey from to date
  = cache.data (services.wcache w) !! cache.generateKey from to date.
Proof.
  intros Hplain Hfrom Hto Hdate Hlatest. rewrite fetchAllRates_run. simpl.
  apply drain_untouched. intros r Hr Hw Hk.
  destruct (delivered_codes _ _ _ _ Hplain Hr Hw) as [Hf Ht].
  unfold services.keyOf in Hk.
  apply generateKey_pair_inj in Hk as (_ & _ & Htag); [|done..].
  unfold dateTag in Htag. rewrite decide_True in Htag by done.
  rewrite decide_False in Htag by done. done.
Qed.

End refresh_more.

Section refresh_more_samples.

Lemma NewRateFetcher_supported (SupportedCurrencies : gmap string bool)
    (apiClient : external.ExchangeRateClient) (q : string) :
  services.supported SupportedCurrencies q = true →
  q ∈ services.currencies
        (services.NewRateFetcher SupportedCurrencies apiClient).1.
Proof.
  unfold services.supported.
  destruct (SupportedCurrencies !! q) as [v|] eqn:E; [|done].
  intros _. simpl. apply list_elem_of_fmap. exists (q, v).
  split; [done|by apply elem_of_map_to_list].
Qed.

Lemma refresh_within_buffer_witness :
  NoDup (services.currencies sample.fetcher)
  ∧ services.range_valid (services.visit sample.schedule)
  ∧ length (services.currencies sample.fetcher) = 5%nat
  ∧ length (services.delivered sample.SupportedCurrencies sample.fetcher
              sample.schedule) = 19%nat
  ∧ (length (services.delivered sample.SupportedCurrencies sample.fetcher
               sample.schedule)
     ≤ length (services.currencies sample.fetcher)
       * length (services.currencies sample.fetcher))%nat.
Proof.
  assert (Hnd : NoDup (services.currencies sample.fetcher))
    by apply NewRateFetcher_NoDup.
  assert (Hvalid : services.range_valid (services.visit sample.schedule))
    by (by intros base m).
  destruct (refresh_within_buffer sample.SupportedCurrencies sample.fetcher
              sample.schedule (sample.emptyWorld time.Hour) Hnd
              (NewRateFetcher_supported sample.SupportedCurrencies
                 sample.apiClient) Hvalid) as (_ & Hle & _).
  split; [exact Hnd|]. split; [exact Hvalid|].
  split; [vm_compute; reflexivity|]. split; [vm_compute; reflexivity|].
  exact Hle.
Defined.

#[warnings="-inexact-float"]
Lemma refresh_keeps_dated_witness :
  underscore_free "USD" = true ∧ underscore_free "INR" = true
  ∧ "2023-01-01" ≠ "" ∧ "2023-01-01" ≠ "latest"
  ∧ cache.data
      (services.wcache
         (services.fetchAllRates sample.SupportedCurrencies sample.fetcher
            sample.schedule scenario.archive).2)
      !! cache.generateKey "USD" "INR" "2023-01-01"
    = Some {| cache.Rate := 82.0%float;
              cache.ExpiresAt := time.Add 0 time.Hour |}.
Proof.
  assert (Hd : "2023-01-01" ≠ "") by discriminate.
  assert (Hl : "2023-01-01" ≠ "latest") by discriminate.
  split; [reflexivity|]. split; [reflexivity|].
  split; [exact Hd|]. split; [exact Hl|].
  rewrite (refresh_keeps_dated sample.SupportedCurrencies sample.fetcher
             sample.schedule scenario.archive "USD" "INR" "2023-01-01"
             sample_plainCodes eq_refl eq_refl Hd Hl).
  vm_compute. reflexivity.
Defined.

End refresh_more_samples.


(** * Properties of the calendar *)

Section calendar_facts.

Lemma yearDay_spec (d : Z) :
  calendar.daysSinceEpoch (calendar.yearDay d).1 + (calendar.yearDay d).2 = d
  ∧ 0 ≤ (calendar.yearDay d).2
  ∧ (calendar.yearDay d).2
    < 365 + (if calendar.isLeap (calendar.yearDay d).1 then 1 else 0).
Proof.
  unfold calendar.yearDay, calendar.daysSinceEpoch, calendar.isLeap.
  cbv zeta. cbn [fst snd].
  repeat match goal with
  | |- context [Z.rem ?a ?b =? 0] => destruct (Z.eqb_spec (Z.rem a b) 0)
  end; simpl andb; simpl orb; cbv iota.
  all: Z.to_euclidean_division_equations; lia.
Qed.

Lemma monthDay_spec (leap : bool) (yday : Z) :
  0 ≤ yday < 365 + (if leap then 1 else 0) →
  monthDay_ok leap yday = true.
Proof.
  intros Hy.
  assert (Hall : forallb (monthDay_ok true) (seqZ 0 366)
                 && forallb (monthDay_ok false) (seqZ 0 365) = true)
    by (vm_compute; reflexivity).
  apply andb_prop in Hall as [Ht Hf].
  rewrite forallb_forall in Ht, Hf.
  destruct leap; [apply Ht|apply Hf];
    apply list_elem_of_In, elem_of_seqZ; lia.
Qed.

Lemma absDate_spec (d : Z) :
  let '(year, month, day) := calendar.absDate d in
  1 ≤ month ≤ 12 ∧ 1 ≤ day ≤ calendar.daysIn month year
  ∧ calendar.daysSinceEpoch year + calendar.daysBefore (month - 1)
    + (if calendar.isLeap year && (3 <=? month) then 1 else 0) + (day - 1)
    = d
  ∧ year = (calendar.yearDay d).1.
Proof.
  unfold calendar.absDate.
  destruct (yearDay_spec d) as (Hsum & Hlo & Hhi).
  destruct (calendar.yearDay d) as [year yday]. simpl in *.
  pose proof (monthDay_spec (calendar.isLeap year) yday ltac:(lia)) as Hok.
  unfold monthDay_ok in Hok.
  destruct (calendar.monthDay (calendar.isLeap year) yday) as [month day].
  unfold calendar.daysIn.
  repeat (apply andb_prop in Hok as [Hok ?]).
  repeat split; lia.
Qed.

(** The date of an instant, put back together with the time within the
    day, is the instant. *)
Lemma Date_civil (t : time.Time) :
  let '(year, month, day) := calendar.civil t in
  1 ≤ month ≤ 12 ∧ 1 ≤ day ≤ calendar.daysIn month year
  ∧ ∀ days, calendar.Date year month (day + days) (t mod calendar.Day)
            = t + days * calendar.Day.
Proof.
  unfold calendar.civil.
  pose proof (absDate_spec (t / calendar.Day + calendar.unixEpochDays)) as H.
  destruct (calendar.absDate _) as [[year month] day].
  destruct H as (Hm & Hd & Hsum & _). split; [done|]. split; [done|].
  intros days. unfold calendar.Date.
  replace (if calendar.isLeap year && (3 <=? month)
           then calendar.daysSinceEpoch year
                + calendar.daysBefore (month - 1) + 1
           else calendar.daysSinceEpoch year
                + calendar.daysBefore (month - 1))
    with (calendar.daysSinceEpoch year + calendar.daysBefore (month - 1)
          + (if calendar.isLeap year && (3 <=? month) then 1 else 0))
    by (destruct (calendar.isLeap year && (3 <=? month)); lia).
  pose proof (Z.div_mod t calendar.Day ltac:(done)) as Hdm.
  unfold calendar.Day, time.Hour, time.Minute, time.Second in *. lia.
Qed.

(** [AddDate] by days is the addition of that many times 24 hours. *)
Lemma AddDate_days_add (t : time.Time) (days : Z) :
  calendar.AddDate_days t days = t + days * calendar.Day.
Proof.
  unfold calendar.AddDate_days. pose proof (Date_civil t) as H.
  destruct (calendar.civil t) as [[year month] day].
  by destruct H as (_ & _ & ->).
Qed.

End calendar_facts.


Section layout_facts.

Lemma appendInt4_digits (y : Z) :
  0 ≤ y ≤ 9999 →
  calendar.appendInt y 4
  = String (char (y / 1000)) (String (char (y / 100 mod 10))
      (String (char (y / 10 mod 10)) (String (char (y mod 10)) ""))).
Proof.
  intros Hy.
  assert (Hall : forallb appendInt4_ok (seqZ 0 10000) = true)
    by (vm_compute; reflexivity).
  rewrite forallb_forall in Hall. apply String.eqb_eq, Hall.
  apply list_elem_of_In, elem_of_seqZ. lia.
Qed.

Lemma appendInt2_digits (x : Z) :
  0 ≤ x ≤ 99 →
  calendar.appendInt x 2
  = String (char (x / 10)) (String (char (x mod 10)) "").
Proof.
  intros Hx.
  assert (Hall : forallb appendInt2_ok (seqZ 0 100) = true)
    by (vm_compute; reflexivity).
  rewrite forallb_forall in Hall. apply String.eqb_eq, Hall.
  apply list_elem_of_In, elem_of_seqZ. lia.
Qed.

Lemma digit_char (n : Z) : 0 ≤ n ≤ 9 → calendar.digit (char n) = Some n.
Proof.
  intros Hn.
  assert (Hall : forallb (λ n, bool_decide (calendar.digit (char n) = Some n))
                   (seqZ 0 10) = true) by (vm_compute; reflexivity).
  rewrite forallb_forall in Hall.
  apply (bool_decide_eq_true_1 _), Hall, list_elem_of_In, elem_of_seqZ. lia.
Qed.

Lemma layout_chars (y1 y2 y3 y4 m1 m2 d1 d2 : ascii) :
  String y1 (String y2 (String y3 (String y4 ""))) +:+ "-"
  +:+ String m1 (String m2 "") +:+ "-" +:+ String d1 (String d2 "")
  = String y1 (String y2 (String y3 (String y4 (String "-"
      (String m1 (String m2 (String "-" (String d1 (String d2 ""))))))))).
Proof. reflexivity. Qed.

Lemma Parse_digits (year month day : Z) :
  0 ≤ year ≤ 9999 → 1 ≤ month ≤ 12 →
  1 ≤ day ≤ calendar.daysIn month year →
  calendar.Parse
    (calendar.appendInt year 4 +:+ "-" +:+ calendar.appendInt month 2
     +:+ "-" +:+ calendar.appendInt day 2)
  = Some (calendar.Date year month day 0).
Proof.
  intros Hy Hm Hd.
  assert (Hd31 : day ≤ 31).
  { unfold calendar.daysIn in Hd.
    destruct ((month =? 2) && calendar.isLeap year); [lia|].
    assert (Hcases : month = 1 ∨ month = 2 ∨ month = 3 ∨ month = 4
                     ∨ month = 5 ∨ month = 6 ∨ month = 7 ∨ month = 8
                     ∨ month = 9 ∨ month = 10 ∨ month = 11 ∨ month = 12)
      by lia.
    destruct Hcases as [->|[->|[->|[->|[->|[->|[->|[->|[->|[->|[->| ->]]]]]]]]]]];
      simpl in Hd; lia. }
  rewrite appendInt4_digits, !appendInt2_digits by lia.
  rewrite layout_chars. unfold calendar.Parse.
  rewrite !digit_char
    by (Z.to_euclidean_division_equations; lia).
  replace (1000 * (year / 1000) + 100 * (year / 100 mod 10)
           + 10 * (year / 10 mod 10) + year mod 10) with year
    by (Z.to_euclidean_division_equations; lia).
  replace (10 * (month / 10) + month mod 10) with month
    by (Z.to_euclidean_division_equations; lia).
  replace (10 * (day / 10) + day mod 10) with day
    by (Z.to_euclidean_division_equations; lia).
  replace ((month <=? 0) || (12 <? month)) with false
    by (symmetry; apply orb_false_intro; [apply Z.leb_gt|apply Z.ltb_ge]; lia).
  replace ((day <? 1) || (calendar.daysIn month year <? day)) with false
    by (symmetry; apply orb_false_intro; apply Z.ltb_ge; lia).
  done.
Qed.

End layout_facts.

Section round_trips.

Lemma daysSinceEpoch_closed (y : Z) :
  calendar.daysSinceEpoch y
  = 365 * (y - 1) + (y - 1) / 4 - (y - 1) / 100 + (y - 1) / 400.
Proof.
  unfold calendar.daysSinceEpoch. cbv zeta.
  Z.to_euclidean_division_equations; lia.
Qed.

Lemma daysSinceEpoch_mono (y y' : Z) :
  y < y' → calendar.daysSinceEpoch y + 365 ≤ calendar.daysSinceEpoch y'.
Proof.
  intros H. rewrite !daysSinceEpoch_closed.
  Z.to_euclidean_division_equations; lia.
Qed.

Lemma daysSinceEpoch_next (y : Z) :
  calendar.daysSinceEpoch (y + 1)
  = calendar.daysSinceEpoch y + 365 + (if calendar.isLeap y then 1 else 0).
Proof.
  rewrite !daysSinceEpoch_closed. unfold calendar.isLeap.
  repeat match goal with
  | |- context [Z.rem ?a ?b =? 0] => destruct (Z.eqb_spec (Z.rem a b) 0)
  end; simpl andb; simpl orb; cbv iota.
  all: Z.to_euclidean_division_equations; lia.
Qed.

(** The year and the day within it are determined by the day number. *)
Lemma yearDay_unique (year yday : Z) :
  0 ≤ yday < 365 + (if calendar.isLeap year then 1 else 0) →
  calendar.yearDay (calendar.daysSinceEpoch year + yday) = (year, yday).
Proof.
  intros Hy.
  destruct (yearDay_spec (calendar.daysSinceEpoch year + yday))
    as (Hsum & Hlo & Hhi).
  destruct (calendar.yearDay _) as [year' yday']. simpl in *.
  assert (year' = year) as ->.
  { destruct (Z.lt_trichotomy year' year) as [Hlt|[->|Hgt]]; [|done|].
    - assert (Hn : calendar.daysSinceEpoch (year' + 1)
                   ≤ calendar.daysSinceEpoch year).
      { destruct (decide (year' + 1 = year)) as [->|Hne]; [done|].
        pose proof (daysSinceEpoch_mono (year' + 1) year ltac:(lia)). lia. }
      rewrite daysSinceEpoch_next in Hn. lia.
    - assert (Hn : calendar.daysSinceEpoch (year + 1)
                   ≤ calendar.daysSinceEpoch year').
      { destruct (decide (year + 1 = year')) as [->|Hne]; [done|].
        pose proof (daysSinceEpoch_mono (year + 1) year' ltac:(lia)). lia. }
      rewrite daysSinceEpoch_next in Hn. lia. }
  f_equal. lia.
Qed.

(** The month and the day are determined by the day within the year. *)
Lemma monthDay_unique (leap : bool) (month day : Z) :
  1 ≤ month ≤ 12 →
  1 ≤ day ≤ (if (month =? 2) && leap then 29
             else calendar.daysBefore month - calendar.daysBefore (month - 1)) →
  let yday :=
    calendar.daysBefore (month - 1)
    + (if leap && (3 <=? month) then 1 else 0) + (day - 1) in
  calendar.monthDay leap yday = (month, day)
  ∧ 0 ≤ yday < 365 + (if leap then 1 else 0).
Proof.
  intros Hm Hd yday.
  assert (Hall : forallb (monthDay_back true) (seqZ 1 12)
                 && forallb (monthDay_back false) (seqZ 1 12) = true)
    by (vm_compute; reflexivity).
  apply andb_prop in Hall as [Ht Hf]. rewrite forallb_forall in Ht, Hf.
  assert (Hmonth : monthDay_back leap month = true)
    by (destruct leap; [apply Ht|apply Hf];
        apply list_elem_of_In, elem_of_seqZ; lia).
  unfold monthDay_back in Hmonth. rewrite forallb_forall in Hmonth.
  specialize (Hmonth day ltac:(apply list_elem_of_In, elem_of_seqZ; lia)).
  apply andb_prop in Hmonth as [[Heq%bool_decide_eq_true_1 Hlo]%andb_prop Hhi].
  subst yday. split; [done|]. lia.
Qed.

(** The date of the instant made of a date of the calendar and a time
    within the day is that date. *)
Lemma civil_Date (year month day : Z) (clock : time.Duration) :
  1 ≤ month ≤ 12 → 1 ≤ day ≤ calendar.daysIn month year →
  0 ≤ clock < calendar.Day →
  calendar.civil (calendar.Date year month day clock) = (year, month, day).
Proof.
  intros Hm Hd Hc.
  destruct (monthDay_unique (calendar.isLeap year) month day Hm Hd)
    as [Hmd Hyd].
  unfold calendar.civil, calendar.Date, calendar.absDate.
  set (yday := calendar.daysBefore (month - 1)
               + (if calendar.isLeap year && (3 <=? month) then 1 else 0)
               + (day - 1)) in *.
  replace ((if calendar.isLeap year && (3 <=? month)
            then calendar.daysSinceEpoch year
                 + calendar.daysBefore (month - 1) + 1
            else calendar.daysSinceEpoch year
                 + calendar.daysBefore (month - 1)) + (day - 1))
    with (calendar.daysSinceEpoch year + yday)
    by (subst yday; destruct (calendar.isLeap year && (3 <=? month)); lia).
  replace (((calendar.daysSinceEpoch year + yday - calendar.unixEpochDays)
            * calendar.Day + clock) / calendar.Day + calendar.unixEpochDays)
    with (calendar.daysSinceEpoch year + yday).
  - by rewrite yearDay_unique, Hmd.
  - generalize (calendar.daysSinceEpoch year + yday).
    unfold calendar.Day, time.Hour, time.Minute, time.Second,
      calendar.unixEpochDays in *.
    intros z. Z.to_euclidean_division_equations; lia.
Qed.

Lemma fourDigitYears_year (t : time.Time) :
  fourDigitYears t → 0 ≤ (calendar.civil t).1.1 ≤ 9999.
Proof.
  unfold fourDigitYears, calendar.civil.
  assert (E0 : calendar.Date 0 1 1 0
               = (calendar.daysSinceEpoch 0 - calendar.unixEpochDays)
                 * calendar.Day) by (vm_compute; reflexivity).
  assert (E1 : calendar.Date 10000 1 1 0
               = (calendar.daysSinceEpoch 10000 - calendar.unixEpochDays)
                 * calendar.Day) by (vm_compute; reflexivity).
  rewrite E0, E1. clear E0 E1. intros [Hlo Hhi].
  pose proof (absDate_spec (t / calendar.Day + calendar.unixEpochDays)) as H.
  destruct (yearDay_spec (t / calendar.Day + calendar.unixEpochDays))
    as (Hsum & Hylo & Hyhi).
  destruct (calendar.absDate _) as [[year month] day].
  destruct H as (_ & _ & _ & Hy). cbn [fst].
  set (y := (calendar.yearDay _).1) in *.
  set (yd := (calendar.yearDay _).2) in *. rewrite Hy. clear Hy.
  assert (HDay : 0 < calendar.Day) by (vm_compute; reflexivity).
  assert (Hd : calendar.daysSinceEpoch 0
               ≤ t / calendar.Day + calendar.unixEpochDays
               < calendar.daysSinceEpoch 10000).
  { assert (calendar.daysSinceEpoch 0 - calendar.unixEpochDays
            ≤ t / calendar.Day) by (apply Z.div_le_lower_bound; lia).
    assert (t / calendar.Day
            < calendar.daysSinceEpoch 10000 - calendar.unixEpochDays)
      by (apply Z.div_lt_upper_bound; lia).
    lia. }
  clearbody y yd. clear Hlo Hhi.
  split.
  - destruct (decide (0 ≤ y)) as [|Hneg]; [done|].
    pose proof (daysSinceEpoch_next y) as Hnext.
    assert (Hle : calendar.daysSinceEpoch (y + 1) ≤ calendar.daysSinceEpoch 0).
    { destruct (decide (y + 1 = 0)) as [->|]; [done|].
      pose proof (daysSinceEpoch_mono (y + 1) 0 ltac:(lia)). lia. }
    destruct (calendar.isLeap y); lia.
  - destruct (decide (y ≤ 9999)) as [|Hbig]; [done|].
    assert (Hle : calendar.daysSinceEpoch 10000 ≤ calendar.daysSinceEpoch y).
    { destruct (decide (y = 10000)) as [->|]; [done|].
      pose proof (daysSinceEpoch_mono 10000 y ltac:(lia)). lia. }
    lia.
Qed.

Lemma Date_clock (year month day : Z) (clock : time.Duration) :
  calendar.Date year month day clock = calendar.Date year month day 0 + clock.
Proof.
  unfold calendar.Date.
  destruct (calendar.isLeap year && (3 <=? month)); lia.
Qed.

Lemma Day_pos : 0 < calendar.Day.
Proof. reflexivity. Qed.

(** Formatting an instant of a year from 0 to 9999 and parsing the result
    gives the midnight that starts the instant's day. *)
Lemma Parse_Format (t : time.Time) :
  fourDigitYears t →
  calendar.Parse (calendar.Format t) = Some (t - t mod calendar.Day).
Proof.
  intros Hy%fourDigitYears_year. unfold calendar.Format.
  pose proof (Date_civil t) as H.
  destruct (calendar.civil t) as [[year month] day]. cbn [fst] in Hy.
  destruct H as (Hm & Hd & Hdate).
  rewrite Parse_digits by done. f_equal.
  specialize (Hdate 0). replace (day + 0) with day in Hdate by lia.
  rewrite Date_clock in Hdate. lia.
Qed.

Lemma digit_Some (a : ascii) (n : Z) :
  calendar.digit a = Some n → 0 ≤ n ≤ 9 ∧ a = char n.
Proof.
  assert (Hall : forallb
            (λ k, let a := ascii_of_nat k in
                  match calendar.digit a with
                  | Some n => (0 <=? n) && (n <=? 9) && Ascii.eqb a (char n)
                  | None => true
                  end) (seq 0 256) = true) by (vm_compute; reflexivity).
  rewrite forallb_forall in Hall. intros H.
  assert (Hin : In (nat_of_ascii a) (seq 0 256)).
  { apply in_seq. pose proof (nat_ascii_bounded a). lia. }
  apply Hall in Hin. cbv beta zeta in Hin.
  rewrite ascii_nat_embedding, H in Hin.
  apply andb_prop in Hin as [[Hlo%Z.leb_le Hhi%Z.leb_le]%andb_prop
                              Heq%Ascii.eqb_eq].
  split; [lia|exact Heq].
Qed.

Lemma Date_bounds (year month day : Z) :
  1 ≤ month ≤ 12 → 1 ≤ day ≤ calendar.daysIn month year →
  calendar.Date year 1 1 0 ≤ calendar.Date year month day 0
  < calendar.Date (year + 1) 1 1 0.
Proof.
  intros Hm Hd.
  destruct (monthDay_unique (calendar.isLeap year) month day Hm Hd)
    as [_ Hyd].
  pose proof (daysSinceEpoch_next year) as Hnext. pose proof Day_pos.
  unfold calendar.Date. change (1 - 1) with 0. cbn [calendar.daysBefore].
  change (3 <=? 1) with false. rewrite !andb_false_r.
  destruct (calendar.isLeap year && (3 <=? month));
    destruct (calendar.isLeap year); nia.
Qed.

Lemma Date_year_mono (year year' : Z) :
  year ≤ year' → calendar.Date year 1 1 0 ≤ calendar.Date year' 1 1 0.
Proof.
  intros Hy. pose proof Day_pos.
  unfold calendar.Date. change (1 - 1) with 0. cbn [calendar.daysBefore].
  change (3 <=? 1) with false. rewrite !andb_false_r.
  destruct (decide (year = year')) as [->|Hne]; [lia|].
  pose proof (daysSinceEpoch_mono year year' ltac:(lia)). nia.
Qed.

(** What [Parse] accepts: ten characters that are the layout of a date of
    a year from 0 to 9999, and the result is the midnight of that date. *)
Lemma Parse_Some (value : string) (d : time.Time) :
  calendar.Parse value = Some d →
  d mod calendar.Day = 0
  ∧ fourDigitYears d
  ∧ calendar.Format d = value.
Proof.
  unfold calendar.Parse. intros H.
  repeat match type of H with
  | match ?s with EmptyString => _ | String _ _ => _ end = _ =>
      destruct s; try discriminate H
  | (if Ascii.eqb ?a ?b then _ else _) = _ =>
      destruct (Ascii.eqb_spec a b); try discriminate H
  | match ?a with Ascii _ _ _ _ _ _ _ _ => _ end = _ =>
      destruct a
  | (if ?b then _ else _) = _ =>
      match b with
      | _ || _ => fail 1
      | _ => destruct b; try discriminate H
      end
  end.
  repeat match type of H with
  | match calendar.digit ?a with Some _ => _ | None => _ end = _ =>
      let n := fresh "n" in let E := fresh "E" in
      destruct (calendar.digit a) as [n|] eqn:E; [|discriminate H];
      apply digit_Some in E as [? ->]
  end.
  set (year := 1000 * n + 100 * n0 + 10 * n1 + n2) in *.
  set (month := 10 * n3 + n4) in *. set (day := 10 * n5 + n6) in *.
  destruct ((month <=? 0) || (12 <? month)) eqn:Em; [discriminate H|].
  destruct ((day <? 1) || (calendar.daysIn month year <? day)) eqn:Ed;
    [discriminate H|].
  apply orb_false_elim in Em as [Em1%Z.leb_gt Em2%Z.ltb_ge].
  apply orb_false_elim in Ed as [Ed1%Z.ltb_ge Ed2%Z.ltb_ge].
  injection H as <-.
  assert (Hy : 0 ≤ year ≤ 9999) by (subst year; lia).
  assert (Hm : 1 ≤ month ≤ 12) by lia.
  assert (Hd : 1 ≤ day ≤ calendar.daysIn month year) by lia.
  split; [|split].
  - unfold calendar.Date. rewrite Z.add_0_r. apply Z.mod_mul.
    pose proof Day_pos. lia.
  - unfold fourDigitYears.
    pose proof (Date_bounds year month day Hm Hd).
    pose proof (Date_year_mono 0 year ltac:(lia)).
    pose proof (Date_year_mono (year + 1) 10000 ltac:(lia)). lia.
  - unfold calendar.Format.
    rewrite civil_Date by (done || (pose proof Day_pos; lia)).
    assert (Hd31 : day ≤ 99) by (subst day; lia).
    rewrite appendInt4_digits, !appendInt2_digits by lia.
    rewrite layout_chars.
    replace (year / 1000) with n
      by (subst year; Z.to_euclidean_division_equations; lia).
    replace (year / 100 mod 10) with n0
      by (subst year; Z.to_euclidean_division_equations; lia).
    replace (year / 10 mod 10) with n1
      by (subst year; Z.to_euclidean_division_equations; lia).
    replace (year mod 10) with n2
      by (subst year; Z.to_euclidean_division_equations; lia).
    replace (month / 10) with n3
      by (subst month; Z.to_euclidean_division_equations; lia).
    replace (month mod 10) with n4
      by (subst month; Z.to_euclidean_division_equations; lia).
    replace (day / 10) with n5
      by (subst day; Z.to_euclidean_division_equations; lia).
    replace (day mod 10) with n6
      by (subst day; Z.to_euclidean_division_equations; lia).
    reflexivity.
Qed.

Lemma Parse_not_latest (value : string) (d : time.Time) :
  calendar.Parse value = Some d → value ≠ "" ∧ value ≠ "latest".
Proof. intros H. split; intros ->; discriminate H. Qed.

End round_trips.

Section date_round_trips.

Lemma daysIn_le (month year : Z) :
  1 ≤ month ≤ 12 → calendar.daysIn month year ≤ 31.
Proof.
  intros Hm. unfold calendar.daysIn.
  destruct ((month =? 2) && calendar.isLeap year); [lia|].
  assert (Hcases : month = 1 ∨ month = 2 ∨ month = 3 ∨ month = 4
                   ∨ month = 5 ∨ month = 6 ∨ month = 7 ∨ month = 8
                   ∨ month = 9 ∨ month = 10 ∨ month = 11 ∨ month = 12)
    by lia.
  destruct Hcases as [->|[->|[->|[->|[->|[->|[->|[->|[->|[->|[->| ->]]]]]]]]]]];
    simpl; lia.
Qed.

Lemma Format_length (t : time.Time) :
  fourDigitYears t → String.length (calendar.Format t) = 10%nat.
Proof.
  intros Hy%fourDigitYears_year. unfold calendar.Format.
  pose proof (Date_civil t) as H.
  destruct (calendar.civil t) as [[year month] day]. cbn [fst] in Hy.
  destruct H as (Hm & Hd & _). pose proof (daysIn_le month year Hm).
  rewrite appendInt4_digits, !appendInt2_digits by lia.
  by rewrite layout_chars.
Qed.

(** X18. Formatting and parsing dates are inverse to each other on the
    years from 0 to 9999: the string [FormatDate] makes of an instant of
    such a year is a valid date string, and [time.Parse] reads it as the
    midnight that starts the instant's day. *)
Theorem FormatDate_then_Parse (t : time.Time) :
  fourDigitYears t →
  calendar.Parse (utils.FormatDate t) = Some (t - t mod calendar.Day)
  ∧ utils.IsValidDateString (utils.FormatDate t) = true.
Proof.
  intros Hy. pose proof (Parse_Format t Hy) as Hparse.
  unfold utils.FormatDate, utils.IsValidDateString. rewrite Hparse.
  split; [done|]. by case_decide.
Qed.

Lemma FormatDate_then_Parse_witness :
  fourDigitYears scenario.now
  ∧ utils.FormatDate scenario.now = "2023-02-01"
  ∧ calendar.Parse "2023-02-01" = Some (scenario.now - 77).
Proof.
  assert (Hy : fourDigitYears scenario.now)
    by (split; vm_compute; [discriminate|reflexivity]).
  assert (Hf : utils.FormatDate scenario.now = "2023-02-01")
    by (vm_compute; reflexivity).
  split; [exact Hy|]. split; [exact Hf|].
  destruct (FormatDate_then_Parse scenario.now Hy) as [Hparse _].
  rewrite Hf in Hparse. rewrite Hparse. vm_compute. reflexivity.
Defined.

(** X19. Every string that [time.Parse] reads as a date is ten characters
    that [FormatDate] gives back from the result: the result is a midnight
    of a year from 0 to 9999 that formats to the very string parsed, which
    is neither empty nor the word the cache uses for a missing date. *)
Theorem Parse_then_FormatDate (value : string) (d : time.Time) :
  calendar.Parse value = Some d →
  utils.FormatDate d = value
  ∧ d mod calendar.Day = 0
  ∧ fourDigitYears d
  ∧ String.length value = 10%nat
  ∧ value ≠ "" ∧ value ≠ "latest".
Proof.
  intros Hparse. destruct (Parse_Some value d Hparse) as (Hmid & Hy & Hf).
  destruct (Parse_not_latest value d Hparse) as [He Hl].
  split; [done|]. split; [done|]. split; [done|]. split; [|done].
  rewrite <- Hf. by apply Format_length.
Qed.

Lemma Parse_then_FormatDate_witness :
  calendar.Parse "2024-02-29" = Some (calendar.Date 2024 2 29 0)
  ∧ utils.FormatDate (calendar.Date 2024 2 29 0) = "2024-02-29"
  ∧ calendar.Parse "2023-02-29" = None.
Proof.
  assert (Hparse : calendar.Parse "2024-02-29"
                   = Some (calendar.Date 2024 2 29 0))
    by (vm_compute; reflexivity).
  split; [exact Hparse|].
  destruct (Parse_then_FormatDate "2024-02-29" (calendar.Date 2024 2 29 0)
              Hparse) as [Hf _].
  split; [exact Hf|vm_compute; reflexivity].
Defined.

End date_round_trips.

(** * Properties of the validation of dates *)

Section date_validation.

Lemma ValidateDate_run (dateStr : string) (now : time.Time) :
  dateStr ≠ "" →
  utils.ValidateDate dateStr now
  = match calendar.Parse dateStr with
    | None =>
        (calendar.zeroTime,
         Some (errorString
           ("invalid date format. Expected YYYY-MM-DD, got: " +:+ dateStr)))
    | Some d =>
        if now <? d
        then (calendar.zeroTime,
              Some (errorString
                ("date cannot be in the future: " +:+ dateStr)))
        else if d <? now - 90 * calendar.Day
        then (calendar.zeroTime,
              Some (errorString
                ("date is beyond the maximum lookback period of 90 days. "
                 +:+ "Earliest allowed date: "
                 +:+ calendar.Format (now - 90 * calendar.Day))))
        else (d, None)
    end.
Proof.
  intros Hne. unfold utils.ValidateDate. rewrite decide_False by done.
  destruct (calendar.Parse dateStr) as [d|]; [|done].
  unfold time.After, calendar.Before. rewrite AddDate_days_add.
  replace (now + - utils.MaxLookbackDays * calendar.Day)
    with (now - 90 * calendar.Day) by (unfold utils.MaxLookbackDays; lia).
  done.
Qed.

Lemma ValidateDate_accepts_aux (dateStr : string) (now t : time.Time) :
  utils.ValidateDate dateStr now = (t, None)
  ↔ (dateStr = "" ∧ t = now)
    ∨ (calendar.Parse dateStr = Some t
       ∧ now - 90 * calendar.Day ≤ t ≤ now).
Proof.
  destruct (decide (dateStr = "")) as [->|Hne].
  - unfold utils.ValidateDate. rewrite decide_True by done. split.
    + intros [= <-]. by left.
    + intros [[_ ->]|[H _]]; [done|discriminate H].
  - rewrite ValidateDate_run by done.
    destruct (calendar.Parse dateStr) as [d|]; [|split].
    + destruct (Z.ltb_spec now d); [split|].
      * discriminate.
      * intros [[? _]|[[= ->] ?]]; [done|lia].
      * destruct (Z.ltb_spec d (now - 90 * calendar.Day)); split.
        -- discriminate.
        -- intros [[? _]|[[= ->] ?]]; [done|lia].
        -- intros [= ->]. right. split; [done|lia].
        -- intros [[? _]|[[= ->] ?]]; [done|done].
    + discriminate.
    + intros [[? _]|[? _]]; done.
Qed.




Lemma Sub_plain (t u : time.Time) :
  0 ≤ t - u ≤ 90 * calendar.Day → calendar.Sub t u = t - u.
Proof.
  intros H. unfold calendar.Sub.
  assert (90 * calendar.Day < 2 ^ 63 - 1) by reflexivity.
  assert (- 2 ^ 63 < 0) by reflexivity.
  replace (2 ^ 63 - 1 <? t - u) with false by (symmetry; apply Z.ltb_ge; lia).
  replace (t - u <? - 2 ^ 63) with false by (symmetry; apply Z.ltb_ge; lia).
  done.
Qed.

Lemma Sub_long (t u : time.Time) :
  90 * calendar.Day < t - u → 90 * calendar.Day < calendar.Sub t u.
Proof.
  intros H. unfold calendar.Sub. pose proof Day_pos.
  assert (90 * calendar.Day < 2 ^ 63 - 1) by reflexivity.
  assert (- 2 ^ 63 < 0) by reflexivity.
  destruct (Z.ltb_spec (2 ^ 63 - 1) (t - u)); [done|].
  replace (t - u <? - 2 ^ 63) with false by (symmetry; apply Z.ltb_ge; lia).
  done.
Qed.

Lemma ValidateDateRange_accepts_aux (startDateStr endDateStr : string)
    (now now' startDate endDate : time.Time) :
  utils.ValidateDateRange startDateStr endDateStr now now'
  = (startDate, endDate, None)
  ↔ utils.ValidateDate startDateStr now = (startDate, None)
    ∧ utils.ValidateDate endDateStr now' = (endDate, None)
    ∧ startDate ≤ endDate ≤ startDate + 90 * calendar.Day.
Proof.
  unfold utils.ValidateDateRange.
  destruct (utils.ValidateDate startDateStr now) as [sd [e|]];
    [split; [discriminate|intros [[=] _]]|].
  destruct (utils.ValidateDate endDateStr now') as [ed [e|]];
    [split; [discriminate|intros (_ & [=] & _)]|].
  unfold time.After.
  change (utils.MaxLookbackDays * 24 * time.Hour) with (90 * calendar.Day).
  destruct (Z.ltb_spec ed sd) as [Hlt|Hle].
  { split; [discriminate|]. intros ([= ->] & [= ->] & ?). lia. }
  destruct (decide (ed - sd ≤ 90 * calendar.Day)) as [Hshort|Hlong].
  - rewrite Sub_plain by lia.
    replace (90 * calendar.Day <? ed - sd) with false
      by (symmetry; apply Z.ltb_ge; lia).
    split.
    + intros [= -> ->]. split; [done|]. split; [done|lia].
    + by intros ([= ->] & [= ->] & _).
  - pose proof (Sub_long ed sd ltac:(lia)) as Hsub.
    replace (90 * calendar.Day <? calendar.Sub ed sd) with true
      by (symmetry; apply Z.ltb_lt; lia).
    split; [discriminate|]. intros ([= ->] & [= ->] & ?). lia.
Qed.

(** X22. [ValidateDateRange] accepts two strings exactly when [ValidateDate]
    accepts each of them, the start is not after the end and the end is at
    most 90 days of 24 hours after the start; it returns the two times of
    [ValidateDate]. *)
Theorem ValidateDateRange_accepts (startDateStr endDateStr : string)
    (now now' startDate endDate : time.Time) :
  utils.ValidateDateRange startDateStr endDateStr now now'
  = (startDate, endDate, None)
  ↔ utils.ValidateDate startDateStr now = (startDate, None)
    ∧ utils.ValidateDate endDateStr now' = (endDate, None)
    ∧ startDate ≤ endDate ≤ startDate + 90 * calendar.Day.
Proof. apply ValidateDateRange_accepts_aux. Qed.

End date_validation.

(** * Properties of the list of dates of a range *)

Section date_ranges.

Lemma rangeLoop_days (endDate : time.Time) (fuel : nat)
    (current : time.Time) :
  (Z.to_nat ((endDate - current) / calendar.Day + 1) ≤ fuel)%nat →
  utils.rangeLoop fuel current endDate
  = dayOf current <$> seqZ 0 ((endDate - current) / calendar.Day + 1).
Proof.
  pose proof Day_pos as HDay.
  revert current. induction fuel as [|fuel IH]; intros current Hfuel.
  - rewrite seqZ_nil by lia. done.
  - cbn [utils.rangeLoop]. unfold time.After.
    destruct (Z.ltb_spec endDate current) as [Hlt|Hle]; cbn [negb].
    + rewrite seqZ_nil; [done|].
      assert ((endDate - current) / calendar.Day < 0)
        by (apply Z.div_lt_upper_bound; lia).
      lia.
    + assert (Hq : 0 ≤ (endDate - current) / calendar.Day)
        by (apply Z.div_pos; lia).
      rewrite AddDate_days_add, Z.mul_1_l.
      assert (Hnext : (endDate - (current + calendar.Day)) / calendar.Day + 1
                      = (endDate - current) / calendar.Day).
      { replace (endDate - (current + calendar.Day))
          with (endDate - current + (-1) * calendar.Day) by lia.
        rewrite Z.div_add by lia. lia. }
      rewrite IH by lia. rewrite Hnext.
      rewrite (seqZ_cons 0 ((endDate - current) / calendar.Day + 1)) by lia.
      rewrite fmap_cons.
      unfold dayOf at 2. rewrite Z.mul_0_l, Z.add_0_r. f_equal.
      replace (Z.pred ((endDate - current) / calendar.Day + 1))
        with ((endDate - current) / calendar.Day) by lia.
      change (Z.succ 0) with (1 + 0).
      rewrite <- (fmap_add_seqZ 1 0), <- list_fmap_compose.
      apply list_fmap_ext. intros _ i _. unfold dayOf. simpl. f_equal. lia.
Qed.

(** X23. [GetDateRangeList] returns the formatted instants from the start
    on, one per 24 hours, up to the last that is not after the end: one
    more than the whole days between the two, and none when the start is
    after the end.  Its loop stops by its own condition: run for any
    larger number of rounds it returns the same list. *)
Theorem GetDateRangeList_days (startDate endDate : time.Time) :
  utils.GetDateRangeList startDate endDate
  = dayOf startDate <$> seqZ 0 ((endDate - startDate) / calendar.Day + 1)
  ∧ length (utils.GetDateRangeList startDate endDate)
    = Z.to_nat ((endDate - startDate) / calendar.Day + 1)
  ∧ ∀ fuel,
      (Z.to_nat ((endDate - startDate) / calendar.Day + 1) ≤ fuel)%nat →
      utils.rangeLoop fuel startDate endDate
      = utils.GetDateRangeList startDate endDate.
Proof.
  unfold utils.GetDateRangeList. rewrite rangeLoop_days by done.
  split; [done|]. split.
  - by rewrite length_fmap, length_seqZ.
  - intros fuel Hfuel. by apply rangeLoop_days.
Qed.

Lemma fourDigitYears_between (t u v : time.Time) :
  fourDigitYears t → fourDigitYears v →
  t ≤ u ≤ v → fourDigitYears u.
Proof. unfold fourDigitYears. lia. Qed.

Lemma Format_midnight (t : time.Time) :
  fourDigitYears t → t mod calendar.Day = 0 →
  calendar.Parse (calendar.Format t) = Some t.
Proof. intros Hy Hmid. by rewrite Parse_Format, Hmid, Z.sub_0_r. Qed.

(** X24. For a range of two given dates that [ValidateDateRange] accepts,
    [GetDateRangeList] of the two times it returns is a list of at least
    one and at most 91 date strings that are pairwise different, starts
    with the start date as it was given and ends with the end date as it
    was given. *)
Theorem validated_range_dates (startDateStr endDateStr : string)
    (now now' startDate endDate : time.Time) :
  startDateStr ≠ "" → endDateStr ≠ "" →
  utils.ValidateDateRange startDateStr endDateStr now now'
  = (startDate, endDate, None) →
  let dates := utils.GetDateRangeList startDate endDate in
  head dates = Some startDateStr
  ∧ last dates = Some endDateStr
  ∧ (1 ≤ length dates ≤ 91)%nat
  ∧ NoDup dates.
Proof.
  intros Hs He Hrange dates.
  apply ValidateDateRange_accepts_aux in Hrange as (Hsd & Hed & Hle).
  apply ValidateDate_accepts_aux in Hsd as [[? _]|[Hsd _]]; [done|].
  apply ValidateDate_accepts_aux in Hed as [[? _]|[Hed _]]; [done|].
  apply Parse_Some in Hsd as (Hsmid & Hsy & Hsf).
  apply Parse_Some in Hed as (Hemid & Hey & Hef).
  pose proof Day_pos as HDay.
  apply Z.mod_divide in Hsmid as [a Ha]; [|lia].
  apply Z.mod_divide in Hemid as [b Hb]; [|lia].
  assert (Hn : (endDate - startDate) / calendar.Day = b - a).
  { replace (endDate - startDate) with ((b - a) * calendar.Day) by lia.
    apply Z.div_mul. lia. }
  assert (Hab : 0 ≤ b - a ≤ 90) by nia.
  subst dates. unfold utils.GetDateRangeList.
  rewrite rangeLoop_days by done. rewrite Hn.
  split; [|split; [|split]].
  - rewrite (seqZ_cons 0) by lia. simpl. unfold dayOf, utils.FormatDate.
    by rewrite Z.mul_0_l, Z.add_0_r, Hsf.
  - rewrite (seqZ_app 0 (b - a) 1) by lia.
    rewrite (seqZ_cons _ 1) by lia. rewrite (seqZ_nil _ (Z.pred 1)) by lia.
    rewrite fmap_app, fmap_cons, fmap_nil, last_snoc.
    unfold dayOf, utils.FormatDate. rewrite <- Hef. do 2 f_equal. lia.
  - rewrite length_fmap, length_seqZ. lia.
  - apply NoDup_fmap_2_strong; [|apply NoDup_seqZ].
    intros i j Hi%elem_of_seqZ Hj%elem_of_seqZ Heq.
    unfold dayOf, utils.FormatDate in Heq.
    assert (Hday : ∀ k, 0 ≤ k < b - a + 1 →
              calendar.Parse (calendar.Format (startDate + k * calendar.Day))
              = Some (startDate + k * calendar.Day)).
    { intros k Hk. apply Format_midnight.
      - apply (fourDigitYears_between startDate _ endDate); [done..|nia].
      - replace (startDate + k * calendar.Day)
          with ((a + k) * calendar.Day) by lia.
        apply Z.mod_mul. lia. }
    pose proof (Hday i ltac:(lia)) as Hpi.
    pose proof (Hday j ltac:(lia)) as Hpj.
    rewrite Heq, Hpj in Hpi. injection Hpi as Hij. nia.
Qed.

Lemma validated_range_dates_witness :
  utils.ValidateDateRange "2022-12-30" "2023-01-02"
    (calendar.Date 2023 2 1 77) (calendar.Date 2023 2 1 78)
  = (calendar.Date 2022 12 30 0, calendar.Date 2023 1 2 0, None)
  ∧ utils.GetDateRangeList (calendar.Date 2022 12 30 0)
      (calendar.Date 2023 1 2 0)
    = ["2022-12-30"; "2022-12-31"; "2023-01-01"; "2023-01-02"]
  ∧ NoDup (utils.GetDateRangeList (calendar.Date 2022 12 30 0)
             (calendar.Date 2023 1 2 0)).
Proof.
  assert (Hrange : utils.ValidateDateRange "2022-12-30" "2023-01-02"
                     (calendar.Date 2023 2 1 77) (calendar.Date 2023 2 1 78)
                   = (calendar.Date 2022 12 30 0, calendar.Date 2023 1 2 0,
                      None)) by (vm_compute; reflexivity).
  split; [exact Hrange|]. split; [vm_compute; reflexivity|].
  exact (proj2 (proj2 (proj2
    (validated_range_dates "2022-12-30" "2023-01-02"
       (calendar.Date 2023 2 1 77) (calendar.Date 2023 2 1 78)
       (calendar.Date 2022 12 30 0) (calendar.Date 2023 1 2 0)
       ltac:(discriminate) ltac:(discriminate) Hrange)))).
Defined.

End date_ranges.

(** * What the program's cache can hold *)

Section program_facts.

Variable Sprint_f : float64 → string.
Variable keys : list (string * bool).

Hypothesis keys_valid : keys ≡ₚ map_to_list models.SupportedCurrencies.

Implicit Types (w : services.World) (c : cache.MemoryCache)
  (s : exchange.ExchangeService) (rf : services.RateFetcher).

Local Abbreviation supported := (services.supported models.SupportedCurrencies).

Lemma service_currencies remote (b : string) :
  b ∈ services.currencies (exchange.rateFetcher (program.service keys remote))
  → supported b = true.
Proof.
  simpl. intros ([q v] & -> & Hin)%list_elem_of_fmap.
  rewrite keys_valid in Hin. apply elem_of_map_to_list in Hin.
  apply supported_codes. simpl.
  unfold models.SupportedCurrencies in Hin.
  apply elem_of_list_to_map in Hin;
    [|apply (bool_decide_unpack _); vm_compute; exact I].
  unfold codes.
  repeat (apply elem_of_cons in Hin as [[= -> ->]|Hin]); [set_solver..|].
  by apply elem_of_nil in Hin.
Qed.

Lemma latestOnly_Set (from to : string) (rate : float64) (now : time.Time) c :
  supported from = true → supported to = true →
  latestOnly c → latestOnly (cache.Set_ from to "" rate now c).2.
Proof.
  intros Hf Ht Hc k Hk. simpl in Hk.
  destruct (decide (k = cache.generateKey from to "")) as [->|Hne].
  - by exists from, to.
  - rewrite lookup_insert_ne in Hk by done. by apply Hc.
Qed.

Lemma latestOnly_drain (clock : nat → time.Time) (n : nat)
    (ds : list services.rateResult) (acc : int * int) c :
  (∀ r, r ∈ ds → services.isWrite r = true →
        supported (services.from r) = true
        ∧ supported (services.to r) = true) →
  latestOnly c → latestOnly (services.drain clock n ds acc c).2.
Proof.
  revert n acc c. induction ds as [|r ds IH]; intros n [a b] c Hds Hc.
  - done.
  - cbn [services.drain].
    pose proof (Hds r ltac:(by left)) as Hr. unfold services.isWrite in Hr.
    destruct (services.err r) as [e|].
    + apply IH; [|done]. intros; apply Hds; [by right|done].
    + unfold bind. destruct (Hr eq_refl) as [Hf Ht].
      destruct (cache.Set_ _ _ _ _ _ c) as [u c'] eqn:E.
      apply IH; [intros; apply Hds; [by right|done]|].
      replace c' with (cache.Set_ (services.from r) (services.to r) ""
                         (services.rate r) (clock n) c).2 by (by rewrite E).
      by apply latestOnly_Set.
Qed.

Lemma latestOnly_refresh remote (σ : services.Schedule) w :
  latestOnly (services.wcache w) →
  latestOnly
    (services.wcache
       (services.fetchAllRates models.SupportedCurrencies
          (exchange.rateFetcher (program.service keys remote)) σ w).2).
Proof.
  intros Hw. rewrite fetchAllRates_run. cbn [snd services.wcache].
  apply latestOnly_drain; [|done].
  intros r [b [Hb Hr]]%elem_of_delivered Hwrite.
  apply elem_of_baseQueue in Hr as [Hfrom Hr].
  pose proof (service_currencies remote b Hb) as Hbs.
  unfold services.isWrite in Hwrite.
  destruct (external.latestOutcome _ b) as [apiResponse|e].
  - destruct Hr as [_ [[-> _]|(_ & Hto & _)]]; by rewrite Hfrom.
  - destruct Hr as [He _]. by rewrite He in Hwrite.
Qed.

Lemma latestOnly_getLatestRate rf (from to : string)
    (now now' : time.Time) w :
  supported from = true → supported to = true →
  latestOnly (services.wcache w) →
  latestOnly (services.wcache (services.getLatestRate rf from to now now' w).2).
Proof.
  intros Hf Ht Hw. unfold services.getLatestRate.
  destruct (decide (from = to)); [done|].
  unfold bind, services.onCache.
  destruct (cache.Get from to "" now (services.wcache w))
    as [[rate found] c'] eqn:EG.
  assert (c' = services.wcache w) as ->.
  { unfold cache.Get, bind, get, ret in EG.
    destruct (cache.data (services.wcache w) !! _) as [item|];
      [destruct (time.After now (cache.ExpiresAt item))|]; by inversion EG. }
  destruct found; [done|].
  rewrite FetchRateOnDemand_run. cbn [services.wcache services.wnet].
  destruct (external.GetRateForPair _ from to (services.wnet w))
    as [[r [e|]] n']; [done|].
  cbn [snd services.wcache]. by apply latestOnly_Set.
Qed.

(** A lookup or a fetch of a historical rate leaves the cache and the
    network as they are. *)
Lemma getHistoricalRate_world rf (from to date : string)
    (now now' : time.Time) w :
  (services.getHistoricalRate rf from to date now now' w).2 = w.
Proof.
  unfold services.getHistoricalRate.
  destruct (decide (from = to)); [done|].
  unfold bind, services.onCache.
  destruct (cache.Get from to date now (services.wcache w))
    as [[rate found] c'] eqn:EG.
  assert (c' = services.wcache w) as ->.
  { unfold cache.Get, bind, get, ret in EG.
    destruct (cache.data (services.wcache w) !! _) as [item|];
      [destruct (time.After now (cache.ExpiresAt item))|]; by inversion EG. }
  destruct found; [by destruct w|].
  rewrite FetchHistoricalRateOnDemand_run,
    GetHistoricalRateForPair_fails by done.
  by destruct w.
Qed.



(** A cache of latest rates has nothing under the key of a dated
    triple. *)
Lemma latestOnly_dated c (from to date : string) :
  latestOnly c → underscore_free from = true → underscore_free to = true →
  date ≠ "" → date ≠ "latest" →
  cache.data c !! cache.generateKey from to date = None.
Proof.
  intros Hc Hf Ht Hd Hl.
  destruct (cache.data c !! cache.generateKey from to date) as [item|] eqn:E;
    [|done].
  destruct (Hc _ ltac:(by exists item)) as (f & t & Hfs & Hts & Hk).
  apply generateKey_pair_inj in Hk as (_ & _ & Htag);
    [|done|done|by apply supported_plain..].
  unfold dateTag in Htag. rewrite decide_False, decide_True in Htag by done.
  done.
Qed.

Lemma latestOnly_sweep (now : time.Time) c :
  latestOnly c → latestOnly (cache.cleanupTick now c).2.
Proof.
  intros Hc k [item Hk]. apply Hc. simpl in Hk.
  destruct (cache.data c !! k) as [item0|] eqn:E; [by exists item0|].
  by rewrite sweepItems_absent in Hk.
Qed.

Lemma historicalLoop_world s (from to : string) (dates : list string)
    (clock : nat → time.Time) (n : nat)
    (rates : gmap string models.HistoricalRate) w :
  (exchange.historicalLoop s from to dates clock n rates w).2 = w.
Proof.
  revert n rates. induction dates as [|d dates IH]; intros n rates; [done|].
  cbn [exchange.historicalLoop]. unfold bind.
  pose proof (getHistoricalRate_world (exchange.rateFetcher s) from to d
                (clock (2 * n)%nat) (clock (2 * n + 1)%nat) w) as Hw.
  destruct (services.getHistoricalRate _ from to d _ _ w) as [[rate e] w'].
  simpl in Hw. subst w'. destruct e; apply IH.
Qed.

Lemma GetHistoricalRates_world s (req : models.HistoricalRateRequest)
    (t : exchange.HistoricalClock) w :
  (exchange.GetHistoricalRates s req t w).2 = w.
Proof.
  unfold exchange.GetHistoricalRates.
  destruct (utils.ValidateHistoricalRequest _ _ _); [done|].
  destruct (utils.ValidateDateRange _ _ _ _) as [[sd ed] [e|]]; [done|].
  unfold bind.
  pose proof (historicalLoop_world s (models.hist_From req)
                (models.hist_To req) (utils.GetDateRangeList sd ed)
                (exchange.atDates t) 0 ∅ w) as Hw.
  destruct (exchange.historicalLoop _ _ _ _ _ _ _ w) as [rates w'].
  by simpl in *.
Qed.

Lemma ConvertCurrency_latestOnly s (req : models.ConversionRequest)
    (t : exchange.ConvertClock) w :
  latestOnly (services.wcache w) →
  latestOnly
    (services.wcache (exchange.ConvertCurrency Sprint_f s req t w).2).
Proof.
  intros Hw. unfold exchange.ConvertCurrency.
  destruct (utils.ValidateConversionRequest _ _ _) as [e|] eqn:EV; [done|].
  unfold utils.ValidateConversionRequest in EV.
  destruct (utils.ValidateCurrencyPair _ _) as [e|] eqn:EP; [done|].
  apply ValidateCurrencyPair_None in EP as [Hf Ht].
  destruct (decide (models.Date req ≠ "")) as [Hd|Hd].
  - destruct (utils.ValidateDate (models.Date req) (exchange.atDate t))
      as [d [e|]]; [exact Hw|].
    unfold bind.
    pose proof (getHistoricalRate_world (exchange.rateFetcher s)
                  (models.From req) (models.To req) (models.Date req)
                  (exchange.atLookup t) (exchange.atWrite t) w) as Hsame.
    destruct (services.getHistoricalRate _ _ _ _ _ _ w) as [[rate e] w'].
    simpl in Hsame. subst w'. by destruct e.
  - unfold bind.
    pose proof (latestOnly_getLatestRate (exchange.rateFetcher s)
                  (models.From req) (models.To req)
                  (exchange.atLookup t) (exchange.atWrite t) w Hf Ht Hw)
      as Hkeep.
    destruct (services.getLatestRate _ _ _ _ _ w) as [[rate e] w'].
    by destruct e.
Qed.

Lemma run_latestOnly (call : program.call) w :
  latestOnly (services.wcache w) →
  latestOnly (services.wcache (program.run Sprint_f keys call w)).
Proof.
  intros Hw. destruct call as [remote σ|remote from to now now'|remote req t
                              |remote req t|now]; cbn [program.run].
  - by apply latestOnly_refresh.
  - unfold exchange.GetLatestRate.
    destruct (utils.ValidateCurrencyPair from to) as [e|] eqn:EP; [done|].
    apply ValidateCurrencyPair_None in EP as [Hf Ht].
    by apply latestOnly_getLatestRate.
  - by apply ConvertCurrency_latestOnly.
  - by rewrite GetHistoricalRates_world.
  - unfold services.onCache.
    pose proof (latestOnly_sweep now _ Hw) as Hs.
    by destruct (cache.cleanupTick now (services.wcache w)).
Qed.

Lemma reachable_latestOnly_aux w :
  program.reachable Sprint_f keys w → latestOnly (services.wcache w).
Proof.
  intros [calls ->].
  induction calls as [|call calls IH] using rev_ind.
  - intros k [item Hk]. cbn in Hk. by rewrite lookup_empty in Hk.
  - rewrite foldl_app. cbn [foldl]. by apply run_latestOnly.
Qed.






(** X25. Whatever calls were made since the program started (refresh
    passes, requests for a latest rate, conversions, requests for
    historical rates, firings of the sweep, with whatever the remote
    answered), every entry of the cache is the latest rate of a pair of
    supported currencies; so no rate for a date is ever in it. *)
Theorem cache_holds_latest_only w :
  program.reachable Sprint_f keys w →
  latestOnly (services.wcache w)
  ∧ ∀ from to date : string,
      from ∈ codes → to ∈ codes → date ≠ "" → date ≠ "latest" →
      cache.data (services.wcache w) !! cache.generateKey from to date = None.
Proof.
  intros Hw%reachable_latestOnly_aux. split; [done|].
  intros from to date Hf%supported_codes Ht%supported_codes Hd Hl.
  apply latestOnly_dated; [done|by apply supported_plain..|done|done].
Qed.



End program_facts.

Section program_samples.

Lemma scenario_keys :
  scenario.keys ≡ₚ map_to_list models.SupportedCurrencies.
Proof. reflexivity. Qed.

Lemma scenario_reachable :
  program.reachable scenario.Sprint_f scenario.keys scenario.warm.
Proof.
  exists [program.LatestRate sample.remote "USD" "INR" scenario.now
            scenario.now].
  reflexivity.
Qed.

Lemma cache_holds_latest_only_witness :
  scenario.keys ≡ₚ map_to_list models.SupportedCurrencies
  ∧ is_Some (cache.data (services.wcache scenario.warm)
               !! cache.generateKey "USD" "INR" "")
  ∧ cache.data (services.wcache scenario.warm)
      !! cache.generateKey "USD" "INR" "2023-01-15" = None.
Proof.
  split; [exact scenario_keys|].
  split; [eexists; vm_compute; reflexivity|].
  assert (Husd : "USD" ∈ codes)
    by (apply (bool_decide_unpack _); vm_compute; exact I).
  assert (Hinr : "INR" ∈ codes)
    by (apply (bool_decide_unpack _); vm_compute; exact I).
  assert (Hd : "2023-01-15" ≠ "") by discriminate.
  assert (Hl : "2023-01-15" ≠ "latest") by discriminate.
  destruct (cache_holds_latest_only scenario.Sprint_f scenario.keys
              scenario_keys scenario.warm scenario_reachable) as [_ Hdated].
  exact (Hdated "USD" "INR" "2023-01-15" Husd Hinr Hd Hl).
Defined.



End program_samples.

(** * Conversions at the latest rate, and the list of currencies *)

Section conversions.

Variable Sprint_f : float64 → string.

Implicit Types (s : exchange.ExchangeService) (w : services.World).

(** X28. A conversion with no date is [GetLatestRate] of the pair followed
    by one multiplication: for two supported codes and an amount that
    [ValidateAmount] accepts, when [GetLatestRate] at the clock's lookup
    and write instants returns a rate, the response carries that rate, the
    amount times that rate, and the clock's reading as its date; when it
    returns an error, the conversion returns that error wrapped once; the
    cache and the network end as [GetLatestRate] leaves them. *)
Theorem ConvertCurrency_latest s (req : models.ConversionRequest)
    (t : exchange.ConvertClock) w :
  models.From req ∈ codes → models.To req ∈ codes →
  utils.ValidateAmount Sprint_f (models.Amount req) = None →
  models.Date req = "" →
  exchange.ConvertCurrency Sprint_f s req t w
  = match exchange.GetLatestRate s (models.From req) (models.To req)
            (exchange.atLookup t) (exchange.atWrite t) w with
    | ((rate, None), w') =>
        (inl {| models.resp_From := models.From req;
                models.resp_To := models.To req;
                models.resp_Amount := models.Amount req;
                models.resp_ConvertedAmount :=
                  PrimFloat.mul (models.Amount req) rate;
                models.resp_Rate := rate;
                models.resp_Date := exchange.atDate t |}, w')
    | ((_, Some e), w') =>
        (inr (wrapError ("failed to get exchange rate: " +:+ Error e) e), w')
    end.
Proof.
  intros Hf Ht Hamount Hdate.
  assert (Hpair : utils.ValidateCurrencyPair (models.From req)
                    (models.To req) = None)
    by (apply ValidateCurrencyPair_None; by rewrite !supported_codes).
  unfold exchange.ConvertCurrency, utils.ValidateConversionRequest,
    exchange.GetLatestRate.
  rewrite Hpair, Hamount.
  destruct (decide (models.Date req ≠ "")) as [Hd|_]; [done|].
  unfold bind.
  destruct (services.getLatestRate _ _ _ _ _ w) as [[rate [e|]] w']; done.
Qed.

End conversions.

Section conversion_samples.

#[warnings="-inexact-float"]
Lemma ConvertCurrency_latest_witness :
  models.From scenario.latest ∈ codes ∧ models.To scenario.latest ∈ codes
  ∧ utils.ValidateAmount scenario.Sprint_f (models.Amount scenario.latest)
    = None
  ∧ exchange.ConvertCurrency scenario.Sprint_f scenario.offline
      scenario.latest scenario.convertClock scenario.warm
    = (inl {| models.resp_From := "USD"; models.resp_To := "INR";
              models.resp_Amount := 100%float;
              models.resp_ConvertedAmount := 8350%float;
              models.resp_Rate := 83.5%float;
              models.resp_Date := scenario.now |}, scenario.warm).
Proof.
  assert (Hf : models.From scenario.latest ∈ codes)
    by (apply (bool_decide_unpack _); vm_compute; exact I).
  assert (Ht : models.To scenario.latest ∈ codes)
    by (apply (bool_decide_unpack _); vm_compute; exact I).
  assert (Hamount : utils.ValidateAmount scenario.Sprint_f
                      (models.Amount scenario.latest) = None)
    by (vm_compute; reflexivity).
  split; [exact Hf|]. split; [exact Ht|]. split; [exact Hamount|].
  rewrite (ConvertCurrency_latest scenario.Sprint_f scenario.offline scenario.latest
             scenario.convertClock scenario.warm Hf Ht Hamount eq_refl).
  vm_compute. reflexivity.
Defined.

End conversion_samples.

Section currency_list.

(** X29. [GetSupportedCurrencies] returns the five supported codes, each
    once, in whatever order the range over the map visits them, and a code
    is in the list exactly when [ValidateCurrency] accepts it. *)
Theorem GetSupportedCurrencies_codes (keys : list (string * bool)) :
  keys ≡ₚ map_to_list models.SupportedCurrencies →
  exchange.GetSupportedCurrencies_in keys ≡ₚ codes
  ∧ ∀ c, c ∈ exchange.GetSupportedCurrencies_in keys
         ↔ utils.ValidateCurrency c = None.
Proof.
  intros Hkeys. unfold exchange.GetSupportedCurrencies_in.
  assert (Hperm : keys.*1 ≡ₚ codes).
  { rewrite Hkeys. apply NoDup_Permutation.
    - apply NoDup_fst_map_to_list.
    - apply (bool_decide_unpack _). vm_compute. exact I.
    - intros c. rewrite <- supported_codes. unfold services.supported.
      split.
      + intros ([q v] & -> & Hin)%list_elem_of_fmap.
        apply elem_of_map_to_list in Hin. simpl. rewrite Hin. simpl.
        unfold models.SupportedCurrencies in Hin.
        apply elem_of_list_to_map in Hin;
          [|apply (bool_decide_unpack _); vm_compute; exact I].
        repeat (apply elem_of_cons in Hin as [[= _ ->]|Hin]); [done..|].
        by apply elem_of_nil in Hin.
      + destruct (models.SupportedCurrencies !! c) as [v|] eqn:E; [|done].
        intros _. apply list_elem_of_fmap. exists (c, v).
        split; [done|by apply elem_of_map_to_list]. }
  split; [done|]. intros c.
  by rewrite Hperm, ValidateCurrency_None, supported_codes.
Qed.

Lemma GetSupportedCurrencies_codes_witness :
  scenario.keys ≡ₚ map_to_list models.SupportedCurrencies
  ∧ exchange.GetSupportedCurrencies ≡ₚ ["USD"; "INR"; "EUR"; "JPY"; "GBP"].
Proof.
  split; [exact scenario_keys|].
  destruct (GetSupportedCurrencies_codes scenario.keys scenario_keys)
    as [Hperm _].
  exact Hperm.
Defined.

End currency_list.

